(** * span: embargo delays, ISSN validation, page and date parsing, batching

    A shallow embedding of the parts of the span repository that carry its
    behavioural contracts:

    - [holdings/ovid.go]: [ParseDelay], [Entitlement.Delay], [HoldingsMap];
    - [issn.go]: [ISSN.Validate], [ISSN.String];
    - the crossref source: [Crossref.Iterate], [Document.PageInfo],
      [Document.RecordID], [DateField.Date], [Document.ParseMemberID],
      [Document.ToIntermediateSchema];
    - the genios source, in its two revisions: [Genios.Iterate],
      [Document.Date], [Document.Authors], [Document.FincID],
      [Document.ToIntermediateSchema];
    - the genderopen source: [parsePages], [Record.BookTitle],
      [Record.ToIntermediateSchema];
    - package span: [ReadLines], [WriteCounter].

    Go strings are byte strings; they are modelled by [string], whose
    characters are the 256 byte values.  Go's [int] and [time.Duration] are
    64-bit; they are modelled by [Z] with the wrap-around written out where
    the code can reach it. *)

From Stdlib Require Import ZArith NArith Ascii String List Lia Bool Sorted.
From Stdlib Require OrderedTypeEx.
From stdpp Require Import base option list strings gmap.

(** ** Bytes *)

Module Byte.

Definition code (c : ascii) : N := N_of_ascii c.

Definition isDigit (c : ascii) : bool :=
  ((48 <=? code c) && (code c <=? 57))%N.

(** ['1' <= c <= '9'] *)
Definition isDigit19 (c : ascii) : bool :=
  ((49 <=? code c) && (code c <=? 57))%N.

Definition digitVal (c : ascii) : Z := Z.of_N (code c) - 48.

Definition digitChar (d : Z) : ascii := ascii_of_N (Z.to_N (48 + d)).

Definition isLower (c : ascii) : bool :=
  ((97 <=? code c) && (code c <=? 122))%N.

Definition isUpper (c : ascii) : bool :=
  ((65 <=? code c) && (code c <=? 90))%N.

Definition toUpper (c : ascii) : ascii :=
  if isLower c then ascii_of_N (code c - 32) else c.

Definition toLower (c : ascii) : ascii :=
  if isUpper c then ascii_of_N (code c + 32) else c.

Definition eqb (a b : ascii) : bool := Ascii.eqb a b.

End Byte.

(** ** Package [strings] *)

Module GoStrings.

Fixpoint all (p : ascii -> bool) (s : string) : bool :=
  match s with
  | EmptyString => true
  | String c r => p c && all p r
  end.

Fixpoint map (f : ascii -> ascii) (s : string) : string :=
  match s with
  | EmptyString => EmptyString
  | String c r => String (f c) (map f r)
  end.

Fixpoint rev_append (s acc : string) : string :=
  match s with
  | EmptyString => acc
  | String c r => rev_append r (String c acc)
  end.

Definition rev (s : string) : string := rev_append s EmptyString.

(** [span p s] splits [s] after its longest prefix of bytes satisfying [p]. *)
Fixpoint span (p : ascii -> bool) (s : string) : string * string :=
  match s with
  | EmptyString => (EmptyString, EmptyString)
  | String c r =>
      if p c then let '(a, b) := span p r in (String c a, b)
      else (EmptyString, s)
  end.

(** [strings.HasPrefix]; on success the remainder is returned as well. *)
Fixpoint stripPrefix (p s : string) : option string :=
  match p, s with
  | EmptyString, _ => Some s
  | String a p', String b s' => if Byte.eqb a b then stripPrefix p' s' else None
  | String _ _, EmptyString => None
  end.

Definition HasPrefix (s p : string) : bool :=
  match stripPrefix p s with Some _ => true | None => false end.

(** [strings.Contains] *)
Fixpoint Contains (s sub : string) : bool :=
  HasPrefix s sub ||
  match s with
  | EmptyString => false
  | String _ r => Contains r sub
  end.

(** [strings.Replace(s, old, new, n)] for a non-empty [old]; [n = None]
    stands for a negative count (replace all), [Some k] for the first [k]
    occurrences.  The fuel bounds the scan by the length of [s]. *)
Fixpoint replaceFuel (fuel : nat) (s old new : string) (n : option nat) : string :=
  match fuel with
  | O => s
  | S fuel' =>
      match n with
      | Some O => s
      | _ =>
          match stripPrefix old s with
          | Some r =>
              new +:+ replaceFuel fuel' r old new
                        (match n with Some (S k) => Some k | _ => n end)
          | None =>
              match s with
              | EmptyString => EmptyString
              | String c r => String c (replaceFuel fuel' r old new n)
              end
          end
      end
  end.

Definition Replace (s old new : string) (n : option nat) : string :=
  replaceFuel (S (String.length s)) s old new n.

(** [strings.NewReplacer(pairs...).Replace] for single-byte patterns with
    empty or single-byte replacements: each byte is looked up in the pair
    list, the first matching pair wins. *)
Fixpoint replaceByte (pairs : list (ascii * string)) (c : ascii) : string :=
  match pairs with
  | [] => String c EmptyString
  | (o, n) :: ps => if Byte.eqb o c then n else replaceByte ps c
  end.

Fixpoint ReplacerReplace (pairs : list (ascii * string)) (s : string) : string :=
  match s with
  | EmptyString => EmptyString
  | String c r => replaceByte pairs c +:+ ReplacerReplace pairs r
  end.

(** [strings.ToUpper] and [strings.ToLower] on the ASCII range.  On bytes
    of 128 and above Go decodes UTF-8 and applies the Unicode case tables;
    that part is not modelled, such bytes are kept as they are. *)
Definition ToUpper (s : string) : string := map Byte.toUpper s.
Definition ToLower (s : string) : string := map Byte.toLower s.

(** The UTF-8 encodings of the code points with the Unicode White_Space
    property ([unicode.IsSpace]): the six ASCII ones, U+0085, U+00A0,
    U+1680, U+2000..U+200A, U+2028, U+2029, U+202F, U+205F, U+3000. *)
Definition bytes (l : list N) : string :=
  fold_right (fun n s => String (ascii_of_N n) s) EmptyString l.

Definition whiteSpace : list string :=
  List.map bytes
    [ [9]; [10]; [11]; [12]; [13]; [32];
      [194; 133]; [194; 160]; [225; 154; 128];
      [226; 128; 128]; [226; 128; 129]; [226; 128; 130]; [226; 128; 131];
      [226; 128; 132]; [226; 128; 133]; [226; 128; 134]; [226; 128; 135];
      [226; 128; 136]; [226; 128; 137]; [226; 128; 138];
      [226; 128; 168]; [226; 128; 169]; [226; 128; 175];
      [226; 129; 159]; [227; 128; 128] ]%N.

(** Strips one leading element of [ws], if any. *)
Fixpoint stripOne (ws : list string) (s : string) : option string :=
  match ws with
  | [] => None
  | w :: ws' =>
      match stripPrefix w s with
      | Some r => Some r
      | None => stripOne ws' s
      end
  end.

Fixpoint trimLeftFuel (fuel : nat) (ws : list string) (s : string) : string :=
  match fuel with
  | O => s
  | S fuel' =>
      match stripOne ws s with
      | Some r => trimLeftFuel fuel' ws r
      | None => s
      end
  end.

Definition TrimLeftSpace (s : string) : string :=
  trimLeftFuel (String.length s) whiteSpace s.

Definition TrimRightSpace (s : string) : string :=
  rev (trimLeftFuel (String.length s) (List.map rev whiteSpace) (rev s)).

(** [strings.TrimSpace]: leading and trailing white space removed. *)
Definition TrimSpace (s : string) : string :=
  TrimRightSpace (TrimLeftSpace s).

(** [strings.TrimRight(s, "=")] *)
Definition TrimRightByte (c : ascii) (s : string) : string :=
  rev (snd (span (Byte.eqb c) (rev s))).

(** [strings.Split(s, sep)] for a single-byte separator. *)
Fixpoint Split (sep : ascii) (s : string) : list string :=
  match s with
  | EmptyString => [EmptyString]
  | String c r =>
      if Byte.eqb sep c then EmptyString :: Split sep r
      else match Split sep r with
           | [] => [String c EmptyString]
           | x :: xs => String c x :: xs
           end
  end.

(** [strings.FieldsFunc(s, f)] for a predicate on ASCII separators: the
    maximal runs of bytes not satisfying [f]. *)
Fixpoint fieldsAux (f : ascii -> bool) (s cur : string) : list string :=
  match s with
  | EmptyString => if String.eqb cur EmptyString then [] else [rev cur]
  | String c r =>
      if f c then
        (if String.eqb cur EmptyString then [] else [rev cur]) ++ fieldsAux f r EmptyString
      else fieldsAux f r (String c cur)
  end.

Definition FieldsFunc (s : string) (f : ascii -> bool) : list string :=
  fieldsAux f s EmptyString.

(** [s[:n]] for [n <= len(s)] *)
Fixpoint take (n : nat) (s : string) : string :=
  match n, s with
  | S n', String c r => String c (take n' r)
  | _, _ => EmptyString
  end.


(** [s[n:]] for [n <= len(s)] *)
Fixpoint drop (n : nat) (s : string) : string :=
  match n, s with
  | S n', String _ r => drop n' r
  | _, _ => s
  end.

End GoStrings.

(** ** Package [strconv] and the [%d] verb of [fmt] *)

Module Strconv.

Inductive NumErr := ErrSyntax | ErrRange.

Definition maxUint64 : Z := 2 ^ 64 - 1.
Definition maxInt64 : Z := 2 ^ 63 - 1.
Definition minInt64 : Z := - 2 ^ 63.

(** Two's complement wrap-around of 64-bit [int] arithmetic. *)
Definition wrap64 (z : Z) : Z := (z + 2 ^ 63) mod 2 ^ 64 - 2 ^ 63.

(** The digit loop of [strconv.ParseUint(s, 10, 64)], entered with the
    value [n] read so far.  A byte that is not a digit is a syntax error;
    a value beyond [maxUint64] is a range error, reported as soon as it is
    reached. *)
Fixpoint parseUintLoop (n : Z) (s : string) : Z * option NumErr :=
  match s with
  | EmptyString => (n, None)
  | String c r =>
      if negb (Byte.isDigit c) then (0, Some ErrSyntax)
      else if n >=? maxUint64 / 10 + 1 then (maxUint64, Some ErrRange)
      else
        let n1 := n * 10 + Byte.digitVal c in
        if n1 >? maxUint64 then (maxUint64, Some ErrRange)
        else parseUintLoop n1 r
  end%Z.

Definition ParseUint (s : string) : Z * option NumErr :=
  match s with
  | EmptyString => (0%Z, Some ErrSyntax)
  | _ => parseUintLoop 0 s
  end.

(** [strconv.Atoi] on a 64-bit platform: an optional sign, then
    [ParseUint]; a magnitude that does not fit [int64] is clamped and
    reported as a range error. *)
Definition Atoi (s : string) : Z * option NumErr :=
  match s with
  | EmptyString => (0%Z, Some ErrSyntax)
  | String c r =>
      let '(neg, body) :=
        if Byte.eqb c "+" then (false, r)
        else if Byte.eqb c "-" then (true, r)
        else (false, s) in
      match ParseUint body with
      | (_, Some ErrSyntax) => (0, Some ErrSyntax)
      | (un, _) =>
          if negb neg && (un >=? 2 ^ 63) then (maxInt64, Some ErrRange)
          else if neg && (un >? 2 ^ 63) then (minInt64, Some ErrRange)
          else (if neg then - un else un, None)
      end
  end%Z.

(** Decimal digits of a non-negative number, most significant first. *)
Fixpoint utoaFuel (fuel : nat) (n : Z) (acc : string) : string :=
  match fuel with
  | O => acc
  | S fuel' =>
      let acc' := String (Byte.digitChar (n mod 10)) acc in
      if (n <? 10)%Z then acc' else utoaFuel fuel' (n / 10) acc'
  end.

Definition utoa (n : Z) : string :=
  utoaFuel (S (Z.to_nat (Z.log2 n))) n EmptyString.

(** [fmt.Sprintf("%d", n)] *)
Definition FormatInt (n : Z) : string :=
  if (n <? 0)%Z then String "-" (utoa (- n)) else utoa n.


(** [fmt.Sprintf("%0<width>d", n)]: the digits are filled up with zeros
    to the width; a minus sign takes one place of the width. *)
Definition FormatIntPad (width : nat) (n : Z) : string :=
  let zeros (k : nat) := GoStrings.bytes (repeat 48%N k) in
  if (n <? 0)%Z then
    let s := utoa (- n) in
    String "-" (zeros (width - 1 - String.length s)%nat +:+ s)
  else
    let s := utoa n in
    zeros (width - String.length s)%nat +:+ s.

End Strconv.

(** ** Errors

    The [error] values the modelled functions can return.  [span.Skip],
    declared outside the files modelled here, is the error with a reason
    that marks a record as skipped. *)

Module Errors.

(** [*time.ParseError] *)
Record ParseError := {
  Layout : string;
  Value : string;
  LayoutElem : string;
  ValueElem : string;
  Message : string
}.

Inductive error :=
  | Skip (Reason : string)               (* span.Skip{Reason: ...} *)
  | ErrorString (msg : string)           (* errors.New, fmt.Errorf *)
  | NumError (num : string) (e : Strconv.NumErr)   (* the NumError of strconv.Atoi *)
  | TimeParseError (e : ParseError).

Definition quote (s : string) : string :=
  String (ascii_of_N 34) s +:+ String (ascii_of_N 34) EmptyString.

(** The [Error] method of [*time.ParseError] (Go 1.11, where [quote] adds
    the two quotation marks and escapes nothing). *)
Definition ParseError_Error (e : ParseError) : string :=
  if String.eqb (Message e) EmptyString then
    "parsing time " +:+ quote (Value e) +:+ " as " +:+ quote (Layout e)
      +:+ ": cannot parse " +:+ quote (ValueElem e) +:+ " as " +:+ quote (LayoutElem e)
  else "parsing time " +:+ quote (Value e) +:+ Message e.

Definition isSkip (e : error) : bool :=
  match e with Skip _ => true | _ => false end.

End Errors.

(** ** Package [time] *)

Module Time.

Import Errors.

Local Open Scope Z_scope.

(** [time.Duration]: a signed 64-bit count of nanoseconds. *)
Definition Duration := Z.

Definition Hour : Duration := 3600 * 10 ^ 9.

Definition unitMap (u : string) : option Z :=
  if String.eqb u "ns" then Some 1
  else if String.eqb u "us" then Some (10 ^ 3)
  else if String.eqb u (GoStrings.bytes [194; 181; 115]%N) then Some (10 ^ 3)  (* U+00B5 s *)
  else if String.eqb u (GoStrings.bytes [206; 188; 115]%N) then Some (10 ^ 3)  (* U+03BC s *)
  else if String.eqb u "ms" then Some (10 ^ 6)
  else if String.eqb u "s" then Some (10 ^ 9)
  else if String.eqb u "m" then Some (60 * 10 ^ 9)
  else if String.eqb u "h" then Some Hour
  else None%Z.

(** [leadingInt] of package time, entered with the value [x] read so far:
    the leading digits of [s] and the rest; [None] is [errLeadingInt]
    (the value left the range of [int64]). *)
Fixpoint leadingInt (x : Z) (s : string) : option (Z * string) :=
  match s with
  | EmptyString => Some (x, s)
  | String c r =>
      if Byte.isDigit c then
        if x >? Strconv.maxInt64 / 10 then None
        else
          let x' := x * 10 + Byte.digitVal c in
          if x' >? Strconv.maxInt64 then None else leadingInt x' r
      else Some (x, s)
  end%Z.

Definition isUnitByte (c : ascii) : bool :=
  negb (Byte.eqb c "." || Byte.isDigit c).

(** The loop of [time.ParseDuration] over the groups [<digits><unit>],
    entered with the sum [d] of the groups read so far.  [None] stands for
    any of its errors.  The branch for a fractional part is not modelled
    (it computes in [float64]): on a group with a ['.'] the model answers
    [None].  [ParseDelay] below never builds such an input. *)
Fixpoint parseGroups (fuel : nat) (d : Z) (s : string) : option Z :=
  match s with
  | EmptyString => Some d
  | String c _ =>
      match fuel with
      | O => None
      | S fuel' =>
          if negb (Byte.isDigit c) then None
          else
            match leadingInt 0 s with
            | None => None
            | Some (v, s1) =>
                let '(u, s2) := GoStrings.span isUnitByte s1 in
                match u with
                | EmptyString => None                (* fraction, or missing unit *)
                | _ =>
                    match unitMap u with
                    | None => None                   (* unknown unit *)
                    | Some unit =>
                        if v >? Strconv.maxInt64 / unit then None
                        else
                          let d' := d + v * unit in
                          if d' >? Strconv.maxInt64 then None
                          else parseGroups fuel' d' s2
                    end
                end
            end
      end
  end%Z.

(** [time.ParseDuration] (Go 1.11): an optional sign, the special case
    ["0"], then the groups. *)
Definition ParseDuration (s : string) : option Duration :=
  let '(neg, body) :=
    match s with
    | String c r =>
        if Byte.eqb c "-" then (true, r)
        else if Byte.eqb c "+" then (false, r)
        else (false, s)
    | EmptyString => (false, s)
    end in
  if String.eqb body "0" then Some 0%Z
  else if String.eqb body EmptyString then None
  else
    match parseGroups (String.length body) 0 body with
    | Some d => Some (if neg : bool then - d else d)%Z
    | None => None
    end.

(** [time.Time], restricted to what the layouts used here can produce: a
    calendar date at midnight UTC. *)
Record Time := { year : Z; month : Z; day : Z }.

(** The zero value [time.Time{}]: January 1 of the year 1. *)
Definition zero : Time := {| year := 1; month := 1; day := 1 |}.

Definition isLeap (y : Z) : bool :=
  ((y mod 4 =? 0) && (negb (y mod 100 =? 0) || (y mod 400 =? 0)))%Z.

Definition daysIn (m y : Z) : Z :=
  (if m =? 2 then (if isLeap y then 29 else 28)
   else if (m =? 4) || (m =? 6) || (m =? 9) || (m =? 11) then 30
   else 31)%Z.

Definition mkErr (layout value lelem velem msg : string) : ParseError :=
  {| Layout := layout; Value := value; LayoutElem := lelem;
     ValueElem := velem; Message := msg |}.

(** The chunk [2006] of a layout ([stdLongYear]): four bytes, the first a
    digit, read by [atoi]; the year and the rest of the value. *)
Definition parseLongYear (layout avalue value : string) : ParseError + (Z * string) :=
  match value with
  | String a (String b (String c (String d rest))) =>
      if negb (Byte.isDigit a) then inl (mkErr layout avalue "2006" value "")
      else if Byte.isDigit b && Byte.isDigit c && Byte.isDigit d then
        inr (fst (Strconv.parseUintLoop 0 (String a (String b (String c (String d EmptyString))))), rest)
      else inl (mkErr layout avalue "2006" rest "")
  | _ => inl (mkErr layout avalue "2006" value "")
  end.

(** [getnum(s, true)]: exactly two digits. *)
Definition getnum2 (s : string) : option (Z * string) :=
  match s with
  | String a (String b rest) =>
      if Byte.isDigit a && Byte.isDigit b
      then Some (Byte.digitVal a * 10 + Byte.digitVal b, rest)%Z
      else None
  | _ => None
  end.

(** The final checks of [time.Parse]: no text may be left and the day must
    exist in the month. *)
Definition finish (layout avalue value : string) (y m d : Z) : ParseError + Time :=
  if negb (String.eqb value EmptyString) then
    inl (mkErr layout avalue "" value (": extra text: " +:+ value))
  else if ((d <? 1) || (d >? daysIn m y))%Z then
    inl (mkErr layout avalue "" value ": day out of range")
  else inr {| year := y; month := m; day := d |}.

(** [time.Parse("2006", value)] *)
Definition Parse2006 (value : string) : ParseError + Time :=
  match parseLongYear "2006" value value with
  | inl e => inl e
  | inr (y, rest) => finish "2006" value rest y 1 1
  end.

(** [time.Parse("20060102", value)] *)
Definition Parse20060102 (value : string) : ParseError + Time :=
  let layout := "20060102" in
  match parseLongYear layout value value with
  | inl e => inl e
  | inr (y, v1) =>
      let '(m, v2, bad) :=
        match getnum2 v1 with Some (m, v2) => (m, v2, false) | None => (0%Z, v1, true) end in
      if ((m <=? 0) || (12 <? m))%Z then
        inl (mkErr layout value "01" v2 ": month out of range")
      else if bad : bool then inl (mkErr layout value "01" v2 "")
      else
        match getnum2 v2 with
        | None => inl (mkErr layout value "02" v2 "")
        | Some (d, v3) => finish layout value v3 y m d
        end
  end.

Definition pad (width : nat) (n : Z) : string :=
  let s := Strconv.utoa n in
  GoStrings.bytes (repeat 48%N (width - String.length s)%nat) +:+ s.

(** [t.Format("2006-01-02")] for a year between 0 and 9999. *)
Definition Format (t : Time) : string :=
  pad 4 (year t) +:+ "-" +:+ pad 2 (month t) +:+ "-" +:+ pad 2 (day t).


(** [skip(value, "-")]: the literal dash between two chunks of a layout. *)
Definition skipDash (value : string) : option string :=
  match value with
  | String c r => if Byte.eqb c "-" then Some r else None
  | EmptyString => None
  end.

(** [time.Parse("2006-01-02", value)] *)
Definition Parse2006_01_02 (value : string) : ParseError + Time :=
  let layout := "2006-01-02" in
  match parseLongYear layout value value with
  | inl e => inl e
  | inr (y, v1) =>
      match skipDash v1 with
      | None => inl (mkErr layout value "-" v1 "")
      | Some v2 =>
          let '(m, v3, bad) :=
            match getnum2 v2 with
            | Some (m, v3) => (m, v3, false)
            | None => (0%Z, v2, true)
            end in
          if ((m <=? 0) || (12 <? m))%Z then
            inl (mkErr layout value "01" v3 ": month out of range")
          else if bad : bool then inl (mkErr layout value "01" v3 "")
          else
            match skipDash v3 with
            | None => inl (mkErr layout value "-" v3 "")
            | Some v4 =>
                match getnum2 v4 with
                | None => inl (mkErr layout value "02" v4 "")
                | Some (d, v5) => finish layout value v5 y m d
                end
            end
      end
  end.

End Time.

(** ** Package [holdings] ([holdings/ovid.go]) *)

Module Holdings.

Import Errors.

(** [DelayPattern.FindStringSubmatch(s)] for
    [DelayPattern = ^-(\d+)(M|Y)$]: the whole match and the two groups, or
    [nil].  The digits are taken greedily; since neither [M] nor [Y] is a
    digit, no other split of [s] can match. *)
Definition DelayPattern_FindStringSubmatch (s : string) : list string :=
  match s with
  | String c r =>
      if Byte.eqb c "-" then
        let '(ds, u) := GoStrings.span Byte.isDigit r in
        if negb (String.eqb ds EmptyString) && (String.eqb u "M" || String.eqb u "Y")
        then [s; ds; u]
        else []
      else []
  | EmptyString => []
  end.

(** [Holding] and [Entitlement] as the XML decoder fills them. *)
Record Entitlement := {
  Status : string;
  URL : string;
  Anchor : string;
  FromYear : Z;
  FromVolume : Z;
  FromIssue : Z;
  FromDelay : string;
  ToYear : Z;
  ToVolume : Z;
  ToIssue : Z;
  ToDelay : string
}.

Record Holding := {
  EZBID : Z;
  Title : string;
  Publishers : string;
  PISSN : list string;
  EISSN : list string;
  Entitlements : list Entitlement
}.

(** [IssnHolding], a [map[string]Holding] *)
Abbreviation IssnHolding := (gmap string Holding).

(** [ParseDelay].  The named result [d] is zero until [time.ParseDuration]
    assigns it.  The [err] assigned together with it is the variable
    declared inside the [if] block; the function ends in [return d, nil],
    so that an error of [time.ParseDuration] is dropped and [d] is then the
    zero duration. *)
Definition ParseDelay (s : string) : Time.Duration * option error :=
  let d := 0%Z in
  let hours (n : Z) : Time.Duration * option error :=
    (default 0%Z
       (Time.ParseDuration (String "-" (Strconv.FormatInt (Strconv.wrap64 n) +:+ "h"))),
     None) in
  match DelayPattern_FindStringSubmatch s with
  | [_; ms1; ms2] =>
      match Strconv.Atoi ms1 with
      | (_, Some e) => (d, Some (NumError ms1 e))
      | (value, None) =>
          if String.eqb ms2 "Y" then hours (value * 8760)%Z
          else if String.eqb ms2 "M" then hours (value * 720)%Z
          else (d, Some (ErrorString ("unknown unit: " +:+ ms2)))
      end
  | _ => (d, Some (ErrorString ("unknown format: " +:+ s)))
  end.

(** [Entitlement.Delay] *)
Definition Delay (e : Entitlement) : Time.Duration * option error :=
  if negb (String.eqb (FromDelay e) EmptyString) then ParseDelay (FromDelay e)
  else if negb (String.eqb (ToDelay e) EmptyString) then ParseDelay (ToDelay e)
  else (0%Z, None).

(** The tokens [decoder.Token()] hands to the loop of [HoldingsMap] until
    it returns [nil]: a start element carries its local name and the value
    [decoder.DecodeElement] leaves in [item] when called on it (its error
    is ignored by the code); every other token is skipped. *)
Inductive Token :=
  | StartElement (local : string) (item : Holding)
  | OtherToken.

Definition assign (item : Holding) (h : IssnHolding) (ids : list string) : IssnHolding :=
  fold_left (fun h id => <[id := item]> h) ids h.

Definition step (h : IssnHolding) (t : Token) : IssnHolding :=
  match t with
  | StartElement tag item =>
      if String.eqb tag "holding"
      then assign item (assign item h (EISSN item)) (PISSN item)
      else h
  | OtherToken => h
  end.

(** [HoldingsMap] *)
Definition HoldingsMap (tokens : list Token) : IssnHolding :=
  fold_left step tokens ∅.

(** The holding elements of a document, in document order. *)
Definition holdings (tokens : list Token) : list Holding :=
  omap (fun t => match t with
                 | StartElement tag item =>
                     if String.eqb tag "holding" then Some item else None
                 | OtherToken => None
                 end) tokens.

(** The ISSNs a holding element lists. *)
Definition issns (item : Holding) : list string := EISSN item ++ PISSN item.

End Holdings.

(** ** Package [encoding/base64] *)

Module Base64.

(** The 64 characters of an alphabet: [A-Z], [a-z], [0-9] and the two
    given last characters. *)
Definition alphabet (c62 c63 : ascii) (i : N) : ascii :=
  (if i <? 26 then ascii_of_N (65 + i)
   else if i <? 52 then ascii_of_N (97 + (i - 26))
   else if i <? 62 then ascii_of_N (48 + (i - 52))
   else if i =? 62 then c62
   else c63)%N.

(** [Encoding.EncodeToString]: three bytes give four characters; a rest of
    one or two bytes gives two or three characters, filled up with the
    padding character if the encoding has one. *)
Fixpoint encode (alpha : N -> ascii) (padding : option ascii) (s : string) : string :=
  let pad := match padding with Some p => String p EmptyString | None => EmptyString end in
  match s with
  | EmptyString => EmptyString
  | String a EmptyString =>
      let a := Byte.code a in
      String (alpha (N.shiftr a 2))
        (String (alpha (N.shiftl (N.land a 3) 4)) (pad +:+ pad))
  | String a (String b EmptyString) =>
      let a := Byte.code a in
      let b := Byte.code b in
      String (alpha (N.shiftr a 2))
        (String (alpha (N.lor (N.shiftl (N.land a 3) 4) (N.shiftr b 4)))
           (String (alpha (N.shiftl (N.land b 15) 2)) pad))
  | String a (String b (String c r)) =>
      let a := Byte.code a in
      let b := Byte.code b in
      let c := Byte.code c in
      String (alpha (N.shiftr a 2))
        (String (alpha (N.lor (N.shiftl (N.land a 3) 4) (N.shiftr b 4)))
           (String (alpha (N.lor (N.shiftl (N.land b 15) 2) (N.shiftr c 6)))
              (String (alpha (N.land c 63)) (encode alpha padding r))))
  end.

(** [base64.StdEncoding.EncodeToString] *)
Definition StdEncoding (s : string) : string :=
  encode (alphabet "+" "/") (Some "="%char) s.

(** [base64.RawURLEncoding.EncodeToString] *)
Definition RawURLEncoding (s : string) : string :=
  encode (alphabet "-" "_") None s.

End Base64.

(** ** Package [span] ([issn.go]) *)

Module Span.

Import Errors.

(** Modelled from the spec: [span.KeyLengthLimit], the fixed key-length
    ceiling of invariant I3.  The constant is declared in a file of
    package span that is not among the files modelled here; its value,
    250, is the limit on memcached keys named in the comment at its two
    uses. *)
Definition KeyLengthLimit : nat := 250.

Definition ErrInvalidISSN : error := ErrorString "invalid ISSN".

(** [replacer = strings.NewReplacer("-", "", " ", "")] *)
Definition replacer : list (ascii * string) :=
  [("-"%char, EmptyString); (" "%char, EmptyString)].

(** [n] digits at the head of [s], and the rest. *)
Fixpoint digitsN (n : nat) (s : string) : option string :=
  match n with
  | O => Some s
  | S n' =>
      match s with
      | String c r => if Byte.isDigit c then digitsN n' r else None
      | EmptyString => None
      end
  end.

(** [pattern.Match] for [pattern = ^[0-9]{7}[0-9X]$] *)
Definition pattern_Match (t : string) : bool :=
  match digitsN 7 t with
  | Some (String c EmptyString) => Byte.isDigit c || Byte.eqb c "X"
  | _ => false
  end.

(** The normal form both [Validate] and [String] compute first. *)
Definition normalize (s : string) : string :=
  GoStrings.TrimSpace (GoStrings.ToUpper (GoStrings.ReplacerReplace replacer s)).

(** [ISSN.Validate]; [None] is the [nil] error. *)
Definition Validate (s : string) : option error :=
  let t := normalize s in
  if negb (String.length t =? 8)%nat then Some ErrInvalidISSN
  else if negb (pattern_Match t) then Some ErrInvalidISSN
  else None.


(** [ISSN.String].  [strings.ToUpper] has two paths: a string of ASCII
    bytes is mapped byte by byte; any other string goes through
    [strings.Map(unicode.ToUpper, s)], whose case tables lie outside the
    files modelled here and are a parameter of the model. *)
Definition isASCII (s : string) : bool :=
  GoStrings.all (fun c => (Byte.code c <? 128)%N) s.

Section Printing.

Variable unicodeToUpper : string -> string.

Definition ToUpper (s : string) : string :=
  if isASCII s then GoStrings.ToUpper s else unicodeToUpper s.

(** The normal form [String] computes first. *)
Definition normalForm (s : string) : string :=
  GoStrings.TrimSpace (ToUpper (GoStrings.ReplacerReplace replacer s)).

Definition ISSN_String (s : string) : string :=
  let t := normalForm s in
  if negb (String.length t =? 8)%nat then s
  else GoStrings.take 4 t +:+ "-" +:+ GoStrings.drop 4 t.

End Printing.

End Span.

(** ** Package [finc]: the intermediate schema *)

Module Finc.

Record Author := { Name : string; FirstName : string; LastName : string }.

Definition AuthorName (n : string) : Author :=
  {| Name := n; FirstName := EmptyString; LastName := EmptyString |}.

(** Modelled from the spec: [finc.IntermediateSchema], the canonical
    intermediate record.  The type and its constructor are declared
    outside the files modelled here; the record has the fields the
    adapters below assign. *)
Record IntermediateSchema := {
  ID : string;
  RecordID : string;
  SourceID : string;
  Format : string;
  Genre : string;
  RefType : string;
  MegaCollections : list string;
  Packages : list string;
  Languages : list string;
  ArticleTitle : string;
  JournalTitle : string;
  BookTitle : string;
  Abstract : string;
  Fulltext : string;
  Authors : list Author;
  Publishers : list string;
  Subjects : list string;
  URL : list string;
  ISSN : list string;
  DOI : string;
  Issue : string;
  Volume : string;
  Date : Time.Time;
  RawDate : string;
  StartPage : string;
  EndPage : string;
  PageCount : string;
  OpenAccess : bool
}.

(** Modelled from the spec: [finc.NewIntermediateSchema], which leaves
    the fields the adapters assign at their zero values. *)
Definition NewIntermediateSchema : IntermediateSchema := {|
  ID := EmptyString; RecordID := EmptyString; SourceID := EmptyString;
  Format := EmptyString; Genre := EmptyString; RefType := EmptyString;
  MegaCollections := []; Packages := []; Languages := [];
  ArticleTitle := EmptyString; JournalTitle := EmptyString;
  BookTitle := EmptyString; Abstract := EmptyString; Fulltext := EmptyString;
  Authors := []; Publishers := []; Subjects := []; URL := []; ISSN := [];
  DOI := EmptyString; Issue := EmptyString; Volume := EmptyString;
  Date := Time.zero; RawDate := EmptyString;
  StartPage := EmptyString; EndPage := EmptyString; PageCount := EmptyString;
  OpenAccess := false
|}.

End Finc.

(** ** Package [crossref] *)

Module Crossref.

Definition SourceID : string := "49".

(** [BatchSize] for grouped channel transport. *)
Definition BatchSize : Z := 25000.

Record Author := { Family : string; Given : string }.

Record DateField := { DateParts : list (list Z); Timestamp : Z }.

(** [Document]; the field [Score], a [float64] no modelled function reads,
    is left out. *)
Record Document := {
  Authors : list Author;
  ContainerTitle : list string;
  Deposited : DateField;
  DOI : string;
  Indexed : DateField;
  ISSN : list string;
  Issue : string;
  Issued : DateField;
  Member : string;
  Page : string;
  Prefix : string;
  Publisher : string;
  ReferenceCount : Z;
  Source : string;
  Subjects : list string;
  Subtitle : list string;
  Title : list string;
  Type_ : string;
  URL : string;
  Volume : string
}.

(** What [reader.ReadString('\n')] returns on one call of the loop of
    [Iterate]: a line, or an error other than [io.EOF].  The end of the
    list of reads is [io.EOF]; bytes after the last newline come with
    that [io.EOF] and are dropped by the [break], they are no read of the
    list. *)
Inductive Read :=
  | Line (line : string)
  | Failure.

(** The [Items] of a [span.Batcher] as sent on the channel.  (The value
    sent shares its backing array with the slice the loop goes on
    appending to; its length is fixed by the slice header that was sent.) *)
Definition Batch := list string.

(** What the goroutine of [Iterate] does: the batches sent on [ch], in
    order, and whether [log.Fatal] ended the process before [close(ch)]. *)
Record Output := { sent : list Batch; fatal : bool }.

(** The loop of [Iterate], with [batch.Items], the counter [i] and the
    batches sent so far. *)
Fixpoint loop (B : Z) (reads : list Read) (Items : list string) (i : Z)
    (ch : list Batch) : Output :=
  match reads with
  | [] => {| sent := ch ++ [Items]; fatal := false |}
  | Failure :: _ => {| sent := ch; fatal := true |}
  | Line line :: rest =>
      let Items := Items ++ [line] in
      if (i =? B)%Z then loop B rest [] (0 + 1)%Z (ch ++ [Items])
      else loop B rest Items (i + 1)%Z ch
  end.

Definition IterateWith (B : Z) (reads : list Read) : Output :=
  loop B reads [] 1%Z [].

(** [Crossref.Iterate] *)
Definition Iterate (reads : list Read) : Output := IterateWith BatchSize reads.

(** [PageInfo] holds various page related data. *)
Record PageInfo := { RawMessage : string; StartPage : Z; EndPage : Z }.

(** [PageInfo.PageCount] *)
Definition PageCount (pi : PageInfo) : Z :=
  if negb (StartPage pi =? 0)%Z && negb (EndPage pi =? 0)%Z then
    let count := Strconv.wrap64 (EndPage pi - StartPage pi) in
    if (count >? 0)%Z then count else 0%Z
  else 0%Z.

(** [Document.RecordID].  [SourceID] is a string constant and the verb is
    [%d]: [fmt] renders the mismatch as [%!d(string=49)]. *)
Definition RecordID (doc : Document) : string :=
  "ai-" +:+ ("%!d(string=" +:+ SourceID +:+ ")") +:+ "-" +:+ Base64.StdEncoding (URL doc).

(** [Document.PageInfo] *)
Definition DocumentPageInfo (doc : Document) : PageInfo :=
  let pi := {| RawMessage := Page doc; StartPage := 0; EndPage := 0 |} in
  match GoStrings.Split "-" (Page doc) with
  | [p0; p1] =>
      match Strconv.Atoi p0 with
      | (_, Some _) => pi
      | (spage, None) =>
          let pi := {| RawMessage := Page doc; StartPage := spage; EndPage := 0 |} in
          match Strconv.Atoi p1 with
          | (_, Some _) => pi
          | (epage, None) =>
              {| RawMessage := Page doc; StartPage := spage; EndPage := epage |}
          end
      end
  | _ => pi
  end.

(** The page fields [Document.ToIntermediateSchema] derives from
    [doc.PageInfo()]: [StartPage], [EndPage] and [PageCount], each printed
    with [%d]. *)
Definition pageFields (doc : Document) : string * string * string :=
  let pi := DocumentPageInfo doc in
  (Strconv.FormatInt (StartPage pi), Strconv.FormatInt (EndPage pi),
   Strconv.FormatInt (PageCount pi)).


Definition errNoDate : Errors.error := Errors.ErrorString "date is missing".
Definition errNoURL : Errors.error := Errors.ErrorString "URL is missing".

(** [Author.String] *)
Definition AuthorString (author : Author) : string :=
  if negb (String.eqb (Given author) EmptyString) then
    if negb (String.eqb (Family author) EmptyString)
    then Family author +:+ ", " +:+ Given author
    else Given author
  else Family author.

(** [DateField.Date].  On an error of [time.Parse] the time returned is
    the zero time; with no or more than three date parts no case of the
    [switch] is taken and the zero time is returned with a nil error. *)
Definition Date (d : DateField) : Time.Time * option Errors.error :=
  let parse (value : string) : Time.Time * option Errors.error :=
    match Time.Parse2006_01_02 value with
    | inl e => (Time.zero, Some (Errors.TimeParseError e))
    | inr t => (t, None)
    end in
  match DateParts d with
  | [] => (Time.zero, Some errNoDate)
  | parts :: _ =>
      match parts with
      | [y] => parse (Strconv.FormatIntPad 4 y +:+ "-01-01")
      | [y; m] =>
          parse (Strconv.FormatIntPad 4 y +:+ "-" +:+ Strconv.FormatIntPad 2 m +:+ "-01")
      | [y; m; day] =>
          parse (Strconv.FormatIntPad 4 y +:+ "-" +:+ Strconv.FormatIntPad 2 m
                 +:+ "-" +:+ Strconv.FormatIntPad 2 day)
      | _ => (Time.zero, None)
      end
  end.

(** [Document.CombinedTitle] *)
Definition CombinedTitle (doc : Document) : string :=
  match Title doc, Subtitle doc with
  | t :: _, s :: _ => t +:+ " : " +:+ s
  | t :: _, [] => t
  | [], s :: _ => s
  | [], [] => EmptyString
  end.

(** [Document.ShortTitle] *)
Definition ShortTitle (doc : Document) : string :=
  match Title doc with
  | t :: _ => t
  | [] => EmptyString
  end.

(** [Document.ParseMemberID] *)
Definition ParseMemberID (doc : Document) : Z * option Errors.error :=
  let invalid := Errors.ErrorString ("invalid member: " +:+ Member doc) in
  let fields := GoStrings.Split "/" (Member doc) in
  match last fields with
  | Some f =>
      match Strconv.Atoi f with
      | (id, Some _) => (id, Some invalid)
      | (id, None) => (id, None)
      end
  | None => (0%Z, Some invalid)
  end.


(** The intermediate schema of package [span/finc] that this source
    converts to, and its author.  The type is declared outside the files
    modelled here; the record has the fields [ToIntermediateSchema]
    assigns. *)
Record SchemaAuthor := { FirstName : string; LastName : string }.

Record Schema := {
  S_ArticleTitle : string;
  S_Authors : list SchemaAuthor;
  S_DOI : string;
  S_EndPage : string;
  S_Format : string;
  S_ISSN : list string;
  S_Issue : string;
  S_JournalTitle : string;
  S_Languages : list string;
  S_MegaCollection : string;
  S_PageCount : string;
  S_Pages : string;
  S_Publishers : list string;
  S_RawDate : string;
  S_RecordID : string;
  S_SourceID : string;
  S_StartPage : string;
  S_Subjects : list string;
  S_Type : string;
  S_URL : list string;
  S_Version : string;
  S_Volume : string
}.

Definition Format : string := "ElectronicArticle".

(** The collaborators of the conversion that live outside the files
    modelled here are parameters of the model: the record that
    [finc.NewIntermediateSchema] returns, the constant
    [finc.IntermediateSchemaVersion] and [LookupMemberName]. *)
Section Conversion.

Variable NewIntermediateSchema : Schema.
Variable IntermediateSchemaVersion : string.
Variable LookupMemberName : Z -> string * option Errors.error.

(** [Document.MemberName] *)
Definition MemberName (doc : Document) : string * option Errors.error :=
  match ParseMemberID doc with
  | (_, Some err) => (EmptyString, Some err)
  | (id, None) => LookupMemberName id
  end.

(** [Document.ToIntermediateSchema] *)
Definition ToIntermediateSchema (doc : Document) : Schema * option Errors.error :=
  let output := NewIntermediateSchema in
  let '(date, err) := Date (Issued doc) in
  let output :=
    {| S_ArticleTitle := S_ArticleTitle output; S_Authors := S_Authors output;
       S_DOI := S_DOI output; S_EndPage := S_EndPage output;
       S_Format := S_Format output; S_ISSN := S_ISSN output;
       S_Issue := S_Issue output; S_JournalTitle := S_JournalTitle output;
       S_Languages := S_Languages output;
       S_MegaCollection := S_MegaCollection output;
       S_PageCount := S_PageCount output; S_Pages := S_Pages output;
       S_Publishers := S_Publishers output;
       S_RawDate := Time.Format date;
       S_RecordID := S_RecordID output; S_SourceID := S_SourceID output;
       S_StartPage := S_StartPage output; S_Subjects := S_Subjects output;
       S_Type := S_Type output; S_URL := S_URL output;
       S_Version := S_Version output; S_Volume := S_Volume output |} in
  match err with
  | Some e => (output, Some e)
  | None =>
      if String.eqb (URL doc) EmptyString then (output, Some errNoURL)
      else
        let pi := DocumentPageInfo doc in
        ({| S_ArticleTitle := CombinedTitle doc;
            S_Authors :=
              S_Authors output
              ++ List.map (fun author =>
                             {| FirstName := Given author; LastName := Family author |})
                   (Authors doc);
            S_DOI := DOI doc;
            S_EndPage := Strconv.FormatInt (EndPage pi);
            S_Format := Format;
            S_ISSN := ISSN doc;
            S_Issue := Issue doc;
            S_JournalTitle :=
              match ContainerTitle doc with
              | t :: _ => t
              | [] => S_JournalTitle output
              end;
            S_Languages := ["en"];
            S_MegaCollection :=
              match MemberName doc with
              | (name, None) => name +:+ " (CrossRef)"
              | (_, Some _) => S_MegaCollection output
              end;
            S_PageCount := Strconv.FormatInt (PageCount pi);
            S_Pages := RawMessage pi;
            S_Publishers := S_Publishers output ++ [Publisher doc];
            S_RawDate := Time.Format date;
            S_RecordID := RecordID doc;
            S_SourceID := SourceID;
            S_StartPage := Strconv.FormatInt (StartPage pi);
            S_Subjects := Subjects doc;
            S_Type := Type_ doc;
            S_URL := S_URL output ++ [URL doc];
            S_Version := IntermediateSchemaVersion;
            S_Volume := Volume doc |},
         None)
  end.

End Conversion.

End Crossref.

(** ** Package [genios], the revision with [Genios.Iterate] *)

Module GeniosLegacy.

Definition SourceID : string := "48".

(** Process records in batches. *)
Definition batchSize : Z := 2000.

Record Document := {
  ID : string;
  ISSN : string;
  Source : string;
  PublicationTitle : string;
  Title : string;
  Year : string;
  RawDate : string;
  Volume : string;
  Issue : string;
  RawAuthors : list string;
  Language : string;
  Abstract : string;
  Group : string;
  Descriptors : string;
  Text : string
}.

(** The tokens [decoder.Token()] hands to the loop of [Iterate] until it
    returns [nil].  A start element carries its local name and the outcome
    of [decoder.DecodeElement] on it: the document, or [None] for an
    error. *)
Inductive Token :=
  | StartElement (local : string) (decoded : option Document)
  | OtherToken.

(** The [Items] of the [span.Batcher] that [NewBatch(docs)] builds: a copy
    of [docs]. *)
Definition Batch := list Document.

Definition NewBatch (docs : list Document) : Batch := docs.

Record Output := { sent : list Batch; fatal : bool }.

(** The loop of [Iterate], with [docs], the counter [i] and the batches
    sent so far. *)
Fixpoint loop (B : Z) (tokens : list Token) (docs : list Document) (i : Z)
    (ch : list Batch) : Output :=
  match tokens with
  | [] => {| sent := ch ++ [NewBatch docs]; fatal := false |}
  | OtherToken :: rest => loop B rest docs i ch
  | StartElement local decoded :: rest =>
      if String.eqb local "Document" then
        match decoded with
        | None => {| sent := ch; fatal := true |}
        | Some doc =>
            let i := (i + 1)%Z in
            let docs := docs ++ [doc] in
            if (i =? B)%Z then loop B rest [] 0%Z (ch ++ [NewBatch docs])
            else loop B rest docs i ch
        end
      else loop B rest docs i ch
  end.

Definition IterateWith (B : Z) (tokens : list Token) : Output :=
  loop B tokens [] 0%Z [].

(** [Genios.Iterate] *)
Definition Iterate (tokens : list Token) : Output := IterateWith batchSize tokens.

(** The documents a token stream decodes to, in order. *)
Definition documents (tokens : list Token) : list Document :=
  omap (fun t => match t with
                 | StartElement local (Some doc) =>
                     if String.eqb local "Document" then Some doc else None
                 | _ => None
                 end) tokens.

(** No [Document] element of the stream fails to decode. *)
Definition decodes (tokens : list Token) : bool :=
  forallb (fun t => match t with
                    | StartElement local None => negb (String.eqb local "Document")
                    | _ => true
                    end) tokens.

(** [Document.SourceAndID] *)
Definition SourceAndID (doc : Document) : string :=
  GoStrings.TrimSpace (Source doc) +:+ "__" +:+ GoStrings.TrimSpace (ID doc).

(** [Document.RecordID] *)
Definition RecordID (doc : Document) : string :=
  GoStrings.TrimRightByte "="
    ("ai-" +:+ SourceID +:+ "-" +:+ Base64.StdEncoding (SourceAndID doc)).

End GeniosLegacy.

(** ** Package [genios] ([formats/genios/document.go]) *)

Module Genios.

Import Errors.

Definition SourceID : string := "48".
Definition Format : string := "ElectronicArticle".
Definition Collection : string := "Genios".
Definition Genre : string := "article".
Definition DefaultRefType : string := "EJOUR".
Definition textAsAbstractCutoff : nat := 200.
Definition maxAuthorLength : nat := 200.
Definition minAuthorLength : nat := 4.
Definition maxTitleLength : nat := 2048.

Record Document := {
  ID : string;
  DB : string;
  IDNAME : string;
  ISSN : string;
  Source : string;
  PublicationTitle : string;
  Title : string;
  Year : string;
  RawDate : string;
  Volume : string;
  Issue : string;
  RawAuthors : list string;
  Language : string;
  Abstract : string;
  Descriptors : string;
  Text : string;
  Modules : list string
}.

(** [rawDateReplacer]: the quotation mark, the newline and the tab are
    removed. *)
Definition rawDateReplacer : list (ascii * string) :=
  [(ascii_of_N 34, EmptyString); (ascii_of_N 10, EmptyString); (ascii_of_N 9, EmptyString)].

Definition is12 (c : ascii) : bool := Byte.eqb c "1" || Byte.eqb c "2".

(** [yearPattern.MatchString] for [yearPattern = [12][0-9][0-9][0-9]]:
    the pattern is not anchored, a match anywhere in [s] counts. *)
Fixpoint yearPattern_MatchString (s : string) : bool :=
  match s with
  | EmptyString => false
  | String a r =>
      (is12 a &&
       match r with
       | String b (String c (String d _)) =>
           Byte.isDigit b && Byte.isDigit c && Byte.isDigit d
       | _ => false
       end)
      || yearPattern_MatchString r
  end.

Definition cleanDate (s : string) : string :=
  GoStrings.TrimSpace (GoStrings.ReplacerReplace rawDateReplacer s).

(** [Document.Date]: prefers [Year], falls back to [Date]. *)
Definition Date (doc : Document) : ParseError + Time.Time :=
  let rawYear := cleanDate (Year doc) in
  if yearPattern_MatchString rawYear then Time.Parse2006 rawYear
  else
    let raw := cleanDate (RawDate doc) in
    let raw := if (8 <? String.length raw)%nat then GoStrings.take 8 raw else raw in
    Time.Parse20060102 raw.

(** [Document.SourceAndID] *)
Definition SourceAndID (doc : Document) : string :=
  GoStrings.TrimSpace (Source doc) +:+ "__" +:+ GoStrings.TrimSpace (ID doc).

(** [Document.URL] *)
Definition URL (doc : Document) : string :=
  "https://www.wiso-net.de/document/" +:+ SourceAndID doc.

(** [isNomenNescio] *)
Definition isNomenNescio (s : string) : bool :=
  let t := GoStrings.ToLower (GoStrings.TrimSpace s) in
  String.eqb t "n.n." || String.eqb t EmptyString.

(** [stringContainsAny] *)
Definition stringContainsAny (s : string) (needles : list string) : bool :=
  existsb (GoStrings.Contains s) needles.

Definition clues : list string :=
  ["www."; "http:"; "&quot"; "part 1 of"; "part 2 of";
   "Copyright"; "(c)"; "All rights reserved"; "he said"].

Definition isSep (wide : bool) (r : ascii) : bool :=
  if wide then Byte.eqb r ";" || Byte.eqb r "/" || Byte.eqb r ","
  else Byte.eqb r ";" || Byte.eqb r "/".

(** [Document.Authors] *)
Definition Authors (doc : Document) : list Finc.Author :=
  flat_map
    (fun s =>
       flat_map
         (fun f =>
            if isNomenNescio f then []
            else
              let name := GoStrings.TrimSpace f in
              if (String.length name <? minAuthorLength)%nat then []
              else if stringContainsAny name clues then []
              else if (String.length name <? maxAuthorLength)%nat
                   then [Finc.AuthorName name]
                   else [])
         (GoStrings.FieldsFunc s (isSep (60 <? String.length s)%nat)))
    (RawAuthors doc).

(** [Document.Headings] *)
Definition Headings (doc : Document) : list string :=
  let fields := GoStrings.FieldsFunc (Descriptors doc) (isSep false) in
  let fields :=
    match fields with
    | [_] => GoStrings.FieldsFunc (Descriptors doc) (fun r => Byte.eqb r ",")
    | _ => fields
    end in
  List.map GoStrings.TrimSpace fields.

(** [Document.FincID] uses [SourceAndID] as starting point. *)
Definition FincID (doc : Document) : string :=
  "ai-" +:+ SourceID +:+ "-" +:+ Base64.RawURLEncoding (SourceAndID doc).

(** [sort.Sort(sort.Reverse(sort.StringSlice(l)))]: descending byte
    order. *)
Fixpoint insertDesc (x : string) (l : list string) : list string :=
  match l with
  | [] => [x]
  | y :: r => if String.leb y x then x :: l else y :: insertDesc x r
  end.

Definition sortReverse (l : list string) : list string :=
  fold_right insertDesc [] l.

(** The collaborators of the conversion that live outside the files
    modelled here are parameters of the model:
    - [span.ISSNPattern.FindAllString(s, -1)];
    - [span.DetectLang3], with [None] for its error;
    - [dbmap.LookupDefault], the package names of a database;
    - [container.StringSet]: a set is represented by the elements added to
      it, in order, and [Values] is the slice its method [Values]
      returns. *)
Section Conversion.

Variable ISSNPattern_FindAllString : string -> list string.
Variable DetectLang3 : string -> option string.
Variable dbmap_LookupDefault : string -> list string -> list string.
Variable StringSet_Values : list string -> list string.

Definition acceptedLanguages : list string := ["deu"; "eng"].

Definition contains (set : list string) (x : string) : bool :=
  existsb (String.eqb x) set.

(** [Document.ISSNList] *)
Definition ISSNList (doc : Document) : list string :=
  StringSet_Values (ISSNPattern_FindAllString (ISSN doc)).

(** [Document.Languages] *)
Definition Languages (doc : Document) : list string :=
  StringSet_Values
    (flat_map
       (fun s =>
          if (String.length s <? 20)%nat then []
          else
            match DetectLang3 s with
            | None => []
            | Some lang =>
                if negb (contains acceptedLanguages lang) then []
                else if String.eqb lang "und" then []
                else [lang]
            end)
       [Title doc; Text doc]).

(** [Document.ToIntermediateSchema]: the record built so far and the
    error ([None] for [nil]).  The line logged for a database without
    package is not part of the result. *)
Definition ToIntermediateSchema (doc : Document)
    : Finc.IntermediateSchema * option error :=
  let output := Finc.NewIntermediateSchema in
  match Date doc with
  | inl err => (output, Some (Skip (ParseError_Error err)))
  | inr date =>
      let rawDate := Time.Format date in
      let authors := Authors doc in
      let url := Finc.URL output ++ [URL doc] in
      let abstract :=
        if isNomenNescio (Abstract doc) then
          let cutoff := String.length (Text doc) in
          let cutoff :=
            if (textAsAbstractCutoff <? cutoff)%nat then textAsAbstractCutoff else cutoff in
          GoStrings.TrimSpace (GoStrings.take cutoff (Text doc))
        else GoStrings.TrimSpace (Abstract doc) in
      let articleTitle := GoStrings.TrimSpace (Title doc) in
      if (maxTitleLength <? String.length articleTitle)%nat then
        ({| Finc.ID := EmptyString; Finc.RecordID := EmptyString;
            Finc.SourceID := EmptyString; Finc.Format := EmptyString;
            Finc.Genre := EmptyString; Finc.RefType := EmptyString;
            Finc.MegaCollections := []; Finc.Packages := []; Finc.Languages := [];
            Finc.ArticleTitle := articleTitle; Finc.JournalTitle := EmptyString;
            Finc.BookTitle := EmptyString; Finc.Abstract := abstract;
            Finc.Fulltext := EmptyString; Finc.Authors := authors;
            Finc.Publishers := []; Finc.Subjects := []; Finc.URL := url;
            Finc.ISSN := []; Finc.DOI := EmptyString; Finc.Issue := EmptyString;
            Finc.Volume := EmptyString; Finc.Date := date; Finc.RawDate := rawDate;
            Finc.StartPage := EmptyString; Finc.EndPage := EmptyString;
            Finc.PageCount := EmptyString; Finc.OpenAccess := false |},
         Some (Skip ("article title too long: "
                     +:+ Strconv.FormatInt (Z.of_nat (String.length articleTitle)))))
      else
        let journalTitle :=
          GoStrings.Replace (GoStrings.TrimSpace (PublicationTitle doc))
            (String (ascii_of_N 10) EmptyString) " " None in
        let issn := ISSNList doc in
        let issue :=
          if negb (isNomenNescio (Issue doc)) then GoStrings.TrimSpace (Issue doc)
          else EmptyString in
        let volume :=
          if negb (isNomenNescio (Volume doc)) then GoStrings.TrimSpace (Volume doc)
          else EmptyString in
        let languages := Languages doc in
        let packageNames := dbmap_LookupDefault (DB doc) [] in
        let prefixedPackageNames :=
          sortReverse (List.map (fun name => "Genios (" +:+ name +:+ ")") packageNames) in
        let packages := ([DB doc] ++ prefixedPackageNames) ++ Modules doc in
        let megaCollections :=
          match prefixedPackageNames with
          | first :: _ => [first]
          | [] => ["Genios"]
          end in
        let id := FincID doc in
        let built (id recordID sourceID : string) (subjects : list string)
                  (refType : string) : Finc.IntermediateSchema :=
          {| Finc.ID := id; Finc.RecordID := recordID; Finc.SourceID := sourceID;
             Finc.Format := Format; Finc.Genre := Genre; Finc.RefType := refType;
             Finc.MegaCollections := megaCollections; Finc.Packages := packages;
             Finc.Languages := languages;
             Finc.ArticleTitle := articleTitle; Finc.JournalTitle := journalTitle;
             Finc.BookTitle := EmptyString; Finc.Abstract := abstract;
             Finc.Fulltext := Text doc; Finc.Authors := authors;
             Finc.Publishers := []; Finc.Subjects := subjects; Finc.URL := url;
             Finc.ISSN := issn; Finc.DOI := EmptyString; Finc.Issue := issue;
             Finc.Volume := volume; Finc.Date := date; Finc.RawDate := rawDate;
             Finc.StartPage := EmptyString; Finc.EndPage := EmptyString;
             Finc.PageCount := EmptyString; Finc.OpenAccess := false |} in
        if (Span.KeyLengthLimit <? String.length id)%nat then
          (built EmptyString EmptyString EmptyString [] EmptyString,
           Some (Skip ("id too long: " +:+ id)))
        else
          (built id (ID doc) SourceID (Headings doc) DefaultRefType, None)
  end.

End Conversion.

End Genios.

(** ** Package [span]: readers and counters *)

Module SpanIO.

(** What [reader.ReadString('\n')] returns on one call of the loop of
    [ReadLines]; the end of the list is [io.EOF]. *)
Inductive Read :=
  | Line (line : string)
  | Failure (err : Errors.error).

(** The loop of [ReadLines] with the lines kept so far. *)
Fixpoint readLoop (reads : list Read) (lines : list string)
    : list string * option Errors.error :=
  match reads with
  | [] => (lines, None)
  | Failure err :: _ => ([], Some err)
  | Line line :: rest =>
      let line := GoStrings.TrimSpace line in
      if String.eqb line EmptyString then readLoop rest lines
      else readLoop rest (lines ++ [line])
  end.

(** [ReadLines]: the trimmed lines of a file, empty lines skipped.  The
    file is given by the outcome of [os.Open] and, if it opened, by what
    its reader returns. *)
Definition ReadLines (file : Errors.error + list Read)
    : list string * option Errors.error :=
  match file with
  | inl err => ([], Some err)
  | inr reads => readLoop reads []
  end.

(** [WriteCounter]: the state is the field [count], a [uint64]. *)
Definition WriteCounter := Z.

(** [WriteCounter.Write]: the new state, the number of bytes reported as
    written and the error.  Nothing is handed to the writer [w]. *)
Definition Write (w : WriteCounter) (p : string) : WriteCounter * (Z * option Errors.error) :=
  ((w + Z.of_nat (String.length p)) mod 2 ^ 64, (Z.of_nat (String.length p), None))%Z.

(** [WriteCounter.Count] *)
Definition Count (w : WriteCounter) : Z := w.

(** A sequence of writes. *)
Definition writeAll (w : WriteCounter) (ps : list string) : WriteCounter :=
  fold_left (fun w p => fst (Write w p)) ps w.

(** The reads of a reader over [content] that does not fail:
    [ReadString('\n')] returns each line with its newline; what follows
    the last newline comes together with [io.EOF], at which the loop
    breaks.  [cur] holds the bytes of the line read so far, the last one
    first. *)
Fixpoint readsFrom (content cur : string) : list Read :=
  match content with
  | EmptyString => []
  | String c r =>
      if Byte.eqb c (ascii_of_N 10)
      then Line (GoStrings.rev (String c cur)) :: readsFrom r EmptyString
      else readsFrom r (String c cur)
  end.

Definition readsOf (content : string) : list Read := readsFrom content EmptyString.

End SpanIO.

(** ** Package [genderopen] *)

Module Genderopen.

Import Errors.

(** [Record].  Each element of the form [struct { Text string }] is
    represented by its [Text]; the fields are named by their path. *)
Record Record_ := {
  Header_Status : string;
  Header_Identifier : string;
  Header_Datestamp : string;
  Header_SetSpec : list string;
  Dc_Title : string;
  Dc_Creator : list string;
  Dc_Contributor : list string;
  Dc_Subject : list string;
  Dc_Date : string;
  Dc_Type : list string;
  Dc_Identifier : list string;
  Dc_Language : string;
  Dc_Rights : list string;
  Dc_Format : string;
  Dc_Publisher : list string;
  Dc_Source : string;
  Dc_Description : list string;
  About : string
}.

Definition newline : string := String (ascii_of_N 10) EmptyString.

(** [bookTitlePattern.FindStringSubmatch].  The pattern is a group of
    bytes other than the colon, a colon, and a group of bytes other than
    the opening parenthesis, both groups starred and greedy.  The leftmost
    match starts at the first byte: the first group runs up to the first colon, the second
    from there up to the first opening parenthesis or the end.  Without a
    colon nothing matches. *)
Definition bookTitlePattern_FindStringSubmatch (s : string) : list string :=
  let '(g1, r) := GoStrings.span (fun c => negb (Byte.eqb c ":")) s in
  match r with
  | String _ r' =>
      let '(g2, _) := GoStrings.span (fun c => negb (Byte.eqb c "(")) r' in
      [g1 +:+ ":" +:+ g2; g1; g2]
  | EmptyString => []
  end.

(** [Record.BookTitle] *)
Definition BookTitle (r : Record_) : string :=
  let s := GoStrings.Replace (Dc_Source r) newline " " None in
  match bookTitlePattern_FindStringSubmatch s with
  | [_; _; m2] => GoStrings.TrimSpace m2
  | _ => s
  end.

(** The pattern of [parsePages] is two groups joined by a dash, each
    group a digit from 1 to 9 followed by a starred [0-9].  [pagesAt s] is
    the match starting at the first byte of [s]: the two groups.  Both runs of digits are taken greedily; as the
    byte after the first run has to be the dash, no shorter run can lead
    to a match. *)
Definition pagesAt (s : string) : option (string * string) :=
  match s with
  | String a r =>
      if Byte.isDigit19 a then
        let '(d1, r1) := GoStrings.span Byte.isDigit r in
        match r1 with
        | String m (String b r2) =>
            if Byte.eqb m "-" && Byte.isDigit19 b then
              let '(d2, _) := GoStrings.span Byte.isDigit r2 in
              Some (String a d1, String b d2)
            else None
        | _ => None
        end
      else None
  | EmptyString => None
  end.

(** [p.FindStringSubmatch(s)] for the pattern of [parsePages]: the
    leftmost match. *)
Fixpoint pagesPattern_FindStringSubmatch (s : string) : list string :=
  match pagesAt s with
  | Some (ss, es) => [ss +:+ "-" +:+ es; ss; es]
  | None =>
      match s with
      | String _ r => pagesPattern_FindStringSubmatch r
      | EmptyString => []
      end
  end.

(** [parsePages] *)
Definition parsePages (s : string) : string * string * string :=
  match pagesPattern_FindStringSubmatch s with
  | _ :: ss :: es :: _ =>
      let u := fst (Strconv.Atoi ss) in
      let v := fst (Strconv.Atoi es) in
      (ss, es, Strconv.FormatInt (Strconv.wrap64 (v - u)))
  | _ => (EmptyString, EmptyString, EmptyString)
  end.

(** [stringsContainsAny]: comparisons are case insensitive. *)
Definition stringsContainsAny (v : string) (vals : list string) : bool :=
  existsb (fun vv => String.eqb (GoStrings.ToLower v) (GoStrings.ToLower vv)) vals.

(** The loop of [ToIntermediateSchema] over [dc:identifier]. *)
Definition identifiers (ids : list string) : list string * list string * string :=
  fold_left
    (fun '(url, issn, doi) v =>
       let url := if GoStrings.HasPrefix v "http" then url ++ [v] else url in
       let issn :=
         if GoStrings.HasPrefix v "urn:ISSN:"
         then issn ++ [GoStrings.Replace v "urn:ISSN:" EmptyString (Some 1%nat)]
         else issn in
       let doi :=
         if GoStrings.HasPrefix v "http://dx.doi.org/"
         then GoStrings.Replace v "http://dx.doi.org/" EmptyString None
         else doi in
       (url, issn, doi))
    ids ([], [], EmptyString).

(** [Record.ToIntermediateSchema] *)
Definition ToIntermediateSchema (record : Record_)
    : Finc.IntermediateSchema * option error :=
  let sourceID := "162" in
  let encodedRecordID := Base64.RawURLEncoding (Header_Identifier record) in
  let id := "ai-" +:+ sourceID +:+ "-" +:+ encodedRecordID in
  let articleTitle := Dc_Title record in
  let '(url, issn, doi) := identifiers (Dc_Identifier record) in
  let journal :=
    stringsContainsAny articleTitle ["zeitschrift"; "journal"]
    || (0 <? length issn)%nat in
  let built (date : Time.Time) (rawDate : string) (subjects : list string)
            (pages : string * string * string) (openAccess : bool)
      : Finc.IntermediateSchema :=
    {| Finc.ID := id; Finc.RecordID := encodedRecordID; Finc.SourceID := sourceID;
       Finc.Format := "ElectronicArticle"; Finc.Genre := "article";
       Finc.RefType := "EJOUR";
       Finc.MegaCollections := ["Gender Open"]; Finc.Packages := [];
       Finc.Languages := [Dc_Language record];
       Finc.ArticleTitle := articleTitle;
       Finc.JournalTitle := if journal then Dc_Source record else EmptyString;
       Finc.BookTitle := if journal then EmptyString else BookTitle record;
       Finc.Abstract := EmptyString; Finc.Fulltext := EmptyString;
       Finc.Authors := List.map Finc.AuthorName (Dc_Creator record);
       Finc.Publishers := Dc_Publisher record; Finc.Subjects := subjects;
       Finc.URL := url; Finc.ISSN := issn; Finc.DOI := doi;
       Finc.Issue := EmptyString; Finc.Volume := EmptyString;
       Finc.Date := date; Finc.RawDate := rawDate;
       Finc.StartPage := fst (fst pages); Finc.EndPage := snd (fst pages);
       Finc.PageCount := snd pages; Finc.OpenAccess := openAccess |} in
  let output := built Time.zero EmptyString [] (EmptyString, EmptyString, EmptyString) false in
  if String.eqb (Dc_Date record) EmptyString then
    (output, Some (Skip "empty date"))
  else if (String.length (Dc_Date record) <? 4)%nat then
    (output, Some (Skip "short date"))
  else
    let s := GoStrings.take 4 (Dc_Date record) in
    match Time.Parse2006 s with
    | inl err => (output, Some (TimeParseError err))
    | inr date =>
        (built date (Time.Format date) (Dc_Subject record)
           (parsePages (Dc_Source record)) true,
         None)
    end.

End Genderopen.

(** ** Vocabulary of the statements *)

(** The value of a string of decimal digits read after the value [acc],
    without any bound. *)
Fixpoint decimalFrom (acc : Z) (ds : string) : Z :=
  match ds with
  | EmptyString => acc
  | String c r => decimalFrom (acc * 10 + Byte.digitVal c)%Z r
  end.

Definition decimal (ds : string) : Z := decimalFrom 0 ds.

(** The value [strconv.Atoi] leaves in its first result for a string of
    digits: the decimal value, clamped to the largest [int64]. *)
Definition clamped (ds : string) : Z := Z.min (decimal ds) Strconv.maxInt64.

(** A string of one or more digits. *)
Definition isDigits (ds : string) : Prop :=
  ds ≠ EmptyString ∧ GoStrings.all Byte.isDigit ds = true.

(** A positive integer numeral: a digit from 1 to 9, then digits. *)
Definition isNumeral (x : string) : Prop :=
  ∃ c ds, x = String c ds ∧ Byte.isDigit19 c = true
          ∧ GoStrings.all Byte.isDigit ds = true.

(** The grammar of delays as the specification words it: a dash, an
    integer [ds], and the unit [M] or [Y]. *)
Definition delayGrammar (s ds : string) (u : ascii) : Prop :=
  s = String "-" (ds +:+ String u EmptyString) ∧ isDigits ds
  ∧ (u = "M"%char ∨ u = "Y"%char).

(** Hours per unit: a month has 720 hours, a year 8760. *)
Definition unitHours (u : ascii) : Z :=
  if Byte.eqb u "Y" then 8760%Z else 720%Z.

(** The largest number of whole hours a [time.Duration] can hold. *)
Definition maxHours : Z := 2562047.

(** [ceil(n / b)] *)
Definition ceilDiv (n b : Z) : Z := ((n + b - 1) / b)%Z.

(** The lines of a list of reads. *)
Definition lines (reads : list Crossref.Read) : list string :=
  omap (fun r => match r with
                 | Crossref.Line l => Some l
                 | Crossref.Failure => None
                 end) reads.

(** No read fails. *)
Definition readable (reads : list Crossref.Read) : bool :=
  forallb (fun r => match r with Crossref.Line _ => true | Crossref.Failure => false end)
    reads.

(** A well-formed ISSN in normal form: seven digits and a digit or [X]. *)
Definition wellFormedISSN (t : string) : Prop :=
  ∃ d c, t = d +:+ String c EmptyString ∧ String.length d = 7%nat
         ∧ GoStrings.all Byte.isDigit d = true
         ∧ (Byte.isDigit c = true ∨ c = "X"%char).

(** The check character of an ISSN, computed from its first seven digits
    with the weights 8 down to 2, modulo 11 (ISO 3297). *)
Definition issnCheckChar (d : string) : ascii :=
  let fix go (w : Z) (s : string) : Z :=
    match s with
    | EmptyString => 0%Z
    | String c r => (w * Byte.digitVal c + go (w - 1) r)%Z
    end in
  let k := ((11 - go 8%Z d mod 11) mod 11)%Z in
  if (k =? 10)%Z then "X"%char else Byte.digitChar k.

(** [s] does not begin with a digit. *)
Definition noDigitHead (s : string) : Prop :=
  match s with EmptyString => True | String c _ => Byte.isDigit c = false end.

(** An occurrence of the page pattern in [s]: two positive numerals
    joined by a dash. *)
Definition pageOccurrence (s pre a b post : string) : Prop :=
  s = pre +:+ a +:+ String "-" (b +:+ post) ∧ isNumeral a ∧ isNumeral b.

(** The entitlement of the test [TestDelay] whose two delays differ. *)
Definition mismatched : Holdings.Entitlement := {|
  Holdings.Status := EmptyString; Holdings.URL := EmptyString;
  Holdings.Anchor := EmptyString;
  Holdings.FromYear := 0; Holdings.FromVolume := 0; Holdings.FromIssue := 0;
  Holdings.FromDelay := "-1M";
  Holdings.ToYear := 0; Holdings.ToVolume := 0; Holdings.ToIssue := 0;
  Holdings.ToDelay := "-2M"
|}.

(** A genderopen record with the given identifier, date and source. *)
Definition genderopenRecord (identifier date source : string) : Genderopen.Record_ := {|
  Genderopen.Header_Status := EmptyString;
  Genderopen.Header_Identifier := identifier;
  Genderopen.Header_Datestamp := "2017-11-30T13:54:17Z";
  Genderopen.Header_SetSpec := ["com_13579_1"];
  Genderopen.Dc_Title := "Ausweitung der Geschlechterkampfzone";
  Genderopen.Dc_Creator := ["Brunner, Claudia"];
  Genderopen.Dc_Contributor := [];
  Genderopen.Dc_Subject := ["Geschlecht"];
  Genderopen.Dc_Date := date;
  Genderopen.Dc_Type := ["doc-type:bookPart"];
  Genderopen.Dc_Identifier := ["urn:ISBN:978-3-643-50677-1"];
  Genderopen.Dc_Language := "ger";
  Genderopen.Dc_Rights := [];
  Genderopen.Dc_Format := "application/pdf";
  Genderopen.Dc_Publisher := ["LIT"];
  Genderopen.Dc_Source := source;
  Genderopen.Dc_Description := [];
  Genderopen.About := EmptyString
|}.

(** A genios document with the given identifier, year and date. *)
Definition geniosDocument (id year date : string) : Genios.Document := {|
  Genios.ID := id; Genios.DB := "BOND"; Genios.IDNAME := EmptyString;
  Genios.ISSN := EmptyString; Genios.Source := "BOND";
  Genios.PublicationTitle := EmptyString; Genios.Title := "Title";
  Genios.Year := year; Genios.RawDate := date;
  Genios.Volume := EmptyString; Genios.Issue := EmptyString;
  Genios.RawAuthors := []; Genios.Language := EmptyString;
  Genios.Abstract := EmptyString; Genios.Descriptors := EmptyString;
  Genios.Text := EmptyString; Genios.Modules := []
|}.

(** A crossref document with the given page specification and URL. *)
Definition crossrefDocument (page url : string) : Crossref.Document := {|
  Crossref.Authors := []; Crossref.ContainerTitle := [];
  Crossref.Deposited := {| Crossref.DateParts := []; Crossref.Timestamp := 0 |};
  Crossref.DOI := EmptyString;
  Crossref.Indexed := {| Crossref.DateParts := []; Crossref.Timestamp := 0 |};
  Crossref.ISSN := []; Crossref.Issue := EmptyString;
  Crossref.Issued := {| Crossref.DateParts := []; Crossref.Timestamp := 0 |};
  Crossref.Member := EmptyString; Crossref.Page := page;
  Crossref.Prefix := EmptyString; Crossref.Publisher := EmptyString;
  Crossref.ReferenceCount := 0; Crossref.Source := EmptyString;
  Crossref.Subjects := []; Crossref.Subtitle := []; Crossref.Title := [];
  Crossref.Type_ := EmptyString; Crossref.URL := url; Crossref.Volume := EmptyString
|}.

(** Two holding elements that list the same p-ISSN, and a document made
    of them. *)
Definition holdingA : Holdings.Holding := {|
  Holdings.EZBID := 1; Holdings.Title := "Journal of Molecular Modeling";
  Holdings.Publishers := "Springer";
  Holdings.PISSN := ["1610-2940"]; Holdings.EISSN := ["0948-5023"];
  Holdings.Entitlements := []
|}.

Definition holdingB : Holdings.Holding := {|
  Holdings.EZBID := 2; Holdings.Title := "Journal of Molecular Modeling (new series)";
  Holdings.Publishers := "Springer";
  Holdings.PISSN := ["1610-2940"]; Holdings.EISSN := [];
  Holdings.Entitlements := [mismatched]
|}.

Definition twoHoldings : list Holdings.Token :=
  [Holdings.OtherToken; Holdings.StartElement "holding" holdingA;
   Holdings.StartElement "publisher" holdingA; Holdings.OtherToken;
   Holdings.StartElement "holding" holdingB].

(** The shape of what a batching loop sends for the records [all] and the
    batch size [B]: full batches of [B] records each, then one last batch
    with the records left over, possibly none. *)
Definition batched {A : Type} (B : Z) (all : list A) (sent : list (list A)) : Prop :=
  ∃ fulls rest,
    sent = fulls ++ [rest]
    ∧ Forall (fun b => Z.of_nat (length b) = B) fulls
    ∧ (Z.of_nat (length rest) < B)%Z
    ∧ concat fulls ++ rest = all.

(** The sum of the item counts of a list of batches. *)
Definition itemCount {A : Type} (sent : list (list A)) : Z :=
  fold_right (fun b n => (Z.of_nat (length b) + n)%Z) 0%Z sent.

(** An identifier of 300 bytes. *)
Definition longIdentifier : string := GoStrings.bytes (repeat 97%N 300).

(** Stand-ins for the collaborators of the genios conversion, for the
    examples: no ISSN found, no language detected, the packages of every
    database are the default, a set lists its elements in insertion
    order. *)
Definition geniosExample (doc : Genios.Document)
    : Finc.IntermediateSchema * option Errors.error :=
  Genios.ToIntermediateSchema (fun _ => []) (fun _ => None) (fun _ d => d) (fun l => l) doc.

(** [x] occurs in [s]. *)
Definition infix (x s : string) : Prop := ∃ pre post, s = pre +:+ x +:+ post.

(** A list of strings in descending byte order. *)
Definition descending (l : list string) : Prop :=
  StronglySorted (fun a b => String.leb b a = true) l.

(** A genios document with the given raw authors. *)
Definition geniosAuthored (authors : list string) : Genios.Document := {|
  Genios.ID := "b0604160052"; Genios.DB := "BOND"; Genios.IDNAME := EmptyString;
  Genios.ISSN := EmptyString; Genios.Source := "BOND";
  Genios.PublicationTitle := EmptyString; Genios.Title := "Title";
  Genios.Year := "2015"; Genios.RawDate := EmptyString;
  Genios.Volume := EmptyString; Genios.Issue := EmptyString;
  Genios.RawAuthors := authors; Genios.Language := EmptyString;
  Genios.Abstract := EmptyString; Genios.Descriptors := EmptyString;
  Genios.Text := EmptyString; Genios.Modules := []
|}.

(** The bytes of an ISSN in normal form: the digits and [X]. *)
Definition issnByte (c : ascii) : bool := Byte.isDigit c || Byte.eqb c "X".

(** The bytes and the sextets; the sextets that [Encoding.EncodeToString]
    cuts three bytes into, and those of a rest of one or two bytes. *)
Definition byteRange : list N := List.map N.of_nat (seq 0 256).
Definition sextetRange : list N := List.map N.of_nat (seq 0 64).

Definition sextet1 (a : N) : N := N.shiftr a 2.
Definition sextet2 (a b : N) : N := N.lor (N.shiftl (N.land a 3) 4) (N.shiftr b 4).
Definition sextet3 (b c : N) : N := N.lor (N.shiftl (N.land b 15) 2) (N.shiftr c 6).
Definition sextet4 (c : N) : N := N.land c 63.
Definition sextet2' (a : N) : N := N.shiftl (N.land a 3) 4.
Definition sextet3' (b : N) : N := N.shiftl (N.land b 15) 2.

(** What the proofs need of two bytes: each byte is put together again
    from its sextets, and the sextets are below 64. *)
Definition sextetCheck (a b : N) : bool :=
  ((N.lor (N.shiftl (N.shiftr a 4) 4) (N.land a 15) =? a)
   && (N.lor (N.shiftl (N.shiftr a 6) 6) (sextet4 a) =? a)
   && (N.lor (N.shiftl (sextet1 a) 2) (N.shiftr (sextet2 a b) 4) =? a)
   && (N.lor (N.shiftl (sextet1 a) 2) (N.shiftr (sextet2' a) 4) =? a)
   && (N.land (sextet2 a b) 15 =? N.shiftr b 4)
   && (N.shiftr (sextet3 a b) 2 =? N.land a 15)
   && (N.shiftr (sextet3' a) 2 =? N.land a 15)
   && (N.land (sextet3 a b) 3 =? N.shiftr b 6)
   && (sextet1 a <? 64) && (sextet4 a <? 64)
   && (sextet2' a <? 64) && (sextet3' a <? 64)
   && (sextet2 a b <? 64) && (sextet3 a b <? 64))%N.

(** What the proofs need of two sextets of an alphabet. *)
Definition alphabetCheck (alpha : N -> ascii) (padding : option ascii) (i j : N) : bool :=
  match padding with
  | Some p => negb (Byte.eqb (alpha i) p)
  | None => true
  end
  && implb (Byte.eqb (alpha i) (alpha j)) (i =? j)%N.

(** No two sextets share a character of the alphabet, and none has the
    padding character. *)
Definition alphabetChecked (alpha : N -> ascii) (padding : option ascii) : Prop :=
  forallb (fun i => forallb (alphabetCheck alpha padding i) sextetRange) sextetRange = true.

(** No underscore in [s]. *)
Definition noUnderscore (s : string) : Prop :=
  GoStrings.all (fun c => negb (Byte.eqb c "_")) s = true.

(** The year, month and day that the first element of [date-parts]
    stands for: a missing month or day is the first; no part or more
    than three parts stand for nothing. *)
Definition dateOfParts (parts : list Z) : option (Z * Z * Z) :=
  match parts with
  | [y] => Some (y, 1, 1)%Z
  | [y; m] => Some (y, m, 1)%Z
  | [y; m; d] => Some (y, m, d)
  | _ => None
  end.

(** A day of the calendar in a year of four digits. *)
Definition validDate (y m d : Z) : bool :=
  ((0 <=? y) && (y <=? 9999) && (1 <=? m) && (m <=? 12)
   && (1 <=? d) && (d <=? Time.daysIn m y))%Z.

(** The numbers from 0 up to, and without, [k]. *)
Definition below (k : Z) : list Z := List.map Z.of_nat (seq 0 (Z.to_nat k)).

(** The rest of [v] behind the prefix [p], if [v] has it. *)
Definition behind (p v : string) : list string :=
  match GoStrings.stripPrefix p v with
  | Some r => [r]
  | None => []
  end.

(** The sum of the lengths of a list of strings. *)
Definition totalLength (ps : list string) : Z :=
  fold_right (fun p n => (Z.of_nat (String.length p) + n)%Z) 0%Z ps.

(** The lines that [ReadLines] keeps of the lines read: trimmed, and not
    empty. *)
Definition keptLines (ls : list string) : list string :=
  List.filter (fun l => negb (String.eqb l EmptyString)) (List.map GoStrings.TrimSpace ls).

(** A document of the legacy genios source with the given identifier. *)
Definition legacyDocument (id : string) : GeniosLegacy.Document := {|
  GeniosLegacy.ID := id; GeniosLegacy.ISSN := EmptyString;
  GeniosLegacy.Source := "BOND"; GeniosLegacy.PublicationTitle := EmptyString;
  GeniosLegacy.Title := "Title"; GeniosLegacy.Year := "2015";
  GeniosLegacy.RawDate := EmptyString; GeniosLegacy.Volume := EmptyString;
  GeniosLegacy.Issue := EmptyString; GeniosLegacy.RawAuthors := [];
  GeniosLegacy.Language := EmptyString; GeniosLegacy.Abstract := EmptyString;
  GeniosLegacy.Group := EmptyString; GeniosLegacy.Descriptors := EmptyString;
  GeniosLegacy.Text := EmptyString
|}.

(** * Properties *)

(** ** Strings *)

Lemma append_cons (c : ascii) (a b : string) :
  String c a +:+ b = String c (a +:+ b).
Proof. reflexivity. Qed.

Lemma append_nil_l (s : string) : EmptyString +:+ s = s.
Proof. reflexivity. Qed.

Lemma append_nil_r (s : string) : s +:+ EmptyString = s.
Proof.
  induction s as [|c s IH]; [reflexivity |].
  rewrite append_cons, IH. reflexivity.
Qed.

Lemma append_assoc (a b c : string) : (a +:+ b) +:+ c = a +:+ (b +:+ c).
Proof.
  induction a as [|x a IH]; [reflexivity |].
  rewrite !append_cons, IH. reflexivity.
Qed.

Lemma length_append (a b : string) :
  String.length (a +:+ b) = (String.length a + String.length b)%nat.
Proof.
  induction a as [|x a IH]; [reflexivity |].
  rewrite append_cons. simpl. rewrite IH. reflexivity.
Qed.

Lemma span_append (p : ascii -> bool) (a b : string) :
  GoStrings.all p a = true ->
  match b with EmptyString => True | String c _ => p c = false end ->
  GoStrings.span p (a +:+ b) = (a, b).
Proof.
  intros Ha Hb. induction a as [|x a IH].
  - rewrite append_nil_l. destruct b as [|c b]; simpl; [reflexivity | now rewrite Hb].
  - simpl in Ha. apply andb_true_iff in Ha as [Hx Ha].
    rewrite append_cons. simpl. rewrite Hx, (IH Ha). reflexivity.
Qed.

Lemma span_spec (p : ascii -> bool) (s : string) :
  let '(a, b) := GoStrings.span p s in
  s = a +:+ b ∧ GoStrings.all p a = true
  ∧ match b with EmptyString => True | String c _ => p c = false end.
Proof.
  induction s as [|c s IH]; simpl; [auto |].
  destruct (p c) eqn:Hc.
  - destruct (GoStrings.span p s) as [a b]. destruct IH as (-> & Ha & Hb).
    rewrite append_cons. simpl. rewrite Hc, Ha. auto.
  - rewrite append_nil_l. simpl. auto.
Qed.

(** ** Holdings *)

Lemma assign_lookup (item : Holdings.Holding) (ids : list string)
    (h : Holdings.IssnHolding) (id : string) :
  Holdings.assign item h ids !! id = if bool_decide (id ∈ ids) then Some item else h !! id.
Proof.
  unfold Holdings.assign. revert h.
  induction ids as [|x ids IH]; intros h.
  - case_bool_decide as Hin; [by apply elem_of_nil in Hin | reflexivity].
  - cbn [fold_left]. rewrite IH.
    destruct (decide (id = x)) as [->|Hne].
    + rewrite lookup_insert_eq.
      rewrite (bool_decide_eq_true_2 (x ∈ x :: ids)) by apply list_elem_of_here.
      by case_bool_decide.
    + rewrite lookup_insert_ne by done.
      destruct (decide (id ∈ ids)) as [Hin|Hin].
      * rewrite (bool_decide_eq_true_2 _ Hin).
        rewrite bool_decide_eq_true_2 by (apply list_elem_of_further; exact Hin).
        reflexivity.
      * rewrite (bool_decide_eq_false_2 _ Hin).
        rewrite bool_decide_eq_false_2
          by (intros [?|?]%elem_of_cons; [congruence | contradiction]).
        reflexivity.
Qed.

Lemma step_holding_lookup (item : Holdings.Holding) (h : Holdings.IssnHolding) (id : string) :
  Holdings.assign item (Holdings.assign item h (Holdings.EISSN item)) (Holdings.PISSN item) !! id
  = if bool_decide (id ∈ Holdings.issns item) then Some item else h !! id.
Proof.
  rewrite !assign_lookup. unfold Holdings.issns.
  destruct (decide (id ∈ Holdings.PISSN item)) as [Hp|Hp].
  - rewrite (bool_decide_eq_true_2 _ Hp).
    rewrite bool_decide_eq_true_2 by (apply elem_of_app; right; exact Hp).
    reflexivity.
  - rewrite (bool_decide_eq_false_2 _ Hp).
    destruct (decide (id ∈ Holdings.EISSN item)) as [He|He].
    + rewrite (bool_decide_eq_true_2 _ He).
      rewrite bool_decide_eq_true_2 by (apply elem_of_app; left; exact He).
      reflexivity.
    + rewrite (bool_decide_eq_false_2 _ He).
      rewrite bool_decide_eq_false_2
        by (intros [?|?]%elem_of_app; contradiction).
      reflexivity.
Qed.

Lemma fold_step_lookup (tokens : list Holdings.Token) (h : Holdings.IssnHolding) (id : string) :
  fold_left Holdings.step tokens h !! id
  = match last (filter (fun item => id ∈ Holdings.issns item) (Holdings.holdings tokens)) with
    | Some item => Some item
    | None => h !! id
    end.
Proof.
  revert h. induction tokens as [|t tokens IH]; intros h; [reflexivity |].
  cbn [fold_left]. rewrite IH. unfold Holdings.holdings. cbn [omap list_omap].
  destruct t as [tag item|]; cbn [Holdings.step]; [|reflexivity].
  destruct (String.eqb tag "holding"); [|reflexivity].
  rewrite step_holding_lookup, filter_cons.
  destruct (decide (id ∈ Holdings.issns item)) as [Hin|Hin].
  - rewrite bool_decide_eq_true_2 by done. rewrite last_cons.
    destruct (last _); reflexivity.
  - rewrite bool_decide_eq_false_2 by done. reflexivity.
Qed.

(** C10. The map [HoldingsMap] returns holds, under each ISSN, the last
    holding element of the document that lists it among its e-ISSNs or
    p-ISSNs, and nothing under any other key: every listed ISSN is a key,
    a later element overwrites an earlier one, and the value found under
    an ISSN is an element that lists it. *)
Theorem HoldingsMap_last_write_wins (tokens : list Holdings.Token) (id : string) :
  Holdings.HoldingsMap tokens !! id
  = last (filter (fun item => id ∈ Holdings.issns item) (Holdings.holdings tokens))
  ∧ (is_Some (Holdings.HoldingsMap tokens !! id)
     ↔ ∃ item, item ∈ Holdings.holdings tokens ∧ id ∈ Holdings.issns item)
  ∧ (∀ before item after,
       Holdings.holdings tokens = before ++ item :: after →
       id ∈ Holdings.issns item →
       Forall (fun later => id ∉ Holdings.issns later) after →
       Holdings.HoldingsMap tokens !! id = Some item).
Proof.
  assert (Hlookup : Holdings.HoldingsMap tokens !! id
    = last (filter (fun item => id ∈ Holdings.issns item) (Holdings.holdings tokens))).
  { unfold Holdings.HoldingsMap. rewrite fold_step_lookup, lookup_empty.
    destruct (last _); reflexivity. }
  split; [exact Hlookup | split].
  - rewrite Hlookup. split.
    + intros [item Hitem]. exists item.
      apply last_Some_elem_of in Hitem. apply list_elem_of_filter in Hitem. tauto.
    + intros (item & Hin & Hid).
      assert (Hf : item ∈ filter (fun item => id ∈ Holdings.issns item) (Holdings.holdings tokens))
        by (apply list_elem_of_filter; auto).
      destruct (filter _ _) as [|x l _] using rev_ind.
      * by apply elem_of_nil in Hf.
      * rewrite last_snoc. eauto.
  - intros before item after Heq Hid Hafter. rewrite Hlookup, Heq.
    rewrite filter_app, filter_cons_True by done.
    replace (filter (fun item0 => id ∈ Holdings.issns item0) after) with (@nil Holdings.Holding).
    + rewrite last_snoc. reflexivity.
    + symmetry. clear Heq. induction Hafter as [|x l Hx _ IH]; [reflexivity |].
      rewrite filter_cons_False by done. exact IH.
Qed.

Lemma HoldingsMap_last_write_wins_witness :
  Holdings.HoldingsMap twoHoldings !! "1610-2940" = Some holdingB.
Proof.
  apply (proj2 (proj2 (HoldingsMap_last_write_wins twoHoldings "1610-2940"))
           [holdingA] holdingB []).
  - reflexivity.
  - apply (bool_decide_unpack _). vm_compute. exact I.
  - constructor.
Defined.

(** C1. On the entitlement of [TestDelay] whose begin delay is [-1M] and
    whose end delay is [-2M], two delays that parse to different
    durations, [Entitlement.Delay] returns the begin delay of 720 hours
    together with a nil error: the end delay is never looked at. *)
Theorem Delay_mismatch_not_reported :
  Holdings.ParseDelay (Holdings.FromDelay mismatched) = ((- (720 * Time.Hour))%Z, None)
  ∧ Holdings.ParseDelay (Holdings.ToDelay mismatched) = ((- (1440 * Time.Hour))%Z, None)
  ∧ Holdings.Delay mismatched = ((- (720 * Time.Hour))%Z, None).
Proof. repeat split; vm_compute; reflexivity. Qed.

(** ** ISSN *)

Lemma digitsN_spec (n : nat) (s r : string) :
  Span.digitsN n s = Some r
  ↔ ∃ d, s = d +:+ r ∧ String.length d = n ∧ GoStrings.all Byte.isDigit d = true.
Proof.
  revert s. induction n as [|n IH]; intros s; simpl.
  - split.
    + intros [= ->]. exists EmptyString. auto.
    + intros (d & -> & Hlen & _). destruct d; [reflexivity | discriminate].
  - destruct s as [|c s].
    + split; [discriminate |].
      intros (d & Hs & Hlen & _). destruct d; discriminate.
    + destruct (Byte.isDigit c) eqn:Hc.
      * rewrite IH. split.
        -- intros (d & -> & Hlen & Hd). exists (String c d).
           rewrite append_cons. simpl. rewrite Hc, Hd, Hlen. auto.
        -- intros (d & Hs & Hlen & Hd). destruct d as [|c' d]; [discriminate |].
           rewrite append_cons in Hs. injection Hs as -> ->.
           simpl in Hd, Hlen. apply andb_true_iff in Hd as [_ Hd].
           exists d. auto.
      * split; [discriminate |].
        intros (d & Hs & Hlen & Hd). destruct d as [|c' d]; [discriminate |].
        rewrite append_cons in Hs. injection Hs as -> ->.
        simpl in Hd. rewrite Hc in Hd. discriminate.
Qed.

Lemma pattern_Match_spec (t : string) :
  Span.pattern_Match t = true ↔ wellFormedISSN t.
Proof.
  unfold Span.pattern_Match, wellFormedISSN. split.
  - destruct (Span.digitsN 7 t) as [r|] eqn:E; [|discriminate].
    destruct r as [|c [|? ?]]; try discriminate.
    intros Hc. apply digitsN_spec in E as (d & -> & Hlen & Hd).
    exists d, c. repeat split; try assumption.
    apply orb_true_iff in Hc as [Hc|Hc]; [left; exact Hc | right].
    apply Ascii.eqb_eq in Hc. congruence.
  - intros (d & c & -> & Hlen & Hd & Hc).
    assert (E : Span.digitsN 7 (d +:+ String c EmptyString) = Some (String c EmptyString))
      by (apply digitsN_spec; eauto).
    rewrite E. destruct Hc as [Hc| ->]; [rewrite Hc; reflexivity |].
    apply orb_true_r.
Qed.

Lemma wellFormedISSN_length (t : string) : wellFormedISSN t → String.length t = 8%nat.
Proof.
  intros (d & c & -> & Hlen & _). rewrite length_append, Hlen. reflexivity.
Qed.

(** C9. [Validate] returns nil exactly when the normal form of its
    argument (hyphens and spaces removed, upper-cased, white space
    trimmed) is seven digits followed by a digit or [X], and
    [ErrInvalidISSN] otherwise.  The check character is not verified:
    [1234-5678] validates although the check character of [1234567] is
    [9]. *)
Theorem Validate_is_syntactic :
  (∀ s, Span.Validate s = None ↔ wellFormedISSN (Span.normalize s))
  ∧ (∀ s, Span.Validate s ≠ None → Span.Validate s = Some Span.ErrInvalidISSN)
  ∧ Span.Validate "1234-5678" = None
  ∧ issnCheckChar "1234567" = "9"%char.
Proof.
  split; [|split; [|split; vm_compute; reflexivity]].
  - intros s. unfold Span.Validate. split.
    + destruct (String.length (Span.normalize s) =? 8)%nat; [|discriminate].
      destruct (Span.pattern_Match (Span.normalize s)) eqn:E; [|discriminate].
      intros _. apply pattern_Match_spec. exact E.
    + intros Hw. rewrite (wellFormedISSN_length _ Hw).
      apply pattern_Match_spec in Hw. rewrite Hw. reflexivity.
  - intros s. unfold Span.Validate.
    destruct (String.length (Span.normalize s) =? 8)%nat; simpl; [|reflexivity].
    destruct (Span.pattern_Match (Span.normalize s)); simpl; [congruence | reflexivity].
Qed.

Lemma Validate_is_syntactic_witness :
  Span.Validate " 0378-595x " = None
  ∧ Span.Validate "0378-59" = Some Span.ErrInvalidISSN.
Proof.
  split.
  - apply (proj1 Validate_is_syntactic " 0378-595x ").
    exists "0378595", "X"%char. vm_compute. auto.
  - apply (proj1 (proj2 Validate_is_syntactic) "0378-59"). vm_compute. discriminate.
Defined.

(** ** Batching *)

Lemma itemCount_app {A : Type} (x y : list (list A)) :
  itemCount (x ++ y) = (itemCount x + itemCount y)%Z.
Proof.
  induction x as [|b x IH]; simpl; [reflexivity |].
  fold (itemCount (x ++ y)). fold (itemCount x). rewrite IH. lia.
Qed.

Lemma itemCount_concat {A : Type} (x : list (list A)) :
  itemCount x = Z.of_nat (length (concat x)).
Proof.
  induction x as [|b x IH]; simpl; [reflexivity |].
  fold (itemCount x). rewrite IH, length_app. lia.
Qed.

Lemma itemCount_full {A : Type} (B : Z) (fulls : list (list A)) :
  Forall (fun b => Z.of_nat (length b) = B) fulls →
  itemCount fulls = (Z.of_nat (length fulls) * B)%Z.
Proof.
  induction 1 as [|b fulls Hb _ IH]; simpl; [reflexivity |].
  fold (itemCount fulls). rewrite IH, Hb. lia.
Qed.

(** What the shape says in numbers. *)
Lemma batched_counts {A : Type} (B : Z) (all : list A) (sent : list (list A)) :
  (0 < B)%Z → batched B all sent →
  let N := Z.of_nat (length all) in
  concat sent = all
  ∧ itemCount sent = N
  ∧ Z.of_nat (length sent) = (N / B + 1)%Z
  ∧ (∀ k b, sent !! k = Some b →
       Z.of_nat (length b) = if (Z.of_nat k <? N / B)%Z then B else (N mod B)%Z).
Proof.
  intros HB (fulls & rest & -> & Hfull & Hrest & Hall) N.
  assert (Hcat : concat (fulls ++ [rest]) = all).
  { rewrite concat_app. simpl. rewrite app_nil_r. exact Hall. }
  assert (HN : N = (Z.of_nat (length fulls) * B + Z.of_nat (length rest))%Z).
  { unfold N. rewrite <- Hall, length_app, Nat2Z.inj_add, <- itemCount_concat,
      (itemCount_full B) by assumption. lia. }
  assert (Hdiv : (N / B = Z.of_nat (length fulls))%Z).
  { symmetry. apply (Z.div_unique_pos N B _ (Z.of_nat (length rest))); lia. }
  assert (Hmod : (N mod B = Z.of_nat (length rest))%Z).
  { symmetry. apply (Z.mod_unique_pos N B (Z.of_nat (length fulls))); lia. }
  repeat split.
  - exact Hcat.
  - rewrite itemCount_concat, Hcat. reflexivity.
  - rewrite length_app. simpl. lia.
  - intros k b Hk. rewrite Hdiv, Hmod.
    destruct (decide (k < length fulls)%nat) as [Hlt|Hge].
    + rewrite lookup_app_l in Hk by exact Hlt.
      rewrite (proj2 (Z.ltb_lt _ _)) by lia.
      rewrite Forall_lookup in Hfull. exact (Hfull k b Hk).
    + rewrite lookup_app_r in Hk by lia.
      rewrite (proj2 (Z.ltb_ge _ _)) by lia.
      destruct (k - length fulls)%nat; simpl in Hk; [congruence | discriminate].
Qed.

Lemma crossref_loop_batched (B : Z) (reads : list Crossref.Read) :
  (0 < B)%Z → readable reads = true →
  ∀ (Items : list string) (ch : list Crossref.Batch),
    (Z.of_nat (length Items) < B)%Z →
    ∃ fulls rest,
      Crossref.loop B reads Items (Z.of_nat (length Items) + 1) ch
      = {| Crossref.sent := ch ++ fulls ++ [rest]; Crossref.fatal := false |}
      ∧ Forall (fun b => Z.of_nat (length b) = B) fulls
      ∧ (Z.of_nat (length rest) < B)%Z
      ∧ concat fulls ++ rest = Items ++ lines reads.
Proof.
  intros HB. induction reads as [|r reads IH]; intros Hread Items ch HItems.
  - exists [], Items. simpl. rewrite app_nil_r. auto.
  - destruct r as [line|]; [|discriminate]. simpl in Hread.
    cbn [Crossref.loop].
    destruct (Z.eqb_spec (Z.of_nat (length Items) + 1) B) as [Heq|Hne].
    + destruct (IH Hread [] (ch ++ [Items ++ [line]])) as (fulls & rest & Hloop & Hf & Hr & Hc).
      { simpl. lia. }
      exists ((Items ++ [line]) :: fulls), rest. repeat split.
      * rewrite <- app_assoc in Hloop. exact Hloop.
      * constructor; [rewrite length_app; simpl; lia | exact Hf].
      * exact Hr.
      * simpl. rewrite <- !app_assoc, Hc. reflexivity.
    + destruct (IH Hread (Items ++ [line]) ch) as (fulls & rest & Hloop & Hf & Hr & Hc).
      { rewrite length_app. simpl. lia. }
      exists fulls, rest. repeat split; try assumption.
      * rewrite <- Hloop. f_equal. rewrite length_app. simpl. lia.
      * rewrite Hc, <- app_assoc. reflexivity.
Qed.

Lemma crossref_batched (B : Z) (reads : list Crossref.Read) :
  (0 < B)%Z → readable reads = true →
  Crossref.fatal (Crossref.IterateWith B reads) = false
  ∧ batched B (lines reads) (Crossref.sent (Crossref.IterateWith B reads)).
Proof.
  intros HB Hread.
  destruct (crossref_loop_batched B reads HB Hread [] []) as (fulls & rest & Hloop & H);
    [simpl; lia |].
  unfold Crossref.IterateWith.
  change (Crossref.loop B reads [] 1 []) with
    (Crossref.loop B reads [] (Z.of_nat (length (@nil string)) + 1) []).
  rewrite Hloop. split; [reflexivity |].
  exists fulls, rest. auto.
Qed.

Lemma genios_loop_batched (B : Z) (tokens : list GeniosLegacy.Token) :
  (0 < B)%Z → GeniosLegacy.decodes tokens = true →
  ∀ (docs : list GeniosLegacy.Document) (ch : list GeniosLegacy.Batch),
    (Z.of_nat (length docs) < B)%Z →
    ∃ fulls rest,
      GeniosLegacy.loop B tokens docs (Z.of_nat (length docs)) ch
      = {| GeniosLegacy.sent := ch ++ fulls ++ [rest]; GeniosLegacy.fatal := false |}
      ∧ Forall (fun b => Z.of_nat (length b) = B) fulls
      ∧ (Z.of_nat (length rest) < B)%Z
      ∧ concat fulls ++ rest = docs ++ GeniosLegacy.documents tokens.
Proof.
  intros HB. induction tokens as [|t tokens IH]; intros Hdec docs ch Hdocs.
  - exists [], docs. simpl. rewrite app_nil_r. auto.
  - simpl in Hdec. apply andb_true_iff in Hdec as [Ht Hdec].
    cbn [GeniosLegacy.loop]. unfold GeniosLegacy.documents. cbn [omap list_omap].
    fold (GeniosLegacy.documents tokens).
    destruct t as [local [doc|]|].
    + destruct (String.eqb local "Document"); [|exact (IH Hdec docs ch Hdocs)].
      unfold GeniosLegacy.NewBatch.
      destruct (Z.eqb_spec (Z.of_nat (length docs) + 1) B) as [Heq|Hne].
      * destruct (IH Hdec [] (ch ++ [docs ++ [doc]])) as (fulls & rest & Hloop & Hf & Hr & Hc).
        { simpl. lia. }
        exists ((docs ++ [doc]) :: fulls), rest. repeat split.
        -- rewrite <- app_assoc in Hloop. exact Hloop.
        -- constructor; [rewrite length_app; simpl; lia | exact Hf].
        -- exact Hr.
        -- simpl. rewrite <- !app_assoc, Hc. reflexivity.
      * destruct (IH Hdec (docs ++ [doc]) ch) as (fulls & rest & Hloop & Hf & Hr & Hc).
        { rewrite length_app. simpl. lia. }
        exists fulls, rest. repeat split; try assumption.
        -- rewrite <- Hloop. f_equal. rewrite length_app. simpl. lia.
        -- rewrite Hc, <- app_assoc. reflexivity.
    + destruct (String.eqb local "Document"); [discriminate |].
      exact (IH Hdec docs ch Hdocs).
    + exact (IH Hdec docs ch Hdocs).
Qed.

Lemma genios_batched (B : Z) (tokens : list GeniosLegacy.Token) :
  (0 < B)%Z → GeniosLegacy.decodes tokens = true →
  GeniosLegacy.fatal (GeniosLegacy.IterateWith B tokens) = false
  ∧ batched B (GeniosLegacy.documents tokens)
      (GeniosLegacy.sent (GeniosLegacy.IterateWith B tokens)).
Proof.
  intros HB Hdec.
  destruct (genios_loop_batched B tokens HB Hdec [] []) as (fulls & rest & Hloop & H);
    [simpl; lia |].
  unfold GeniosLegacy.IterateWith.
  change (GeniosLegacy.loop B tokens [] 0 []) with
    (GeniosLegacy.loop B tokens [] (Z.of_nat (length (@nil GeniosLegacy.Document))) []).
  rewrite Hloop. split; [reflexivity |].
  exists fulls, rest. auto.
Qed.


(** C2, as the code has it.  For a batch size [B > 0] and a stream of [N]
    records that can all be read, both iterators send [N / B + 1] batches
    (rounded down, plus one) and close the channel: the first [N / B]
    batches hold [B] records each, the last one holds the [N mod B]
    records left over, which are none when [N] is a multiple of [B]; the
    batches, put end to end, are the records in order, so that their
    counts sum to [N]. *)
Theorem Iterate_batch_counts (B : Z) :
  (0 < B)%Z →
  (∀ reads, readable reads = true →
     let out := Crossref.IterateWith B reads in
     let N := Z.of_nat (length (lines reads)) in
     Crossref.fatal out = false
     ∧ concat (Crossref.sent out) = lines reads
     ∧ itemCount (Crossref.sent out) = N
     ∧ Z.of_nat (length (Crossref.sent out)) = (N / B + 1)%Z
     ∧ (∀ k b, Crossref.sent out !! k = Some b →
          Z.of_nat (length b) = if (Z.of_nat k <? N / B)%Z then B else (N mod B)%Z))
  ∧ (∀ tokens, GeniosLegacy.decodes tokens = true →
     let out := GeniosLegacy.IterateWith B tokens in
     let N := Z.of_nat (length (GeniosLegacy.documents tokens)) in
     GeniosLegacy.fatal out = false
     ∧ concat (GeniosLegacy.sent out) = GeniosLegacy.documents tokens
     ∧ itemCount (GeniosLegacy.sent out) = N
     ∧ Z.of_nat (length (GeniosLegacy.sent out)) = (N / B + 1)%Z
     ∧ (∀ k b, GeniosLegacy.sent out !! k = Some b →
          Z.of_nat (length b) = if (Z.of_nat k <? N / B)%Z then B else (N mod B)%Z)).
Proof.
  intros HB. split.
  - intros reads Hread out N.
    destruct (crossref_batched B reads HB Hread) as [Hfatal Hb].
    split; [exact Hfatal |]. exact (batched_counts B _ _ HB Hb).
  - intros tokens Hdec out N.
    destruct (genios_batched B tokens HB Hdec) as [Hfatal Hb].
    split; [exact Hfatal |]. exact (batched_counts B _ _ HB Hb).
Qed.

Lemma Iterate_batch_counts_witness :
  Z.of_nat (length (Crossref.sent (Crossref.Iterate
     [Crossref.Line "a"; Crossref.Line "b"; Crossref.Line "c"]))) = 1%Z
  ∧ Z.of_nat (length (GeniosLegacy.sent (GeniosLegacy.IterateWith 2
     [GeniosLegacy.OtherToken]))) = 1%Z.
Proof.
  split.
  - apply (proj1 (Iterate_batch_counts Crossref.BatchSize ltac:(reflexivity))
             [Crossref.Line "a"; Crossref.Line "b"; Crossref.Line "c"] eq_refl).
  - apply (proj2 (Iterate_batch_counts 2 ltac:(lia)) [GeniosLegacy.OtherToken] eq_refl).
Defined.

(** The claim C2 as stated fails on the empty stream, where one batch is
    sent and [ceil(0 / B)] is zero, and on a stream of [B] records, where
    two batches are sent, the last one with no record instead of [B]. *)
Lemma Iterate_not_ceil_batches :
  Z.of_nat (length (Crossref.sent (Crossref.Iterate [])))
  ≠ ceilDiv (Z.of_nat (length (lines []))) Crossref.BatchSize
  ∧ Crossref.sent (Crossref.Iterate []) = [[]]
  ∧ ceilDiv (Z.of_nat (length (lines []))) Crossref.BatchSize = 0%Z
  ∧ Crossref.sent (Crossref.IterateWith 2 [Crossref.Line "a"; Crossref.Line "b"])
    = [["a"; "b"]; []]
  ∧ ceilDiv 2 2 = 1%Z
  ∧ GeniosLegacy.sent (GeniosLegacy.Iterate []) = [[]]
  ∧ ceilDiv 0 GeniosLegacy.batchSize = 0%Z.
Proof. split; [vm_compute; discriminate |]. repeat split; vm_compute; reflexivity. Qed.




(** ** Decimal numerals: [strconv.Atoi] and [%d] *)

Lemma digitVal_range (c : ascii) :
  Byte.isDigit c = true → (0 <= Byte.digitVal c <= 9)%Z.
Proof.
  unfold Byte.isDigit, Byte.digitVal. intros H.
  apply andb_true_iff in H as [H1 H2].
  apply N.leb_le in H1. apply N.leb_le in H2. lia.
Qed.

Lemma isDigit19_isDigit (c : ascii) : Byte.isDigit19 c = true → Byte.isDigit c = true.
Proof.
  unfold Byte.isDigit19, Byte.isDigit. intros H.
  apply andb_true_iff in H as [H1 H2].
  apply N.leb_le in H1. apply andb_true_iff. split; [apply N.leb_le; lia | exact H2].
Qed.

Lemma digitVal19_range (c : ascii) :
  Byte.isDigit19 c = true → (1 <= Byte.digitVal c <= 9)%Z.
Proof.
  unfold Byte.isDigit19, Byte.digitVal. intros H.
  apply andb_true_iff in H as [H1 H2].
  apply N.leb_le in H1. apply N.leb_le in H2. lia.
Qed.

Lemma isDigit_not_sign (c : ascii) :
  Byte.isDigit c = true → Byte.eqb c "+" = false ∧ Byte.eqb c "-" = false.
Proof.
  intros H. split; apply Ascii.eqb_neq; intros ->; vm_compute in H; discriminate.
Qed.

Lemma digitChar_spec (d : Z) :
  (0 <= d <= 9)%Z →
  Byte.isDigit (Byte.digitChar d) = true ∧ Byte.digitVal (Byte.digitChar d) = d.
Proof.
  intros H.
  assert (Hd : (d = 0 ∨ d = 1 ∨ d = 2 ∨ d = 3 ∨ d = 4 ∨ d = 5 ∨ d = 6 ∨ d = 7
               ∨ d = 8 ∨ d = 9)%Z) by lia.
  repeat (destruct Hd as [-> | Hd]; [split; reflexivity |]).
  subst d. split; reflexivity.
Qed.

Lemma decimalFrom_ge (ds : string) (n : Z) :
  GoStrings.all Byte.isDigit ds = true → (0 <= n)%Z → (n <= decimalFrom n ds)%Z.
Proof.
  revert n. induction ds as [|c r IH]; intros n Hds Hn; simpl; [lia |].
  simpl in Hds. apply andb_true_iff in Hds as [Hc Hr].
  pose proof (digitVal_range c Hc).
  specialize (IH (n * 10 + Byte.digitVal c)%Z Hr). lia.
Qed.

Lemma parseUintLoop_digits (ds : string) (n : Z) :
  GoStrings.all Byte.isDigit ds = true → (0 <= n <= Strconv.maxUint64)%Z →
  Strconv.parseUintLoop n ds
  = if (decimalFrom n ds <=? Strconv.maxUint64)%Z then (decimalFrom n ds, None)
    else (Strconv.maxUint64, Some Strconv.ErrRange).
Proof.
  revert n. induction ds as [|c r IH]; intros n Hds Hn.
  - simpl. rewrite (proj2 (Z.leb_le _ _)) by lia. reflexivity.
  - simpl in Hds. apply andb_true_iff in Hds as [Hc Hr].
    pose proof (digitVal_range c Hc) as Hd.
    cbn [Strconv.parseUintLoop decimalFrom]. rewrite Hc. cbn [negb].
    pose proof (decimalFrom_ge r (n * 10 + Byte.digitVal c)%Z Hr ltac:(lia)) as Hge.
    assert (Hcut : (Strconv.maxUint64 / 10 + 1 = 1844674407370955162)%Z) by reflexivity.
    assert (Hmax : (Strconv.maxUint64 = 18446744073709551615)%Z) by reflexivity.
    rewrite Hcut.
    destruct (Z.geb_spec n 1844674407370955162) as [Hbig|Hsmall].
    + rewrite (proj2 (Z.leb_gt _ _)) by lia. reflexivity.
    + destruct (Z.gtb_spec (n * 10 + Byte.digitVal c) Strconv.maxUint64) as [Hover|Hfit].
      * rewrite (proj2 (Z.leb_gt _ _)) by lia. reflexivity.
      * apply IH; [exact Hr | lia].
Qed.

(** [Atoi] on a string of digits: the decimal value if it fits [int64],
    a range error and the largest [int64] otherwise. *)
Lemma Atoi_digits (ds : string) :
  isDigits ds →
  Strconv.Atoi ds
  = if (decimal ds <? 2 ^ 63)%Z then (decimal ds, None)
    else (Strconv.maxInt64, Some Strconv.ErrRange).
Proof.
  intros [Hne Hds]. destruct ds as [|c r]; [congruence |].
  pose proof Hds as Hall. simpl in Hds. apply andb_true_iff in Hds as [Hc Hr].
  destruct (isDigit_not_sign c Hc) as [Hplus Hminus].
  unfold Strconv.Atoi. rewrite Hplus, Hminus.
  unfold Strconv.ParseUint.
  rewrite (parseUintLoop_digits (String c r) 0 Hall) by (vm_compute; split; discriminate).
  fold (decimal (String c r)).
  assert (Hmax : (Strconv.maxUint64 = 18446744073709551615)%Z) by reflexivity.
  assert (H63 : (2 ^ 63 = 9223372036854775808)%Z) by reflexivity.
  rewrite H63.
  destruct (Z.leb_spec (decimal (String c r)) Strconv.maxUint64) as [Hfit|Hover].
  - cbn [negb andb].
    destruct (Z.geb_spec (decimal (String c r)) 9223372036854775808) as [Hbig|Hsmall].
    + rewrite (proj2 (Z.ltb_ge _ _)) by lia. reflexivity.
    + rewrite (proj2 (Z.ltb_lt _ _)) by lia. reflexivity.
  - cbn [negb andb]. rewrite Hmax. cbn [Z.geb Z.compare Pos.compare Pos.compare_cont].
    rewrite (proj2 (Z.ltb_ge _ _)) by lia. reflexivity.
Qed.

Lemma Atoi_digits_clamped (ds : string) :
  isDigits ds → fst (Strconv.Atoi ds) = clamped ds.
Proof.
  intros H. rewrite (Atoi_digits ds H). unfold clamped.
  assert (Hmax : (Strconv.maxInt64 = 9223372036854775807)%Z) by reflexivity.
  assert (H63 : (2 ^ 63 = 9223372036854775808)%Z) by reflexivity.
  rewrite H63, Hmax.
  destruct (Z.ltb_spec (decimal ds) 9223372036854775808); simpl; lia.
Qed.

Lemma utoaFuel_append (fuel : nat) (n : Z) (acc rest : string) :
  Strconv.utoaFuel fuel n acc +:+ rest = Strconv.utoaFuel fuel n (acc +:+ rest).
Proof.
  revert n acc. induction fuel as [|fuel IH]; intros n acc; [reflexivity |].
  cbn [Strconv.utoaFuel]. destruct (n <? 10)%Z; [reflexivity |].
  rewrite IH. reflexivity.
Qed.

Lemma utoaFuel_head (fuel : nat) (n : Z) (acc : string) :
  (0 <= n)%Z →
  ∃ c r, Strconv.utoaFuel (S fuel) n acc = String c r ∧ Byte.isDigit c = true.
Proof.
  revert n acc. induction fuel as [|fuel IH]; intros n acc Hn.
  - cbn [Strconv.utoaFuel].
    destruct (digitChar_spec (n mod 10)) as [Hd _];
      [pose proof (Z.mod_pos_bound n 10); lia |].
    destruct (n <? 10)%Z; eauto.
  - change (Strconv.utoaFuel (S (S fuel)) n acc) with
      (let acc' := String (Byte.digitChar (n mod 10)) acc in
       if (n <? 10)%Z then acc' else Strconv.utoaFuel (S fuel) (n / 10) acc').
    cbv zeta.
    destruct (digitChar_spec (n mod 10)) as [Hd _];
      [pose proof (Z.mod_pos_bound n 10); lia |].
    destruct (n <? 10)%Z; [eauto |].
    apply IH. apply Z.div_pos; lia.
Qed.

Lemma utoa_head (n : Z) :
  (0 <= n)%Z → ∃ c r, Strconv.utoa n = String c r ∧ Byte.isDigit c = true.
Proof. intros Hn. apply utoaFuel_head. exact Hn. Qed.

Lemma FormatInt_nonempty (n : Z) : Strconv.FormatInt n ≠ EmptyString.
Proof.
  unfold Strconv.FormatInt. destruct (n <? 0)%Z eqn:E; [discriminate |].
  apply Z.ltb_ge in E. destruct (utoa_head n E) as (c & r & -> & _). discriminate.
Qed.

Lemma wrap64_small (z : Z) :
  (- 2 ^ 63 <= z < 2 ^ 63)%Z → Strconv.wrap64 z = z.
Proof.
  intros H. unfold Strconv.wrap64.
  assert (H63 : (2 ^ 63 = 9223372036854775808)%Z) by reflexivity.
  assert (H64 : (2 ^ 64 = 18446744073709551616)%Z) by reflexivity.
  rewrite H63, H64 in *. rewrite Z.mod_small; lia.
Qed.

Lemma isNumeral_isDigits (x : string) : isNumeral x → isDigits x.
Proof.
  intros (c & ds & -> & Hc & Hds). split; [discriminate |].
  simpl. rewrite (isDigit19_isDigit c Hc), Hds. reflexivity.
Qed.

Lemma clamped_range (x : string) :
  isDigits x → (0 <= clamped x <= Strconv.maxInt64)%Z.
Proof.
  intros [_ Hx]. unfold clamped.
  pose proof (decimalFrom_ge x 0 Hx ltac:(lia)) as H. fold (decimal x) in H.
  assert (Hmax : (Strconv.maxInt64 = 9223372036854775807)%Z) by reflexivity.
  lia.
Qed.

(** ** Page ranges *)

Lemma pagesAt_sound (s a b : string) :
  Genderopen.pagesAt s = Some (a, b) →
  ∃ post, s = a +:+ String "-" (b +:+ post) ∧ isNumeral a ∧ isNumeral b
          ∧ noDigitHead post.
Proof.
  unfold Genderopen.pagesAt. destruct s as [|c r]; [discriminate |].
  destruct (Byte.isDigit19 c) eqn:Hc; [|discriminate].
  pose proof (span_spec Byte.isDigit r) as Hspan.
  destruct (GoStrings.span Byte.isDigit r) as [d1 r1].
  destruct Hspan as (-> & Hd1 & _).
  destruct r1 as [|m [|c2 r2]]; try discriminate.
  destruct (Byte.eqb m "-") eqn:Hm; [|discriminate].
  destruct (Byte.isDigit19 c2) eqn:Hc2; [|discriminate].
  cbn [andb].
  pose proof (span_spec Byte.isDigit r2) as Hspan.
  destruct (GoStrings.span Byte.isDigit r2) as [d2 post].
  destruct Hspan as (-> & Hd2 & Hpost).
  intros [= <- <-]. apply Ascii.eqb_eq in Hm as ->.
  exists post. repeat split.
  - exists c, d1. auto.
  - exists c2, d2. auto.
  - exact Hpost.
Qed.

Lemma pagesAt_complete (a b post : string) :
  isNumeral a → isNumeral b →
  Genderopen.pagesAt (a +:+ String "-" (b +:+ post)) ≠ None.
Proof.
  intros (c & ds & -> & Hc & Hds) (c2 & ds2 & -> & Hc2 & Hds2).
  rewrite !append_cons. unfold Genderopen.pagesAt. rewrite Hc.
  rewrite (span_append Byte.isDigit ds _ Hds) by reflexivity.
  cbn [Byte.eqb]. rewrite Ascii.eqb_refl, Hc2. cbn [andb].
  destruct (GoStrings.span Byte.isDigit (ds2 +:+ post)). discriminate.
Qed.

Lemma occurrence_cons (c : ascii) (r pre a b post : string) :
  pageOccurrence (String c r) pre a b post →
  (pre = EmptyString ∧ String c r = a +:+ String "-" (b +:+ post))
  ∨ (∃ pre', pre = String c pre' ∧ pageOccurrence r pre' a b post).
Proof.
  intros (Hs & Ha & Hb). destruct pre as [|c' pre'].
  - left. auto.
  - right. rewrite append_cons in Hs. injection Hs as -> ->.
    exists pre'. repeat split; auto.
Qed.

Lemma find_pages_spec (s : string) :
  (Genderopen.pagesPattern_FindStringSubmatch s = []
   ∧ ∀ pre a b post, ¬ pageOccurrence s pre a b post)
  ∨ (∃ pre a b post,
       Genderopen.pagesPattern_FindStringSubmatch s = [a +:+ "-" +:+ b; a; b]
       ∧ pageOccurrence s pre a b post
       ∧ noDigitHead post
       ∧ ∀ pre' a' b' post',
           pageOccurrence s pre' a' b' post' →
           (String.length pre <= String.length pre')%nat).
Proof.
  induction s as [|c r IH].
  - left. split; [reflexivity |].
    intros pre a b post (Hs & (ca & da & -> & _) & _).
    destruct pre; discriminate.
  - cbn [Genderopen.pagesPattern_FindStringSubmatch].
    destruct (Genderopen.pagesAt (String c r)) as [[a b]|] eqn:Hat.
    + right. destruct (pagesAt_sound _ _ _ Hat) as (post & Hs & Ha & Hb & Hpost).
      exists EmptyString, a, b, post. repeat split; auto.
      intros. simpl. lia.
    + destruct IH as [[Hnil Hnone] | (pre & a & b & post & Hfind & Hocc & Hpost & Hleft)].
      * left. split; [exact Hnil |].
        intros pre a b post Hocc.
        destruct (occurrence_cons _ _ _ _ _ _ Hocc) as [[-> Hs] | (pre' & -> & Hocc')].
        -- destruct Hocc as (_ & Ha & Hb).
           apply (pagesAt_complete a b post Ha Hb). rewrite <- Hs. exact Hat.
        -- exact (Hnone _ _ _ _ Hocc').
      * right. exists (String c pre), a, b, post. repeat split; auto.
        -- destruct Hocc as (-> & _). reflexivity.
        -- destruct Hocc as (_ & Ha & _). exact Ha.
        -- destruct Hocc as (_ & _ & Hb). exact Hb.
        -- intros pre' a' b' post' Hocc'.
           destruct (occurrence_cons _ _ _ _ _ _ Hocc') as [[-> Hs] | (pre'' & -> & Hocc'')].
           ++ exfalso. destruct Hocc' as (_ & Ha' & Hb').
              apply (pagesAt_complete a' b' post' Ha' Hb'). rewrite <- Hs. exact Hat.
           ++ specialize (Hleft _ _ _ _ Hocc''). simpl. lia.
Qed.

(** C4, as the code has it.  [parsePages] leaves its three results empty
    exactly when the string has no occurrence of two positive numerals
    joined by a dash.  Otherwise the results are never partially filled:
    start and end are the two numerals of the leftmost occurrence, the
    end taken with all the digits that follow, and the count is the
    decimal of end minus start, whatever its sign ([73-100] gives 27,
    [100-73] gives -27).  Crossref's page fields are printed with [%d]
    and so are never empty: a number that was not parsed shows as 0, and
    the count is the difference only if it is positive. *)
Theorem parsePages_leftmost_occurrence :
  (∀ s, Genderopen.parsePages s = (EmptyString, EmptyString, EmptyString)
        ↔ ¬ ∃ pre a b post, pageOccurrence s pre a b post)
  ∧ (∀ s start end_ total,
       Genderopen.parsePages s = (start, end_, total) →
       (∃ pre a b post, pageOccurrence s pre a b post) →
       ∃ pre post,
         pageOccurrence s pre start end_ post
         ∧ noDigitHead post
         ∧ (∀ pre' a' b' post', pageOccurrence s pre' a' b' post' →
              (String.length pre <= String.length pre')%nat)
         ∧ total = Strconv.FormatInt (clamped end_ - clamped start)
         ∧ start ≠ EmptyString ∧ end_ ≠ EmptyString ∧ total ≠ EmptyString)
  ∧ Genderopen.parsePages "(Muenster: Westfaelisches Dampfboot, 2003), 73-100"
    = ("73", "100", "27")
  ∧ Genderopen.parsePages "100-73" = ("100", "73", "-27")
  ∧ (∀ doc, let '(start, end_, total) := Crossref.pageFields doc in
            start ≠ EmptyString ∧ end_ ≠ EmptyString ∧ total ≠ EmptyString)
  ∧ Crossref.pageFields (crossrefDocument "73-100" EmptyString) = ("73", "100", "27")
  ∧ Crossref.pageFields (crossrefDocument "100-73" EmptyString) = ("100", "73", "0")
  ∧ Crossref.pageFields (crossrefDocument "73-1oo" EmptyString) = ("73", "0", "0")
  ∧ Crossref.pageFields (crossrefDocument "pp. 73" EmptyString) = ("0", "0", "0").
Proof.
  split; [|split; [|split; [|split; [|split; [|repeat split; vm_compute; reflexivity]]]]].
  - intros s. unfold Genderopen.parsePages.
    destruct (find_pages_spec s)
      as [[-> Hnone] | (pre & a & b & post & -> & Hocc & _)].
    + split; [|reflexivity]. intros _ (pre & a & b & post & Hocc).
      exact (Hnone _ _ _ _ Hocc).
    + split.
      * intros [= -> _ _]. destruct Hocc as (_ & (c & ds & Ha & _) & _). discriminate.
      * intros Hno. exfalso. apply Hno. eauto.
  - intros s start end_ total Hparse Hex. unfold Genderopen.parsePages in Hparse.
    destruct (find_pages_spec s)
      as [[Hnil Hnone] | (pre & a & b & post & Hfind & Hocc & Hpost & Hleft)].
    + rewrite Hnil in Hparse. injection Hparse as <- <- <-.
      exfalso. destruct Hex as (pre & a & b & post & Hocc). exact (Hnone _ _ _ _ Hocc).
    + rewrite Hfind in Hparse. injection Hparse as <- <- <-.
      pose proof Hocc as (_ & Ha & Hb).
      apply isNumeral_isDigits in Ha, Hb.
      rewrite (Atoi_digits_clamped a Ha), (Atoi_digits_clamped b Hb).
      pose proof (clamped_range a Ha). pose proof (clamped_range b Hb).
      assert (Hmax : (Strconv.maxInt64 = 9223372036854775807)%Z) by reflexivity.
      rewrite wrap64_small
        by (change (2 ^ 63)%Z with 9223372036854775808%Z; lia).
      exists pre, post.
      split; [exact Hocc |]. split; [exact Hpost |]. split; [exact Hleft |].
      split; [reflexivity |]. split; [exact (proj1 Ha) |]. split; [exact (proj1 Hb) |].
      apply FormatInt_nonempty.
  - vm_compute. reflexivity.
  - vm_compute. reflexivity.
  - intros doc. unfold Crossref.pageFields.
    repeat split; apply FormatInt_nonempty.
Qed.

Lemma parsePages_leftmost_occurrence_witness :
  ∃ pre post,
    pageOccurrence "pp. 100-73" pre "100" "73" post
    ∧ noDigitHead post
    ∧ (∀ pre' a' b' post', pageOccurrence "pp. 100-73" pre' a' b' post' →
         (String.length pre <= String.length pre')%nat)
    ∧ "-27" = Strconv.FormatInt (clamped "73" - clamped "100")
    ∧ "100" ≠ EmptyString ∧ "73" ≠ EmptyString ∧ "-27" ≠ EmptyString.
Proof.
  apply (proj1 (proj2 parsePages_leftmost_occurrence) "pp. 100-73" "100" "73" "-27").
  - vm_compute. reflexivity.
  - exists "pp. ", "100", "73", EmptyString. split; [reflexivity | split].
    + exists "1"%char, "00". repeat split; reflexivity.
    + exists "7"%char, "3". repeat split; reflexivity.
Defined.

(** The claim C4 as stated fails on [100-73], whose end lies before its
    start: the three results are filled, the count is negative.  In
    crossref a page string with a start but no numeric end fills the
    start alone. *)
Lemma parsePages_descending_not_empty :
  Genderopen.parsePages "100-73" = ("100", "73", "-27")
  ∧ Genderopen.parsePages "100-73" ≠ (EmptyString, EmptyString, EmptyString)
  ∧ Crossref.pageFields (crossrefDocument "73-1oo" EmptyString) = ("73", "0", "0").
Proof. repeat split; vm_compute; congruence. Qed.

(** ** Delays *)

Lemma delay_match (s ds : string) (u : ascii) :
  delayGrammar s ds u →
  Holdings.DelayPattern_FindStringSubmatch s = [s; ds; String u EmptyString].
Proof.
  intros (-> & [Hne Hds] & Hu). unfold Holdings.DelayPattern_FindStringSubmatch.
  cbn [Byte.eqb]. rewrite Ascii.eqb_refl.
  rewrite (span_append Byte.isDigit ds (String u EmptyString) Hds)
    by (destruct Hu as [-> | ->]; reflexivity).
  destruct ds as [|c r]; [congruence |]. cbn [String.eqb negb andb].
  destruct Hu as [-> | ->]; reflexivity.
Qed.

Lemma delay_match_inv (s : string) :
  Holdings.DelayPattern_FindStringSubmatch s = []
  ∨ ∃ ds u, delayGrammar s ds u.
Proof.
  unfold Holdings.DelayPattern_FindStringSubmatch.
  destruct s as [|c r]; [left; reflexivity |].
  destruct (Byte.eqb c "-") eqn:Hc; [|left; reflexivity].
  apply Ascii.eqb_eq in Hc as ->.
  pose proof (span_spec Byte.isDigit r) as Hspan.
  destruct (GoStrings.span Byte.isDigit r) as [ds u].
  destruct Hspan as (-> & Hds & _).
  destruct (String.eqb ds EmptyString) eqn:Hne; [left; reflexivity |].
  apply String.eqb_neq in Hne. cbn [negb andb].
  destruct (String.eqb u "M") eqn:HM.
  - apply String.eqb_eq in HM as ->. right. exists ds, "M"%char.
    repeat split; auto.
  - destruct (String.eqb u "Y") eqn:HY; [|left; reflexivity].
    apply String.eqb_eq in HY as ->. right. exists ds, "Y"%char.
    repeat split; auto.
Qed.

Lemma leadingInt_utoaFuel (fuel : nat) (n : Z) (acc : string) :
  (0 <= n < 2 ^ Z.of_nat fuel)%Z → (n <= Strconv.maxInt64)%Z →
  Time.leadingInt 0 (Strconv.utoaFuel fuel n acc) = Time.leadingInt n acc.
Proof.
  assert (Hmax : (Strconv.maxInt64 = 9223372036854775807)%Z) by reflexivity.
  assert (Hmax10 : (Strconv.maxInt64 / 10 = 922337203685477580)%Z) by reflexivity.
  revert n acc. induction fuel as [|fuel IH]; intros n acc Hn Hfit.
  - change (2 ^ Z.of_nat 0)%Z with 1%Z in Hn. assert (n = 0)%Z as -> by lia. reflexivity.
  - cbn [Strconv.utoaFuel].
    destruct (digitChar_spec (n mod 10)) as [Hd Hv];
      [pose proof (Z.mod_pos_bound n 10); lia |].
    assert (Hstep : ∀ m, (m * 10 + n mod 10 = n)%Z → (0 <= m)%Z →
              Time.leadingInt m (String (Byte.digitChar (n mod 10)) acc)
              = Time.leadingInt n acc).
    { intros m Hm Hm0. cbn [Time.leadingInt]. rewrite Hd, Hv, Hmax10, Hm.
      pose proof (Z.mod_pos_bound n 10 ltac:(lia)) as Hmod.
      destruct (Z.gtb_spec m 922337203685477580) as [Hbig|_];
        [exfalso; clear - Hm Hbig Hfit Hmax Hmod; lia |].
      destruct (Z.gtb_spec n Strconv.maxInt64) as [Hbig|_];
        [exfalso; clear - Hbig Hfit; lia |].
      reflexivity. }
    destruct (Z.ltb_spec n 10) as [Hsmall|Hlarge].
    + apply Hstep; [rewrite Z.mod_small by lia; lia | lia].
    + rewrite IH.
      * apply Hstep; [pose proof (Z.div_mod n 10); lia | apply Z.div_pos; lia].
      * split; [apply Z.div_pos; lia |].
        apply Z.div_lt_upper_bound; [lia |].
        rewrite Nat2Z.inj_succ, Z.pow_succ_r in Hn by lia. lia.
      * assert (n / 10 <= n)%Z by (apply Z.div_le_upper_bound; lia). lia.
Qed.

Lemma utoa_fuel (n : Z) :
  (0 <= n)%Z → (n < 2 ^ Z.of_nat (S (Z.to_nat (Z.log2 n))))%Z.
Proof.
  intros Hn. rewrite Nat2Z.inj_succ, Z2Nat.id by apply Z.log2_nonneg.
  destruct (Z.eq_dec n 0%Z) as [->|Hne]; [reflexivity |].
  apply Z.log2_spec. lia.
Qed.

Lemma leadingInt_utoa (n : Z) (rest : string) :
  (0 <= n <= Strconv.maxInt64)%Z → noDigitHead rest →
  Time.leadingInt 0 (Strconv.utoa n +:+ rest) = Some (n, rest).
Proof.
  intros Hn Hrest. unfold Strconv.utoa.
  rewrite utoaFuel_append, append_nil_l.
  rewrite leadingInt_utoaFuel; [| split; [lia | apply utoa_fuel; lia] | lia].
  destruct rest as [|c r]; [reflexivity |].
  simpl in Hrest. cbn [Time.leadingInt]. rewrite Hrest. reflexivity.
Qed.

Lemma parseGroups_nil (fuel : nat) (d : Z) :
  Time.parseGroups fuel d EmptyString = Some d.
Proof. destruct fuel; reflexivity. Qed.

(** [time.ParseDuration] on what [ParseDelay] prints for a number of
    hours a duration can hold. *)
Lemma ParseDuration_hours (k : Z) :
  (0 <= k <= maxHours)%Z →
  Time.ParseDuration (String "-" (Strconv.FormatInt k +:+ "h")) = Some (- (k * Time.Hour))%Z.
Proof.
  intros Hk. unfold maxHours in Hk.
  assert (Hmax : (Strconv.maxInt64 = 9223372036854775807)%Z) by reflexivity.
  unfold Strconv.FormatInt. rewrite (proj2 (Z.ltb_ge k 0)) by lia.
  unfold Time.ParseDuration. cbn [Byte.eqb]. rewrite Ascii.eqb_refl.
  destruct (utoa_head k) as (c & r & Hhead & Hc); [lia |].
  pose proof (leadingInt_utoa k "h") as Hlead.
  rewrite Hhead in *. rewrite append_cons in *.
  assert (H0 : String.eqb (String c (r +:+ "h")) "0" = false)
    by (apply String.eqb_neq; destruct r; discriminate).
  rewrite H0. cbn [String.eqb String.length].
  cbn [Time.parseGroups]. rewrite Hc. cbn [negb].
  rewrite Hlead by (try reflexivity; lia).
  change (GoStrings.span Time.isUnitByte "h") with ("h", EmptyString).
  cbv iota beta. change (Time.unitMap "h") with (Some Time.Hour). cbv iota beta.
  change (Strconv.maxInt64 / Time.Hour)%Z with 2562047%Z.
  destruct (Z.gtb_spec k 2562047) as [Hbig|_]; [lia |].
  assert (HH : Time.Hour = 3600000000000%Z) by reflexivity.
  destruct (Z.gtb_spec (0 + k * Time.Hour) Strconv.maxInt64) as [Hbig|_]; [lia |].
  rewrite parseGroups_nil, Z.add_0_l. reflexivity.
Qed.

Lemma ParseDelay_matched (s ds : string) (u : ascii) :
  delayGrammar s ds u →
  Holdings.ParseDelay s
  = if (decimal ds <? 2 ^ 63)%Z then
      (default 0%Z
         (Time.ParseDuration
            (String "-" (Strconv.FormatInt (Strconv.wrap64 (decimal ds * unitHours u)) +:+ "h"))),
       None)
    else (0%Z, Some (Errors.NumError ds Strconv.ErrRange)).
Proof.
  intros Hg. unfold Holdings.ParseDelay. rewrite (delay_match s ds u Hg).
  destruct Hg as (_ & Hds & Hu). rewrite (Atoi_digits ds Hds).
  destruct (decimal ds <? 2 ^ 63)%Z; [|reflexivity].
  destruct Hu as [-> | ->]; reflexivity.
Qed.

(** C7, as the code has it.  [ParseDelay] answers [unknown format]
    exactly on the strings outside the grammar: a dash, an integer, [M]
    or [Y].  On a string of the grammar with the integer [n] it returns
    a range error if [n] does not fit [int64]; it returns a nil error and
    the duration of minus [n] times 720 hours for [M], minus [n] times
    8760 hours for [Y], whenever that many hours fit a [time.Duration],
    that is up to 2562047 hours.  What it returns on the strings of the
    grammar between these two cases is not part of the statement. *)
Theorem ParseDelay_grammar :
  (∀ s, (¬ ∃ ds u, delayGrammar s ds u) →
        Holdings.ParseDelay s
        = (0%Z, Some (Errors.ErrorString ("unknown format: " +:+ s))))
  ∧ (∀ s ds u, delayGrammar s ds u →
       ((2 ^ 63 <= decimal ds)%Z →
        Holdings.ParseDelay s = (0%Z, Some (Errors.NumError ds Strconv.ErrRange)))
       ∧ ((decimal ds * unitHours u <= maxHours)%Z →
          Holdings.ParseDelay s = ((- (decimal ds * unitHours u * Time.Hour))%Z, None)))
  ∧ (∀ s, snd (Holdings.ParseDelay s)
          = Some (Errors.ErrorString ("unknown format: " +:+ s))
          ↔ ¬ ∃ ds u, delayGrammar s ds u)
  ∧ Holdings.ParseDelay "-1M" = ((- (720 * Time.Hour))%Z, None)
  ∧ Holdings.ParseDelay "-1Y" = ((- (8760 * Time.Hour))%Z, None)
  ∧ List.map Holdings.ParseDelay ["-1D"; "-111m"; "0.1M"; "-1"]
    = List.map (fun s => (0%Z, Some (Errors.ErrorString ("unknown format: " +:+ s))))
        ["-1D"; "-111m"; "0.1M"; "-1"].
Proof.
  assert (Hnomatch : ∀ s, (¬ ∃ ds u, delayGrammar s ds u) →
            Holdings.ParseDelay s
            = (0%Z, Some (Errors.ErrorString ("unknown format: " +:+ s)))).
  { intros s Hno. unfold Holdings.ParseDelay.
    destruct (delay_match_inv s) as [-> | Hyes]; [reflexivity | contradiction]. }
  split; [exact Hnomatch |].
  split; [|split; [|repeat split; vm_compute; reflexivity]].
  - intros s ds u Hg. rewrite (ParseDelay_matched s ds u Hg). split.
    + intros Hbig. rewrite (proj2 (Z.ltb_ge _ _)) by lia. reflexivity.
    + intros Hhours.
      destruct Hg as (_ & [_ Hds] & Hu).
      pose proof (decimalFrom_ge ds 0 Hds ltac:(lia)) as Hpos. fold (decimal ds) in Hpos.
      assert (Hunit : (720 <= unitHours u <= 8760)%Z)
        by (destruct Hu as [-> | ->]; vm_compute; split; discriminate).
      unfold maxHours in Hhours.
      assert (H63 : (2 ^ 63 = 9223372036854775808)%Z) by reflexivity.
      rewrite (proj2 (Z.ltb_lt _ _)) by nia.
      rewrite wrap64_small by (rewrite H63; nia).
      rewrite ParseDuration_hours by (unfold maxHours; nia).
      reflexivity.
  - intros s. split.
    + intros Herr (ds & u & Hg).
      rewrite (ParseDelay_matched s ds u Hg) in Herr.
      destruct (decimal ds <? 2 ^ 63)%Z; discriminate Herr.
    + intros Hno. rewrite (Hnomatch s Hno). reflexivity.
Qed.

Lemma ParseDelay_grammar_witness :
  Holdings.ParseDelay "-12M" = ((- (decimal "12" * unitHours "M" * Time.Hour))%Z, None)
  ∧ Holdings.ParseDelay "12M" = (0%Z, Some (Errors.ErrorString ("unknown format: " +:+ "12M"))).
Proof.
  split.
  - apply (proj1 (proj2 ParseDelay_grammar) "-12M" "12" "M"%char).
    + split; [reflexivity |].
      split; [split; [discriminate | reflexivity] | left; reflexivity].
    + vm_compute. discriminate.
  - apply (proj1 ParseDelay_grammar "12M").
    intros (ds & u & Hs & _). discriminate.
Defined.

(** The claim C7 as stated fails on [-293Y], a string of the grammar on
    which [ParseDelay] succeeds with the zero duration instead of minus
    293 times 8760 hours, and on [-9223372036854775808M], a string of the
    grammar on which it fails. *)
Lemma ParseDelay_grammar_not_exact :
  delayGrammar "-293Y" "293" "Y"
  ∧ Holdings.ParseDelay "-293Y" = (0%Z, None)
  ∧ (- (decimal "293" * unitHours "Y" * Time.Hour))%Z ≠ 0%Z
  ∧ delayGrammar "-9223372036854775808M" "9223372036854775808" "M"
  ∧ snd (Holdings.ParseDelay "-9223372036854775808M")
    = Some (Errors.NumError "9223372036854775808" Strconv.ErrRange).
Proof.
  split; [split; [reflexivity |];
          split; [split; [discriminate | reflexivity] | right; reflexivity] |].
  split; [vm_compute; reflexivity |].
  split; [vm_compute; discriminate |].
  split; [split; [reflexivity |];
          split; [split; [discriminate | reflexivity] | left; reflexivity] |].
  vm_compute. reflexivity.
Qed.

(** ** Conversions *)

(** The four ways out of the genios conversion, whatever its
    collaborators answer. *)
Lemma genios_conversion_cases
    (findISSN : string -> list string) (detect : string -> option string)
    (lookup : string -> list string -> list string)
    (values : list string -> list string) (doc : Genios.Document) :
  (∃ e, Genios.Date doc = inl e
        ∧ Genios.ToIntermediateSchema findISSN detect lookup values doc
          = (Finc.NewIntermediateSchema, Some (Errors.Skip (Errors.ParseError_Error e))))
  ∨ (∃ date out reason,
       Genios.Date doc = inr date
       ∧ Genios.ToIntermediateSchema findISSN detect lookup values doc
         = (out, Some (Errors.Skip reason))
       ∧ Finc.ID out = EmptyString ∧ Finc.Date out = date)
  ∨ (∃ date out,
       Genios.Date doc = inr date
       ∧ (String.length (Genios.FincID doc) <= Span.KeyLengthLimit)%nat
       ∧ Genios.ToIntermediateSchema findISSN detect lookup values doc = (out, None)
       ∧ Finc.ID out = Genios.FincID doc ∧ Finc.RecordID out = Genios.ID doc
       ∧ Finc.Date out = date ∧ Finc.RawDate out = Time.Format date).
Proof.
  unfold Genios.ToIntermediateSchema.
  destruct (Genios.Date doc) as [e|date]; [left; eauto |]. right.
  destruct (Genios.maxTitleLength <? String.length (GoStrings.TrimSpace (Genios.Title doc)))%nat.
  - left. eexists _, _, _. repeat split.
  - destruct (Nat.ltb_spec Span.KeyLengthLimit (String.length (Genios.FincID doc))) as [Hlong|Hfit].
    + left. eexists _, _, _. repeat split.
    + right. eexists _, _. repeat split. exact Hfit.
Qed.

Lemma genios_long_id_skipped
    (findISSN : string -> list string) (detect : string -> option string)
    (lookup : string -> list string -> list string)
    (values : list string -> list string) (doc : Genios.Document) :
  (Span.KeyLengthLimit < String.length (Genios.FincID doc))%nat →
  ∃ out reason,
    Genios.ToIntermediateSchema findISSN detect lookup values doc
    = (out, Some (Errors.Skip reason))
    ∧ Finc.ID out = EmptyString.
Proof.
  intros Hlong.
  destruct (genios_conversion_cases findISSN detect lookup values doc)
    as [(e & _ & ->) | [(date & out & reason & _ & -> & Hid & _)
                       | (date & out & _ & Hfit & _)]].
  - eexists _, _. split; reflexivity.
  - eexists _, _. split; [reflexivity | exact Hid].
  - lia.
Qed.

(** C5.  The genios conversion skips every document whose composed ID is
    longer than [span.KeyLengthLimit], and leaves the ID of the record
    empty.  The genderopen conversion has no such check: on a record
    with an identifier of 300 bytes and the date [2015] it returns the
    record with a nil error and an ID of 407 bytes. *)
Theorem long_id_skipped_by_genios_only :
  (∀ findISSN detect lookup values doc,
     (Span.KeyLengthLimit < String.length (Genios.FincID doc))%nat →
     ∃ out reason,
       Genios.ToIntermediateSchema findISSN detect lookup values doc
       = (out, Some (Errors.Skip reason))
       ∧ Finc.ID out = EmptyString)
  ∧ snd (Genderopen.ToIntermediateSchema (genderopenRecord longIdentifier "2015" EmptyString))
    = None
  ∧ String.length
      (Finc.ID (fst (Genderopen.ToIntermediateSchema
                       (genderopenRecord longIdentifier "2015" EmptyString))))
    = 407%nat
  ∧ Span.KeyLengthLimit = 250%nat.
Proof.
  split; [exact genios_long_id_skipped |].
  repeat split; vm_compute; reflexivity.
Qed.

Lemma long_id_skipped_by_genios_only_witness :
  ∃ out reason,
    geniosExample (geniosDocument longIdentifier "2015" EmptyString)
    = (out, Some (Errors.Skip reason))
    ∧ Finc.ID out = EmptyString.
Proof.
  apply (proj1 long_id_skipped_by_genios_only).
  vm_compute. lia.
Defined.

(** ** Dates *)

Lemma Parse2006_spec (s : string) (t : Time.Time) :
  Time.Parse2006 s = inr t
  ↔ String.length s = 4%nat ∧ GoStrings.all Byte.isDigit s = true
    ∧ t = {| Time.year := decimal s; Time.month := 1; Time.day := 1 |}.
Proof.
  unfold Time.Parse2006, Time.parseLongYear.
  destruct s as [|a [|b [|c [|d rest]]]];
    try (split; [discriminate | intros (Hlen & _); discriminate]).
  destruct (Byte.isDigit a) eqn:Ha; cbn [negb];
    [|split; [discriminate | intros (_ & Hall & _); simpl in Hall; rewrite Ha in Hall; discriminate]].
  destruct (Byte.isDigit b && Byte.isDigit c && Byte.isDigit d) eqn:Hbcd.
  2:{ split; [discriminate |]. intros (_ & Hall & _). simpl in Hall.
      apply andb_true_iff in Hall as [_ Hall].
      apply andb_true_iff in Hall as [Hb Hall].
      apply andb_true_iff in Hall as [Hc Hall].
      apply andb_true_iff in Hall as [Hd _].
      rewrite Hb, Hc, Hd in Hbcd. discriminate. }
  apply andb_true_iff in Hbcd as [Hbc Hd]. apply andb_true_iff in Hbc as [Hb Hc].
  assert (Hall : GoStrings.all Byte.isDigit (String a (String b (String c (String d EmptyString)))) = true).
  { simpl. rewrite Ha, Hb, Hc, Hd. reflexivity. }
  rewrite (parseUintLoop_digits _ 0 Hall) by (vm_compute; split; discriminate).
  fold (decimal (String a (String b (String c (String d EmptyString))))).
  pose proof (digitVal_range a Ha). pose proof (digitVal_range b Hb).
  pose proof (digitVal_range c Hc). pose proof (digitVal_range d Hd).
  assert (Hval : (decimal (String a (String b (String c (String d EmptyString)))) <= 9999)%Z).
  { unfold decimal. simpl. lia. }
  assert (Hmax : (Strconv.maxUint64 = 18446744073709551615)%Z) by reflexivity.
  rewrite (proj2 (Z.leb_le _ _)) by lia. cbn [fst].
  unfold Time.finish. destruct rest as [|x rest].
  - cbn [String.eqb negb]. change ((1 <? 1) || (1 >? Time.daysIn 1 _))%Z with false.
    cbv iota. split.
    + intros [= <-]. split; [reflexivity | split; [exact Hall | reflexivity]].
    + intros (_ & _ & ->). reflexivity.
  - cbn [String.eqb negb]. split; [discriminate | intros (Hlen & _); discriminate].
Qed.




(** * Further properties *)

(** ** More on strings *)

Lemma all_append (p : ascii -> bool) (a b : string) :
  GoStrings.all p (a +:+ b) = GoStrings.all p a && GoStrings.all p b.
Proof.
  induction a as [|c a IH]; [reflexivity |].
  rewrite append_cons. simpl. rewrite IH, andb_assoc. reflexivity.
Qed.

Lemma rev_append_spec (s acc : string) :
  GoStrings.rev_append s acc = GoStrings.rev s +:+ acc.
Proof.
  unfold GoStrings.rev. revert acc.
  induction s as [|c r IH]; intros acc; [reflexivity |].
  simpl. rewrite (IH (String c acc)), (IH (String c EmptyString)), append_assoc.
  reflexivity.
Qed.

Lemma rev_cons (c : ascii) (r : string) :
  GoStrings.rev (String c r) = GoStrings.rev r +:+ String c EmptyString.
Proof. unfold GoStrings.rev at 1. simpl. apply rev_append_spec. Qed.

Lemma rev_app (a b : string) :
  GoStrings.rev (a +:+ b) = GoStrings.rev b +:+ GoStrings.rev a.
Proof.
  induction a as [|c a IH].
  - rewrite append_nil_l. change (GoStrings.rev EmptyString) with EmptyString.
    rewrite append_nil_r. reflexivity.
  - rewrite append_cons, !rev_cons, IH, append_assoc. reflexivity.
Qed.

Lemma rev_involutive (s : string) : GoStrings.rev (GoStrings.rev s) = s.
Proof.
  induction s as [|c r IH]; [reflexivity |].
  rewrite rev_cons, rev_app, IH. reflexivity.
Qed.

Lemma all_rev (p : ascii -> bool) (s : string) :
  GoStrings.all p (GoStrings.rev s) = GoStrings.all p s.
Proof.
  induction s as [|c r IH]; [reflexivity |].
  rewrite rev_cons, all_append, IH. simpl. rewrite andb_true_r, andb_comm. reflexivity.
Qed.

Lemma length_rev (s : string) : String.length (GoStrings.rev s) = String.length s.
Proof.
  induction s as [|c r IH]; [reflexivity |].
  rewrite rev_cons, length_append, IH. simpl. lia.
Qed.

Lemma stripPrefix_spec (w s r : string) :
  GoStrings.stripPrefix w s = Some r ↔ s = w +:+ r.
Proof.
  revert s. induction w as [|a w IH]; intros s.
  - simpl. rewrite append_nil_l. split; [intros [= ->] | intros ->]; reflexivity.
  - destruct s as [|b s]; simpl.
    + split; discriminate.
    + rewrite append_cons. unfold Byte.eqb.
      destruct (Ascii.eqb_spec a b) as [->|Hne].
      * rewrite IH. split; [intros -> | intros [= ->]]; reflexivity.
      * split; [discriminate | intros [= <- _]; congruence].
Qed.

Lemma stripOne_spec (ws : list string) (s r : string) :
  GoStrings.stripOne ws s = Some r → ∃ w, In w ws ∧ s = w +:+ r.
Proof.
  induction ws as [|w ws IH]; simpl; [discriminate |].
  destruct (GoStrings.stripPrefix w s) as [r'|] eqn:E.
  - intros [= <-]. apply stripPrefix_spec in E. eauto.
  - intros H. destruct (IH H) as (w' & Hin & Hs). eauto.
Qed.

Lemma stripOne_none (ws : list string) (s w r : string) :
  GoStrings.stripOne ws s = None → In w ws → s ≠ w +:+ r.
Proof.
  induction ws as [|w' ws IH]; simpl; [tauto |].
  destruct (GoStrings.stripPrefix w' s) as [r'|] eqn:E; [discriminate |].
  intros H [-> | Hin] Hs.
  - apply stripPrefix_spec in Hs. congruence.
  - exact (IH H Hin Hs).
Qed.

(** What is trimmed on the left is a prefix. *)
Lemma trimLeftFuel_suffix (fuel : nat) (ws : list string) (s : string) :
  ∃ pre, s = pre +:+ GoStrings.trimLeftFuel fuel ws s.
Proof.
  revert s. induction fuel as [|fuel IH]; intros s; simpl.
  - exists EmptyString. reflexivity.
  - destruct (GoStrings.stripOne ws s) as [r|] eqn:E.
    + destruct (stripOne_spec ws s r E) as (w & _ & ->).
      destruct (IH r) as (pre & Hr). exists (w +:+ pre).
      rewrite append_assoc, <- Hr. reflexivity.
    + exists EmptyString. reflexivity.
Qed.

(** [strings.TrimSpace] cuts a prefix and a suffix off its argument. *)
Lemma TrimSpace_infix (s : string) :
  ∃ pre post, s = pre +:+ GoStrings.TrimSpace s +:+ post.
Proof.
  unfold GoStrings.TrimSpace, GoStrings.TrimLeftSpace.
  destruct (trimLeftFuel_suffix (String.length s) GoStrings.whiteSpace s) as (pre & Hs).
  set (l := GoStrings.trimLeftFuel (String.length s) GoStrings.whiteSpace s) in *.
  unfold GoStrings.TrimRightSpace.
  destruct (trimLeftFuel_suffix (String.length l)
              (List.map GoStrings.rev GoStrings.whiteSpace) (GoStrings.rev l)) as (post & Hl).
  set (r := GoStrings.trimLeftFuel _ _ (GoStrings.rev l)) in *.
  exists pre, (GoStrings.rev post).
  rewrite <- rev_app, <- Hl, rev_involutive. exact Hs.
Qed.

Lemma TrimSpace_all (p : ascii -> bool) (s : string) :
  GoStrings.all p s = true → GoStrings.all p (GoStrings.TrimSpace s) = true.
Proof.
  destruct (TrimSpace_infix s) as (pre & post & Hs). intros H.
  rewrite Hs, !all_append in H.
  apply andb_true_iff in H as [_ H]. apply andb_true_iff in H as [H _]. exact H.
Qed.

Lemma TrimSpace_length (s : string) :
  (String.length (GoStrings.TrimSpace s) <= String.length s)%nat.
Proof.
  destruct (TrimSpace_infix s) as (pre & post & Hs).
  rewrite Hs at 2. rewrite !length_append. lia.
Qed.

(** The fields [strings.FieldsFunc] returns are not empty and hold no
    separator. *)
Lemma fieldsAux_fields (f : ascii -> bool) (s cur x : string) :
  GoStrings.all (fun c => negb (f c)) cur = true →
  In x (GoStrings.fieldsAux f s cur) →
  x ≠ EmptyString ∧ GoStrings.all (fun c => negb (f c)) x = true.
Proof.
  revert cur. induction s as [|c r IH]; intros cur Hcur; simpl.
  - destruct (String.eqb_spec cur EmptyString) as [->|Hne]; simpl; [tauto |].
    intros [<- | []]. split.
    + intros Hrev. apply (f_equal String.length) in Hrev.
      rewrite length_rev in Hrev. destruct cur; [congruence | discriminate].
    + rewrite all_rev. exact Hcur.
  - destruct (f c) eqn:Hc.
    + intros Hin. apply in_app_or in Hin as [Hin | Hin].
      * destruct (String.eqb_spec cur EmptyString) as [->|Hne]; simpl in Hin; [tauto |].
        destruct Hin as [<- | []]. split.
        -- intros Hrev. apply (f_equal String.length) in Hrev.
           rewrite length_rev in Hrev. destruct cur; [congruence | discriminate].
        -- rewrite all_rev. exact Hcur.
      * exact (IH EmptyString eq_refl Hin).
    + apply IH. simpl. rewrite Hc, Hcur. reflexivity.
Qed.

Lemma FieldsFunc_fields (f : ascii -> bool) (s x : string) :
  In x (GoStrings.FieldsFunc s f) →
  x ≠ EmptyString ∧ GoStrings.all (fun c => negb (f c)) x = true.
Proof. apply fieldsAux_fields. reflexivity. Qed.

(** The parts [strings.Split] returns hold no separator, and there is at
    least one part. *)
Lemma Split_parts (sep : ascii) (s : string) :
  GoStrings.Split sep s ≠ []
  ∧ Forall (fun x => GoStrings.all (fun c => negb (Byte.eqb sep c)) x = true)
      (GoStrings.Split sep s).
Proof.
  induction s as [|c r [IHne IHall]]; simpl.
  - split; [discriminate | repeat constructor].
  - destruct (Byte.eqb sep c) eqn:Hc.
    + split; [discriminate |]. constructor; [reflexivity | exact IHall].
    + destruct (GoStrings.Split sep r) as [|x xs]; [congruence |].
      split; [discriminate |].
      inversion IHall as [|? ? Hx Hxs]; subst.
      constructor; [simpl; rewrite Hc, Hx; reflexivity | exact Hxs].
Qed.

Lemma Split_no_sep (sep : ascii) (s : string) :
  GoStrings.all (fun c => negb (Byte.eqb sep c)) s = true →
  GoStrings.Split sep s = [s].
Proof.
  induction s as [|c r IH]; simpl; [reflexivity |].
  intros H. apply andb_true_iff in H as [Hc Hr].
  apply negb_true_iff in Hc. rewrite Hc, (IH Hr). reflexivity.
Qed.

Lemma Split_app (sep : ascii) (a b : string) :
  GoStrings.all (fun c => negb (Byte.eqb sep c)) a = true →
  GoStrings.Split sep (a +:+ String sep b) = a :: GoStrings.Split sep b.
Proof.
  induction a as [|c r IH]; intros H.
  - rewrite append_nil_l. simpl. unfold Byte.eqb. rewrite Ascii.eqb_refl. reflexivity.
  - simpl in H. apply andb_true_iff in H as [Hc Hr]. apply negb_true_iff in Hc.
    rewrite append_cons. simpl. rewrite Hc, (IH Hr). reflexivity.
Qed.

Lemma Split_two_parts (sep : ascii) (a b : string) :
  (2 <= length (GoStrings.Split sep (a +:+ String sep b)))%nat.
Proof.
  induction a as [|c r IH].
  - rewrite append_nil_l. simpl. unfold Byte.eqb. rewrite Ascii.eqb_refl.
    destruct (Split_parts sep b) as [Hne _].
    destruct (GoStrings.Split sep b); [congruence | simpl; lia].
  - rewrite append_cons. simpl. destruct (Byte.eqb sep c); [simpl; lia |].
    destruct (GoStrings.Split sep (r +:+ String sep b)); simpl in *; lia.
Qed.

Lemma Split_last (sep : ascii) (a b : string) :
  last (GoStrings.Split sep (a +:+ String sep b)) = last (GoStrings.Split sep b).
Proof.
  induction a as [|c r IH].
  - rewrite append_nil_l. simpl. unfold Byte.eqb. rewrite Ascii.eqb_refl.
    destruct (Split_parts sep b) as [Hne _].
    destruct (GoStrings.Split sep b); [congruence | reflexivity].
  - rewrite append_cons. simpl.
    pose proof (Split_two_parts sep r b) as Hlen.
    destruct (GoStrings.Split sep (r +:+ String sep b)) as [|x [|y ys]];
      simpl in Hlen; try lia.
    destruct (Byte.eqb sep c); rewrite <- IH; reflexivity.
Qed.

(** ** More on delays *)

Lemma wrap64_range (z : Z) :
  (Strconv.minInt64 <= Strconv.wrap64 z <= Strconv.maxInt64)%Z.
Proof.
  unfold Strconv.wrap64, Strconv.minInt64, Strconv.maxInt64.
  change (2 ^ 63)%Z with 9223372036854775808%Z.
  change (2 ^ 64)%Z with 18446744073709551616%Z.
  pose proof (Z.mod_pos_bound (z + 9223372036854775808) 18446744073709551616).
  lia.
Qed.

(** [time.ParseDuration] on what [ParseDelay] prints, for every 64-bit
    number of hours: only a number from 0 to 2562047 parses. *)
Lemma ParseDuration_printed (k : Z) :
  (Strconv.minInt64 <= k <= Strconv.maxInt64)%Z →
  Time.ParseDuration (String "-" (Strconv.FormatInt k +:+ "h"))
  = if ((0 <=? k) && (k <=? maxHours))%Z then Some (- (k * Time.Hour))%Z else None.
Proof.
  intros Hk.
  assert (Hmax : (Strconv.maxInt64 = 9223372036854775807)%Z) by reflexivity.
  destruct (Z.leb_spec 0 k) as [Hpos|Hneg]; cbn [andb].
  - destruct (Z.leb_spec k maxHours) as [Hfit|Hbig].
    + apply ParseDuration_hours. lia.
    + unfold maxHours in Hbig.
      unfold Strconv.FormatInt. rewrite (proj2 (Z.ltb_ge k 0)) by lia.
      unfold Time.ParseDuration. cbn [Byte.eqb]. rewrite Ascii.eqb_refl.
      destruct (utoa_head k) as (c & r & Hhead & Hc); [lia |].
      pose proof (leadingInt_utoa k "h") as Hlead.
      rewrite Hhead in *. rewrite append_cons in *.
      assert (H0 : String.eqb (String c (r +:+ "h")) "0" = false)
        by (apply String.eqb_neq; destruct r; discriminate).
      rewrite H0. cbn [String.eqb String.length].
      cbn [Time.parseGroups]. rewrite Hc. cbn [negb].
      rewrite Hlead by (try reflexivity; lia).
      change (GoStrings.span Time.isUnitByte "h") with ("h", EmptyString).
      cbv iota beta. change (Time.unitMap "h") with (Some Time.Hour). cbv iota beta.
      change (Strconv.maxInt64 / Time.Hour)%Z with 2562047%Z.
      destruct (Z.gtb_spec k 2562047) as [_|Hsmall]; [reflexivity | lia].
  - unfold Strconv.FormatInt. rewrite (proj2 (Z.ltb_lt k 0)) by lia.
    unfold Time.ParseDuration. cbn [Byte.eqb]. rewrite Ascii.eqb_refl.
    rewrite append_cons. reflexivity.
Qed.

Lemma ParseDelay_exact (s ds : string) (u : ascii) :
  delayGrammar s ds u → (decimal ds < 2 ^ 63)%Z →
  let k := Strconv.wrap64 (decimal ds * unitHours u) in
  Holdings.ParseDelay s
  = (if ((0 <=? k) && (k <=? maxHours))%Z then (- (k * Time.Hour))%Z else 0%Z, None).
Proof.
  intros Hg Hfit k. rewrite (ParseDelay_matched s ds u Hg).
  rewrite (proj2 (Z.ltb_lt _ _) Hfit).
  rewrite (ParseDuration_printed _ (wrap64_range _)). fold k.
  destruct ((0 <=? k) && (k <=? maxHours))%Z; reflexivity.
Qed.

(** The three shapes of what [ParseDelay] returns. *)
Lemma ParseDelay_shapes (s : string) :
  (∃ e, Holdings.ParseDelay s = (0%Z, Some e))
  ∨ (∃ k, (0 <= k <= maxHours)%Z
          ∧ Holdings.ParseDelay s = ((- (k * Time.Hour))%Z, None)).
Proof.
  destruct (delay_match_inv s) as [Hno | (ds & u & Hg)].
  - left. unfold Holdings.ParseDelay. rewrite Hno. eauto.
  - destruct (Z.ltb_spec (decimal ds) (2 ^ 63)) as [Hfit|Hbig].
    + right. rewrite (ParseDelay_exact s ds u Hg Hfit).
      set (k := Strconv.wrap64 (decimal ds * unitHours u)).
      destruct (Z.leb_spec 0 k) as [Hpos|Hneg]; cbn [andb].
      * destruct (Z.leb_spec k maxHours) as [Hsmall|Hlarge].
        -- exists k. split; [lia | reflexivity].
        -- exists 0%Z. split; [unfold maxHours; lia | reflexivity].
      * exists 0%Z. split; [unfold maxHours; lia | reflexivity].
    + left. rewrite (ParseDelay_matched s ds u Hg).
      rewrite (proj2 (Z.ltb_ge _ _)) by lia. eauto.
Qed.

(** The delay [ParseDelay] returns is never positive: it is a whole
    number of hours between minus 2562047 and zero, and it is zero
    whenever an error is returned.  The same holds for
    [Entitlement.Delay], which returns zero and no error when neither
    delay is given. *)
Theorem delay_never_positive :
  (∀ s, let '(d, err) := Holdings.ParseDelay s in
        (- (maxHours * Time.Hour) <= d <= 0)%Z
        ∧ (d mod Time.Hour = 0)%Z
        ∧ (err ≠ None → d = 0%Z))
  ∧ (∀ e, let '(d, err) := Holdings.Delay e in
          (- (maxHours * Time.Hour) <= d <= 0)%Z
          ∧ (d mod Time.Hour = 0)%Z
          ∧ (err ≠ None → d = 0%Z))
  ∧ (∀ e, Holdings.FromDelay e = EmptyString → Holdings.ToDelay e = EmptyString →
          Holdings.Delay e = (0%Z, None)).
Proof.
  assert (Hparse : ∀ s, let '(d, err) := Holdings.ParseDelay s in
            (- (maxHours * Time.Hour) <= d <= 0)%Z
            ∧ (d mod Time.Hour = 0)%Z
            ∧ (err ≠ None → d = 0%Z)).
  { intros s. assert (HH : Time.Hour = 3600000000000%Z) by reflexivity.
    destruct (ParseDelay_shapes s) as [(e & ->) | (k & Hk & ->)].
    - unfold maxHours. rewrite HH. repeat split; try lia; try reflexivity.
    - split; [unfold maxHours in *; rewrite HH; nia |].
      split; [| congruence].
      rewrite <- Z.mul_opp_l. apply Z.mod_mul. rewrite HH. discriminate. }
  split; [exact Hparse | split].
  - intros e. unfold Holdings.Delay.
    destruct (negb (String.eqb (Holdings.FromDelay e) EmptyString));
      [exact (Hparse _) |].
    destruct (negb (String.eqb (Holdings.ToDelay e) EmptyString));
      [exact (Hparse _) |].
    unfold maxHours. repeat split; try reflexivity; try discriminate; congruence.
  - intros e H1 H2. unfold Holdings.Delay. rewrite H1, H2. reflexivity.
Qed.

Lemma delay_never_positive_witness :
  Holdings.Delay
    {| Holdings.Status := EmptyString; Holdings.URL := EmptyString;
       Holdings.Anchor := EmptyString;
       Holdings.FromYear := 1995; Holdings.FromVolume := 1; Holdings.FromIssue := 0;
       Holdings.FromDelay := EmptyString;
       Holdings.ToYear := 2002; Holdings.ToVolume := 8; Holdings.ToIssue := 0;
       Holdings.ToDelay := EmptyString |}
  = (0%Z, None).
Proof.
  apply (proj2 (proj2 delay_never_positive)); reflexivity.
Defined.

(** On a string of the grammar whose integer [n] fits [int64],
    [ParseDelay] returns no error, and the duration is decided by the
    product [k] of [n] and the hours of the unit, taken in 64-bit
    arithmetic: minus [k] hours if [k] lies between 0 and 2562047, the
    zero duration otherwise. *)
Theorem ParseDelay_on_grammar (s ds : string) (u : ascii) :
  delayGrammar s ds u → (decimal ds < 2 ^ 63)%Z →
  let k := Strconv.wrap64 (decimal ds * unitHours u) in
  ((0 <= k <= maxHours)%Z →
   Holdings.ParseDelay s = ((- (k * Time.Hour))%Z, None))
  ∧ (¬ (0 <= k <= maxHours)%Z → Holdings.ParseDelay s = (0%Z, None)).
Proof.
  intros Hg Hfit k. rewrite (ParseDelay_exact s ds u Hg Hfit). fold k. split.
  - intros [H0 H1].
    rewrite (proj2 (Z.leb_le _ _) H0), (proj2 (Z.leb_le _ _) H1). reflexivity.
  - intros Hout.
    destruct (Z.leb_spec 0 k); cbn [andb]; [|reflexivity].
    destruct (Z.leb_spec k maxHours); [lia | reflexivity].
Qed.

Lemma ParseDelay_on_grammar_witness :
  Holdings.ParseDelay "-300Y" = (0%Z, None)
  ∧ Holdings.ParseDelay "-3Y"
    = ((- (Strconv.wrap64 (decimal "3" * unitHours "Y") * Time.Hour))%Z, None).
Proof.
  split.
  - apply (proj2 (ParseDelay_on_grammar "-300Y" "300" "Y"%char
                    ltac:(split; [reflexivity |
                          split; [split; [discriminate | reflexivity]
                                 | right; reflexivity]])
                    ltac:(reflexivity))).
    vm_compute. intros [_ H]. apply H. reflexivity.
  - apply (proj1 (ParseDelay_on_grammar "-3Y" "3" "Y"%char
                    ltac:(split; [reflexivity |
                          split; [split; [discriminate | reflexivity]
                                 | right; reflexivity]])
                    ltac:(reflexivity))).
    vm_compute. split; discriminate.
Defined.

(** ** More on the holdings map *)

Lemma HoldingsMap_lookup (tokens : list Holdings.Token) (id : string) :
  Holdings.HoldingsMap tokens !! id
  = last (filter (fun item => id ∈ Holdings.issns item) (Holdings.holdings tokens)).
Proof.
  unfold Holdings.HoldingsMap. rewrite fold_step_lookup, lookup_empty.
  destruct (last _); reflexivity.
Qed.

Lemma holdings_app (a b : list Holdings.Token) :
  Holdings.holdings (a ++ b) = Holdings.holdings a ++ Holdings.holdings b.
Proof. unfold Holdings.holdings. apply omap_app. Qed.

(** The map of a document read in two parts is the map of the second
    part laid over the map of the first; tokens that are not [holding]
    start elements do not count, and a document without holding element
    gives the empty map. *)
Theorem HoldingsMap_composes :
  (∀ a b, Holdings.HoldingsMap (a ++ b)
          = Holdings.HoldingsMap b ∪ Holdings.HoldingsMap a)
  ∧ (∀ t1 t2, Holdings.holdings t1 = Holdings.holdings t2 →
              Holdings.HoldingsMap t1 = Holdings.HoldingsMap t2)
  ∧ (∀ tokens, Holdings.holdings tokens = [] → Holdings.HoldingsMap tokens = ∅)
  ∧ (∀ tokens id item, Holdings.HoldingsMap tokens !! id = Some item →
       item ∈ Holdings.holdings tokens ∧ id ∈ Holdings.issns item).
Proof.
  split; [|split; [|split]].
  - intros a b. apply map_eq. intros id.
    rewrite lookup_union, !HoldingsMap_lookup, holdings_app, filter_app, last_app.
    destruct (last (filter _ (Holdings.holdings b)));
      destruct (last (filter _ (Holdings.holdings a))); reflexivity.
  - intros t1 t2 H. apply map_eq. intros id. rewrite !HoldingsMap_lookup, H. reflexivity.
  - intros tokens H. apply map_eq. intros id.
    rewrite HoldingsMap_lookup, H, lookup_empty. reflexivity.
  - intros tokens id item H. rewrite HoldingsMap_lookup in H.
    apply last_Some_elem_of in H. apply list_elem_of_filter in H. tauto.
Qed.

Lemma HoldingsMap_composes_witness :
  Holdings.HoldingsMap [Holdings.OtherToken; Holdings.StartElement "title" holdingA] = ∅
  ∧ holdingB ∈ Holdings.holdings twoHoldings.
Proof.
  split.
  - apply (proj1 (proj2 (proj2 HoldingsMap_composes))). reflexivity.
  - apply (proj2 (proj2 (proj2 HoldingsMap_composes)) twoHoldings "1610-2940" holdingB).
    vm_compute. reflexivity.
Defined.

(** ** More on crossref: pages and members *)

Lemma all_impl (p q : ascii -> bool) (s : string) :
  (∀ c, p c = true → q c = true) →
  GoStrings.all p s = true → GoStrings.all q s = true.
Proof.
  intros Hpq. induction s as [|c r IH]; [reflexivity |]. simpl.
  intros H. apply andb_true_iff in H as [Hc Hr].
  rewrite (Hpq c Hc), (IH Hr). reflexivity.
Qed.

Lemma digits_no_dash (s : string) :
  GoStrings.all Byte.isDigit s = true →
  GoStrings.all (fun c => negb (Byte.eqb "-" c)) s = true.
Proof.
  apply all_impl. intros c Hc. destruct (isDigit_not_sign c Hc) as [_ H].
  unfold Byte.eqb in *. rewrite Ascii.eqb_sym, H. reflexivity.
Qed.

Lemma digits_no_slash (s : string) :
  GoStrings.all Byte.isDigit s = true →
  GoStrings.all (fun c => negb (Byte.eqb "/" c)) s = true.
Proof.
  apply all_impl. intros c Hc. apply negb_true_iff. unfold Byte.eqb.
  apply Ascii.eqb_neq. intros <-. vm_compute in Hc. discriminate.
Qed.

Lemma parseUintLoop_range (s : string) (n : Z) :
  (0 <= n <= Strconv.maxUint64)%Z →
  (0 <= fst (Strconv.parseUintLoop n s) <= Strconv.maxUint64)%Z.
Proof.
  assert (Hmax : (Strconv.maxUint64 = 18446744073709551615)%Z) by reflexivity.
  revert n. induction s as [|c r IH]; intros n Hn; simpl; [lia |].
  destruct (Byte.isDigit c) eqn:Hc; simpl; [|lia].
  destruct (n >=? Strconv.maxUint64 / 10 + 1)%Z; simpl; [lia |].
  pose proof (digitVal_range c Hc).
  destruct (Z.gtb_spec (n * 10 + Byte.digitVal c) Strconv.maxUint64); simpl; [lia |].
  apply IH. lia.
Qed.

(** [strconv.Atoi] gives a negative number only to a string that begins
    with the minus sign. *)
Lemma Atoi_nonneg (s : string) :
  GoStrings.all (fun c => negb (Byte.eqb "-" c)) s = true →
  (0 <= fst (Strconv.Atoi s) <= Strconv.maxInt64)%Z.
Proof.
  assert (Hmax : (Strconv.maxInt64 = 9223372036854775807)%Z) by reflexivity.
  assert (H63 : (2 ^ 63 = 9223372036854775808)%Z) by reflexivity.
  destruct s as [|c r]; [intros _; simpl; lia |].
  intros H. cbn [GoStrings.all] in H. apply andb_true_iff in H as [Hc _].
  apply negb_true_iff in Hc. unfold Byte.eqb in Hc. rewrite Ascii.eqb_sym in Hc.
  unfold Strconv.Atoi, Byte.eqb. rewrite Hc.
  assert (Hgen : ∀ body,
            (0 <= fst (match Strconv.ParseUint body with
                       | (_, Some Strconv.ErrSyntax) => (0, Some Strconv.ErrSyntax)
                       | (un, _) =>
                           if negb false && (un >=? 2 ^ 63)
                           then (Strconv.maxInt64, Some Strconv.ErrRange)
                           else if false && (un >? 2 ^ 63)
                                then (Strconv.minInt64, Some Strconv.ErrRange)
                                else (un, None)
                       end) <= Strconv.maxInt64)%Z).
  { intros body.
    assert (Hu : (0 <= fst (Strconv.ParseUint body) <= Strconv.maxUint64)%Z).
    { unfold Strconv.ParseUint. destruct body; [vm_compute; split; discriminate |].
      apply parseUintLoop_range. vm_compute. split; discriminate. }
    destruct (Strconv.ParseUint body) as [un [[]|]]; cbn [fst negb andb] in *;
      try lia;
      rewrite H63; destruct (Z.geb_spec un 9223372036854775808); cbn [fst]; lia. }
  destruct (Ascii.eqb c "+"); apply Hgen.
Qed.

(** The page numbers of [Document.PageInfo] are never negative, whatever
    the page string: a minus sign is taken as the separator.  With both
    numbers in place the count is their difference if the end lies
    behind the start, and zero otherwise. *)
Theorem PageInfo_never_negative (doc : Crossref.Document) :
  let pi := Crossref.DocumentPageInfo doc in
  (0 <= Crossref.StartPage pi <= Strconv.maxInt64)%Z
  ∧ (0 <= Crossref.EndPage pi <= Strconv.maxInt64)%Z
  ∧ Crossref.RawMessage pi = Crossref.Page doc
  ∧ Crossref.PageCount pi
    = (if (0 <? Crossref.StartPage pi) && (Crossref.StartPage pi <? Crossref.EndPage pi)
       then Crossref.EndPage pi - Crossref.StartPage pi else 0)%Z.
Proof.
  assert (Hmax : (Strconv.maxInt64 = 9223372036854775807)%Z) by reflexivity.
  assert (Hbounds : (0 <= Crossref.StartPage (Crossref.DocumentPageInfo doc) <= Strconv.maxInt64)%Z
            ∧ (0 <= Crossref.EndPage (Crossref.DocumentPageInfo doc) <= Strconv.maxInt64)%Z
            ∧ Crossref.RawMessage (Crossref.DocumentPageInfo doc) = Crossref.Page doc).
  { unfold Crossref.DocumentPageInfo.
    pose proof (Split_parts "-" (Crossref.Page doc)) as [_ Hall].
    destruct (GoStrings.Split "-" (Crossref.Page doc)) as [|p0 [|p1 [|p2 ps]]];
      simpl; try (solve [repeat split; (lia || reflexivity)]).
    apply Forall_cons in Hall as [H0 Hall]. apply Forall_cons in Hall as [H1 _].
    pose proof (Atoi_nonneg p0 H0). pose proof (Atoi_nonneg p1 H1).
    destruct (Strconv.Atoi p0) as [s0 [e0|]]; simpl in *;
      try (solve [repeat split; (lia || reflexivity)]).
    destruct (Strconv.Atoi p1) as [s1 [e1|]]; simpl in *;
      repeat split; (lia || reflexivity). }
  intros pi. fold pi in Hbounds. destruct Hbounds as (Hs & He & Hraw).
  repeat split; try lia; try exact Hraw.
  unfold Crossref.PageCount.
  destruct (Z.eqb_spec (Crossref.StartPage pi) 0) as [H0|H0]; cbn [negb andb].
  - rewrite H0. reflexivity.
  - rewrite (proj2 (Z.ltb_lt 0 _)) by lia. cbn [andb].
    destruct (Z.eqb_spec (Crossref.EndPage pi) 0) as [H1|H1]; cbn [negb].
    + rewrite H1. rewrite (proj2 (Z.ltb_ge _ _)) by lia. reflexivity.
    + rewrite wrap64_small by (change (2 ^ 63)%Z with 9223372036854775808%Z; lia).
      destruct (Z.ltb_spec (Crossref.StartPage pi) (Crossref.EndPage pi)).
      * rewrite (proj2 (Z.gtb_gt _ _)) by lia. reflexivity.
      * destruct (Z.gtb_spec (Crossref.EndPage pi - Crossref.StartPage pi) 0);
          [lia | reflexivity].
Qed.

(** On a page string made of two strings of digits joined by a dash,
    both within the range of [int64], [Document.PageInfo] holds their
    decimal values, leading zeros dropped. *)
Theorem PageInfo_of_range (doc : Crossref.Document) (a b : string) :
  Crossref.Page doc = a +:+ String "-" b →
  isDigits a → isDigits b → (decimal a < 2 ^ 63)%Z → (decimal b < 2 ^ 63)%Z →
  Crossref.DocumentPageInfo doc
  = {| Crossref.RawMessage := Crossref.Page doc;
       Crossref.StartPage := decimal a; Crossref.EndPage := decimal b |}.
Proof.
  intros Hpage Ha Hb Hfa Hfb. unfold Crossref.DocumentPageInfo. rewrite Hpage.
  rewrite (Split_app "-" a b (digits_no_dash a (proj2 Ha))).
  rewrite (Split_no_sep "-" b (digits_no_dash b (proj2 Hb))).
  rewrite (Atoi_digits a Ha), (Atoi_digits b Hb).
  rewrite (proj2 (Z.ltb_lt _ _) Hfa), (proj2 (Z.ltb_lt _ _) Hfb). reflexivity.
Qed.

Lemma PageInfo_of_range_witness :
  Crossref.DocumentPageInfo (crossrefDocument "0073-100" EmptyString)
  = {| Crossref.RawMessage := "0073-100";
       Crossref.StartPage := decimal "0073"; Crossref.EndPage := decimal "100" |}.
Proof.
  apply (PageInfo_of_range (crossrefDocument "0073-100" EmptyString) "0073" "100").
  - reflexivity.
  - split; [discriminate | reflexivity].
  - split; [discriminate | reflexivity].
  - reflexivity.
  - reflexivity.
Defined.

(** [Document.ParseMemberID] reads the part of the member string behind
    its last slash: a string of digits there is the identifier, and an
    empty part, as in a member string that ends with a slash, is
    reported as an invalid member.  No other error is ever returned. *)
Theorem ParseMemberID_last_segment :
  (∀ doc prefix ds,
     Crossref.Member doc = prefix +:+ String "/" ds →
     isDigits ds → (decimal ds < 2 ^ 63)%Z →
     Crossref.ParseMemberID doc = (decimal ds, None))
  ∧ (∀ doc, isDigits (Crossref.Member doc) → (decimal (Crossref.Member doc) < 2 ^ 63)%Z →
            Crossref.ParseMemberID doc = (decimal (Crossref.Member doc), None))
  ∧ (∀ doc prefix,
       Crossref.Member doc = prefix +:+ "/" →
       Crossref.ParseMemberID doc
       = (0%Z, Some (Errors.ErrorString ("invalid member: " +:+ Crossref.Member doc))))
  ∧ (∀ doc e, snd (Crossref.ParseMemberID doc) = Some e →
              e = Errors.ErrorString ("invalid member: " +:+ Crossref.Member doc)).
Proof.
  split; [|split; [|split]].
  - intros doc prefix ds Hm Hds Hfit. unfold Crossref.ParseMemberID.
    rewrite Hm, Split_last, (Split_no_sep "/" ds (digits_no_slash ds (proj2 Hds))).
    cbn [last]. rewrite (Atoi_digits ds Hds), (proj2 (Z.ltb_lt _ _) Hfit). reflexivity.
  - intros doc Hds Hfit. unfold Crossref.ParseMemberID.
    rewrite (Split_no_sep "/" _ (digits_no_slash _ (proj2 Hds))).
    cbn [last]. rewrite (Atoi_digits _ Hds), (proj2 (Z.ltb_lt _ _) Hfit). reflexivity.
  - intros doc prefix Hm. unfold Crossref.ParseMemberID.
    rewrite Hm at 1. rewrite Split_last. reflexivity.
  - intros doc e. unfold Crossref.ParseMemberID.
    destruct (last _) as [f|]; [|intros [= <-]; reflexivity].
    destruct (Strconv.Atoi f) as [id [err|]]; [intros [= <-]; reflexivity | discriminate].
Qed.

(** ** More on iteration: a read that fails *)

(** Full batches in front of some records left over: how many of each. *)
Lemma fulls_pending {A : Type} (B : Z) (all : list A) (fulls : list (list A))
    (rest : list A) :
  (0 < B)%Z →
  Forall (fun b => Z.of_nat (length b) = B) fulls →
  (Z.of_nat (length rest) < B)%Z →
  concat fulls ++ rest = all →
  Z.of_nat (length fulls) = (Z.of_nat (length all) / B)%Z
  ∧ Z.of_nat (length rest) = (Z.of_nat (length all) mod B)%Z.
Proof.
  intros HB Hf Hr Hc.
  assert (HN : Z.of_nat (length all)
               = (B * Z.of_nat (length fulls) + Z.of_nat (length rest))%Z).
  { rewrite <- Hc, length_app, Nat2Z.inj_add, <- itemCount_concat,
      (itemCount_full B fulls Hf). lia. }
  split.
  - apply (Z.div_unique_pos _ B _ (Z.of_nat (length rest))); [lia | exact HN].
  - apply (Z.mod_unique_pos _ B (Z.of_nat (length fulls))); [lia | exact HN].
Qed.

Lemma crossref_loop_failure (B : Z) (reads rest : list Crossref.Read) :
  readable reads = true →
  ∀ Items i ch,
    Crossref.loop B (reads ++ Crossref.Failure :: rest) Items i ch
    = {| Crossref.sent := removelast (Crossref.sent (Crossref.loop B reads Items i ch));
         Crossref.fatal := true |}.
Proof.
  induction reads as [|r reads IH]; intros Hread Items i ch.
  - simpl. rewrite removelast_last. reflexivity.
  - destruct r as [line|]; [|discriminate]. simpl in Hread.
    rewrite <- app_comm_cons. cbn [Crossref.loop].
    destruct (i =? B)%Z; apply IH; exact Hread.
Qed.

Lemma genios_loop_failure (B : Z) (tokens rest : list GeniosLegacy.Token) :
  GeniosLegacy.decodes tokens = true →
  ∀ docs i ch,
    GeniosLegacy.loop B
      (tokens ++ GeniosLegacy.StartElement "Document" None :: rest) docs i ch
    = {| GeniosLegacy.sent :=
           removelast (GeniosLegacy.sent (GeniosLegacy.loop B tokens docs i ch));
         GeniosLegacy.fatal := true |}.
Proof.
  induction tokens as [|t tokens IH]; intros Hdec docs i ch.
  - simpl. rewrite removelast_last. reflexivity.
  - rewrite <- app_comm_cons. simpl in Hdec. apply andb_true_iff in Hdec as [Ht Hdec].
    cbn [GeniosLegacy.loop]. destruct t as [local [doc|]|].
    + destruct (String.eqb local "Document"); [|apply IH; exact Hdec].
      destruct (i + 1 =? B)%Z; apply IH; exact Hdec.
    + apply negb_true_iff in Ht. rewrite Ht. apply IH; exact Hdec.
    + apply IH; exact Hdec.
Qed.

(** When a read fails with an error other than the end of the input,
    [Crossref.Iterate] has sent full batches only: the lines read since
    the last full batch, as many as the remainder of the number of lines
    by the batch size, are never sent, no last batch follows, and what
    comes after the failing read plays no part. *)
Theorem Iterate_failure_drops_pending (B : Z) (reads rest : list Crossref.Read) :
  (0 < B)%Z → readable reads = true →
  let out := Crossref.IterateWith B (reads ++ Crossref.Failure :: rest) in
  let N := Z.of_nat (length (lines reads)) in
  Crossref.fatal out = true
  ∧ Forall (fun b => Z.of_nat (length b) = B) (Crossref.sent out)
  ∧ Z.of_nat (length (Crossref.sent out)) = (N / B)%Z
  ∧ ∃ pending, concat (Crossref.sent out) ++ pending = lines reads
               ∧ Z.of_nat (length pending) = (N mod B)%Z.
Proof.
  intros HB Hread out N.
  destruct (crossref_batched B reads HB Hread) as [_ (fulls & pending & Hs & Hf & Hr & Hc)].
  assert (Hout : out = {| Crossref.sent := fulls; Crossref.fatal := true |}).
  { unfold out, Crossref.IterateWith. rewrite (crossref_loop_failure B reads rest Hread).
    fold (Crossref.IterateWith B reads). rewrite Hs, removelast_last. reflexivity. }
  destruct (fulls_pending B (lines reads) fulls pending HB Hf Hr Hc) as [Hn Hp].
  rewrite Hout. cbn [Crossref.sent Crossref.fatal].
  split; [reflexivity |]. split; [exact Hf |]. split; [exact Hn |].
  exists pending. split; [exact Hc | exact Hp].
Qed.

Lemma Iterate_failure_drops_pending_witness :
  let out := Crossref.IterateWith 2
               ([Crossref.Line "a"; Crossref.Line "b"; Crossref.Line "c"]
                ++ Crossref.Failure :: [Crossref.Line "d"]) in
  Crossref.sent out = [["a"; "b"]]
  ∧ Crossref.fatal out = true
  ∧ Forall (fun b => Z.of_nat (length b) = 2%Z) (Crossref.sent out).
Proof.
  pose proof (Iterate_failure_drops_pending 2
                [Crossref.Line "a"; Crossref.Line "b"; Crossref.Line "c"]
                [Crossref.Line "d"] ltac:(lia) eq_refl) as (Hfatal & Hfull & _).
  split; [reflexivity |]. split; [exact Hfatal | exact Hfull].
Defined.

(** The same for the legacy genios iterator when a [Document] element
    fails to decode: full batches only have been sent, and the documents
    decoded since the last full batch are lost. *)
Theorem genios_Iterate_failure_drops_pending (B : Z)
    (tokens rest : list GeniosLegacy.Token) :
  (0 < B)%Z → GeniosLegacy.decodes tokens = true →
  let out := GeniosLegacy.IterateWith B
               (tokens ++ GeniosLegacy.StartElement "Document" None :: rest) in
  let N := Z.of_nat (length (GeniosLegacy.documents tokens)) in
  GeniosLegacy.fatal out = true
  ∧ Forall (fun b => Z.of_nat (length b) = B) (GeniosLegacy.sent out)
  ∧ Z.of_nat (length (GeniosLegacy.sent out)) = (N / B)%Z
  ∧ ∃ pending, concat (GeniosLegacy.sent out) ++ pending = GeniosLegacy.documents tokens
               ∧ Z.of_nat (length pending) = (N mod B)%Z.
Proof.
  intros HB Hdec out N.
  destruct (genios_batched B tokens HB Hdec) as [_ (fulls & pending & Hs & Hf & Hr & Hc)].
  assert (Hout : out = {| GeniosLegacy.sent := fulls; GeniosLegacy.fatal := true |}).
  { unfold out, GeniosLegacy.IterateWith.
    rewrite (genios_loop_failure B tokens rest Hdec).
    fold (GeniosLegacy.IterateWith B tokens). rewrite Hs, removelast_last. reflexivity. }
  destruct (fulls_pending B _ fulls pending HB Hf Hr Hc) as [Hn Hp].
  rewrite Hout. cbn [GeniosLegacy.sent GeniosLegacy.fatal].
  split; [reflexivity |]. split; [exact Hf |]. split; [exact Hn |].
  exists pending. split; [exact Hc | exact Hp].
Qed.

Lemma genios_Iterate_failure_drops_pending_witness :
  let out := GeniosLegacy.IterateWith 2
               ([GeniosLegacy.StartElement "Document" (Some (legacyDocument "a"));
                 GeniosLegacy.OtherToken;
                 GeniosLegacy.StartElement "Document" (Some (legacyDocument "b"));
                 GeniosLegacy.StartElement "Document" (Some (legacyDocument "c"))]
                ++ GeniosLegacy.StartElement "Document" None
                   :: [GeniosLegacy.StartElement "Document" (Some (legacyDocument "d"))]) in
  GeniosLegacy.sent out = [[legacyDocument "a"; legacyDocument "b"]]
  ∧ GeniosLegacy.fatal out = true
  ∧ Forall (fun b => Z.of_nat (length b) = 2%Z) (GeniosLegacy.sent out).
Proof.
  pose proof (genios_Iterate_failure_drops_pending 2
                [GeniosLegacy.StartElement "Document" (Some (legacyDocument "a"));
                 GeniosLegacy.OtherToken;
                 GeniosLegacy.StartElement "Document" (Some (legacyDocument "b"));
                 GeniosLegacy.StartElement "Document" (Some (legacyDocument "c"))]
                [GeniosLegacy.StartElement "Document" (Some (legacyDocument "d"))]
                ltac:(lia) eq_refl) as (Hfatal & Hfull & _).
  split; [reflexivity |]. split; [exact Hfatal | exact Hfull].
Defined.

(** ** More on genios: authors and packages *)

Lemma infix_refl (s : string) : infix s s.
Proof. exists EmptyString, EmptyString. rewrite append_nil_l, append_nil_r. reflexivity. Qed.

Lemma infix_trans (a b c : string) : infix a b → infix b c → infix a c.
Proof.
  intros (p1 & q1 & ->) (p2 & q2 & ->).
  exists (p2 +:+ p1), (q1 +:+ q2). rewrite !append_assoc. reflexivity.
Qed.

Lemma fieldsAux_infix (f : ascii -> bool) (s cur x : string) :
  In x (GoStrings.fieldsAux f s cur) → infix x (GoStrings.rev cur +:+ s).
Proof.
  revert cur. induction s as [|c r IH]; intros cur; simpl.
  - destruct (String.eqb cur EmptyString); simpl; [tauto |].
    intros [<- | []]. rewrite append_nil_r. apply infix_refl.
  - destruct (f c).
    + intros Hin. apply in_app_or in Hin as [Hin | Hin].
      * destruct (String.eqb cur EmptyString); simpl in Hin; [tauto |].
        destruct Hin as [<- | []]. exists EmptyString, (String c r). reflexivity.
      * destruct (IH EmptyString Hin) as (pre & post & Hr).
        change (GoStrings.rev EmptyString +:+ r) with r in Hr.
        exists (GoStrings.rev cur +:+ String c pre), post.
        rewrite Hr, !append_assoc, append_cons. reflexivity.
    + intros Hin. specialize (IH (String c cur) Hin).
      rewrite rev_cons, append_assoc in IH. exact IH.
Qed.

(** The fields of [strings.FieldsFunc] are pieces of the string. *)
Lemma FieldsFunc_infix (f : ascii -> bool) (s x : string) :
  In x (GoStrings.FieldsFunc s f) → infix x s.
Proof. intros H. exact (fieldsAux_infix f s EmptyString x H). Qed.

(** Every author that [Document.Authors] returns has a name only: a
    trimmed piece of one of the raw author strings, of at least four and
    less than 200 bytes, with no semicolon and no slash in it, and none
    of the clues that mark a non-name. *)
Theorem Authors_screened (doc : Genios.Document) (a : Finc.Author) :
  In a (Genios.Authors doc) →
  ∃ name, a = Finc.AuthorName name
    ∧ (4 <= String.length name < 200)%nat
    ∧ GoStrings.all (fun c => negb (Byte.eqb c ";" || Byte.eqb c "/")) name = true
    ∧ (∀ clue, In clue Genios.clues → GoStrings.Contains name clue = false)
    ∧ ∃ s, In s (Genios.RawAuthors doc) ∧ infix name s.
Proof.
  unfold Genios.Authors. intros Ha.
  apply in_flat_map in Ha as (s & Hs & Ha).
  apply in_flat_map in Ha as (f & Hf & Ha).
  destruct (Genios.isNomenNescio f); [destruct Ha |].
  destruct (Nat.ltb_spec (String.length (GoStrings.TrimSpace f)) Genios.minAuthorLength)
    as [|Hmin]; [destruct Ha |].
  destruct (Genios.stringContainsAny (GoStrings.TrimSpace f) Genios.clues) eqn:Hclue;
    [destruct Ha |].
  destruct (Nat.ltb_spec (String.length (GoStrings.TrimSpace f)) Genios.maxAuthorLength)
    as [Hmax|]; [|destruct Ha].
  destruct Ha as [<- | []]. exists (GoStrings.TrimSpace f).
  split; [reflexivity |]. split; [exact (conj Hmin Hmax) |]. split; [|split].
  - apply TrimSpace_all.
    destruct (FieldsFunc_fields _ _ _ Hf) as [_ Hall].
    revert Hall. apply all_impl. intros c Hc.
    destruct (60 <? String.length s)%nat; simpl in Hc |- *;
      destruct (Byte.eqb c ";"), (Byte.eqb c "/"); simpl in *; congruence.
  - intros clue Hin. unfold Genios.stringContainsAny in Hclue.
    destruct (GoStrings.Contains (GoStrings.TrimSpace f) clue) eqn:E; [|reflexivity].
    assert (existsb (GoStrings.Contains (GoStrings.TrimSpace f)) Genios.clues = true)
      by (apply existsb_exists; eauto).
    congruence.
  - exists s. split; [exact Hs |].
    apply (infix_trans _ f); [apply TrimSpace_infix | exact (FieldsFunc_infix _ _ _ Hf)].
Qed.

Lemma Authors_screened_witness :
  ∃ name, Finc.AuthorName "Doe, John" = Finc.AuthorName name
    ∧ (4 <= String.length name < 200)%nat
    ∧ GoStrings.all (fun c => negb (Byte.eqb c ";" || Byte.eqb c "/")) name = true
    ∧ (∀ clue, In clue Genios.clues → GoStrings.Contains name clue = false)
    ∧ ∃ s, In s (Genios.RawAuthors (geniosAuthored ["n.n.; Doe, John /www.example.com"]))
           ∧ infix name s.
Proof.
  apply (Authors_screened (geniosAuthored ["n.n.; Doe, John /www.example.com"])).
  vm_compute. left. reflexivity.
Defined.

(** *** Descending sort *)

Lemma leb_trans (a b c : string) :
  String.leb a b = true → String.leb b c = true → String.leb a c = true.
Proof.
  unfold String.leb. intros Hab Hbc.
  destruct (String.compare a b) eqn:Eab; try discriminate.
  - apply String.compare_eq_iff in Eab. subst. exact Hbc.
  - destruct (String.compare b c) eqn:Ebc; try discriminate.
    + apply String.compare_eq_iff in Ebc. subst. rewrite Eab. reflexivity.
    + assert (H : String.compare a c = Lt).
      { apply OrderedTypeEx.String_as_OT.cmp_lt.
        apply (OrderedTypeEx.String_as_OT.lt_trans a b c);
          apply OrderedTypeEx.String_as_OT.cmp_lt; assumption. }
      rewrite H. reflexivity.
Qed.

Lemma insertDesc_perm (x : string) (l : list string) :
  Permutation (Genios.insertDesc x l) (x :: l).
Proof.
  induction l as [|y r IH]; simpl; [reflexivity |].
  destruct (String.leb y x); [reflexivity |].
  rewrite IH. apply perm_swap.
Qed.

Lemma insertDesc_descending (x : string) (l : list string) :
  descending l → descending (Genios.insertDesc x l).
Proof.
  unfold descending. induction 1 as [|y r Hr IH Hy]; simpl.
  - repeat constructor.
  - destruct (String.leb y x) eqn:Hyx.
    + constructor; [constructor; assumption |].
      constructor; [exact Hyx |].
      rewrite Forall_forall in Hy |- *. intros z Hz.
      apply (leb_trans z y x); [apply Hy; exact Hz | exact Hyx].
    + constructor; [exact IH |].
      rewrite (insertDesc_perm x r).
      constructor; [|exact Hy].
      destruct (String.leb_total x y) as [H | H]; [exact H | congruence].
Qed.

Lemma sortReverse_spec (l : list string) :
  Permutation (Genios.sortReverse l) l ∧ descending (Genios.sortReverse l).
Proof.
  induction l as [|x l [IHp IHs]]; simpl.
  - split; [reflexivity | constructor].
  - split; [rewrite insertDesc_perm, IHp; reflexivity |].
    apply insertDesc_descending. exact IHs.
Qed.

(** A record the genios conversion returns without an error carries the
    composed ID, of at most 250 bytes, a title of at most 2048 bytes, the
    date that [Document.Date] parsed and its printed form, and the URL of
    the document.  Its packages are the database name, the prefixed
    package names of the database in descending byte order, and the
    modules; its one mega collection is the greatest of the prefixed
    names, or [Genios] when the database has none. *)
Theorem genios_record_shape
    (findISSN : string -> list string) (detect : string -> option string)
    (lookup : string -> list string -> list string)
    (values : list string -> list string)
    (doc : Genios.Document) (out : Finc.IntermediateSchema) :
  Genios.ToIntermediateSchema findISSN detect lookup values doc = (out, None) →
  let names := List.map (fun name => "Genios (" +:+ name +:+ ")")
                 (lookup (Genios.DB doc) []) in
  Finc.ID out = Genios.FincID doc
  ∧ (String.length (Finc.ID out) <= 250)%nat
  ∧ (String.length (Finc.ArticleTitle out) <= 2048)%nat
  ∧ Finc.SourceID out = "48"
  ∧ Finc.URL out = [Genios.URL doc]
  ∧ Genios.Date doc = inr (Finc.Date out)
  ∧ Finc.RawDate out = Time.Format (Finc.Date out)
  ∧ Finc.Authors out = Genios.Authors doc
  ∧ (∃ sorted, Finc.Packages out = Genios.DB doc :: sorted ++ Genios.Modules doc
               ∧ Permutation sorted names ∧ descending sorted)
  ∧ (∃ c, Finc.MegaCollections out = [c]
          ∧ (names = [] → c = "Genios")
          ∧ (names ≠ [] → In c names)
          ∧ (∀ n, In n names → String.leb n c = true)).
Proof.
  intros Hconv names. unfold Genios.ToIntermediateSchema in Hconv.
  destruct (Genios.Date doc) as [e|date]; [discriminate |].
  destruct (Nat.ltb_spec Genios.maxTitleLength
              (String.length (GoStrings.TrimSpace (Genios.Title doc)))) as [|Htitle];
    [discriminate |].
  destruct (Nat.ltb_spec Span.KeyLengthLimit (String.length (Genios.FincID doc)))
    as [|Hid]; [discriminate |].
  injection Hconv as <-. cbn [Finc.ID Finc.ArticleTitle Finc.SourceID Finc.URL Finc.Date
    Finc.RawDate Finc.Authors Finc.Packages Finc.MegaCollections].
  fold names.
  destruct (sortReverse_spec names) as [Hperm Hdesc].
  split; [reflexivity |]. split; [exact Hid |]. split; [exact Htitle |].
  split; [reflexivity |]. split; [reflexivity |]. split; [reflexivity |].
  split; [reflexivity |]. split; [reflexivity |]. split.
  - exists (Genios.sortReverse names). split; [reflexivity |]. split; assumption.
  - destruct (Genios.sortReverse names) as [|first others] eqn:Hsorted.
    + exists "Genios". split; [reflexivity |].
      apply Permutation_nil in Hperm.
      split; [reflexivity |]. split; [congruence |]. rewrite Hperm. intros n [].
    + exists first. split; [reflexivity |].
      assert (Hfirst : In first names).
      { apply (Permutation_in first Hperm). left. reflexivity. }
      split; [intros Hnil; rewrite Hnil in Hfirst; destruct Hfirst |].
      split; [intros _; exact Hfirst |].
      intros n Hn. apply (Permutation_in n (Permutation_sym Hperm)) in Hn.
      destruct Hn as [<- | Hn].
      * destruct (String.leb_total first first); assumption.
      * unfold descending in Hdesc. apply StronglySorted_inv in Hdesc as [_ Hall].
        rewrite Forall_forall in Hall. apply Hall, list_elem_of_In, Hn.
Qed.

Lemma genios_record_shape_witness :
  ∃ c, Finc.MegaCollections
         (fst (Genios.ToIntermediateSchema (fun _ => []) (fun _ => None)
                 (fun _ _ => ["Fachzeitschriften"; "LIT"; "Wiwi"]) (fun l => l)
                 (geniosAuthored []))) = [c]
       ∧ In c ["Genios (Fachzeitschriften)"; "Genios (LIT)"; "Genios (Wiwi)"]
       ∧ String.leb "Genios (LIT)" c = true.
Proof.
  destruct (genios_record_shape (fun _ => []) (fun _ => None)
              (fun _ _ => ["Fachzeitschriften"; "LIT"; "Wiwi"]) (fun l => l)
              (geniosAuthored []) _ eq_refl)
    as (_ & _ & _ & _ & _ & _ & _ & _ & _ & c & Hc & _ & Hin & Hmax).
  exists c. split; [exact Hc |].
  split; [apply Hin; discriminate | apply Hmax; right; left; reflexivity].
Defined.

(** The genios conversion reports nothing but skips: a date that does
    not parse, a title of more than 2048 bytes or an ID of more than 250
    bytes each give a [span.Skip], and the record that comes with it has
    no ID. *)
Theorem genios_errors_are_skips
    (findISSN : string -> list string) (detect : string -> option string)
    (lookup : string -> list string -> list string)
    (values : list string -> list string) (doc : Genios.Document) :
  let result := Genios.ToIntermediateSchema findISSN detect lookup values doc in
  (snd result = None
   ↔ (∃ date, Genios.Date doc = inr date)
     ∧ (String.length (GoStrings.TrimSpace (Genios.Title doc)) <= 2048)%nat
     ∧ (String.length (Genios.FincID doc) <= 250)%nat)
  ∧ (∀ e, snd result = Some e →
          Errors.isSkip e = true ∧ Finc.ID (fst result) = EmptyString).
Proof.
  unfold Genios.ToIntermediateSchema.
  destruct (Genios.Date doc) as [e|date].
  { cbn [fst snd]. split.
    - split; [discriminate |]. intros ((date & Hd) & _). discriminate.
    - intros e' [= <-]. split; reflexivity. }
  destruct (Nat.ltb_spec Genios.maxTitleLength
              (String.length (GoStrings.TrimSpace (Genios.Title doc)))) as [Htitle|Htitle].
  { cbn [fst snd Finc.ID]. split.
    - split; [discriminate |]. intros (_ & H & _).
      unfold Genios.maxTitleLength in Htitle. lia.
    - intros e' [= <-]. split; reflexivity. }
  destruct (Nat.ltb_spec Span.KeyLengthLimit (String.length (Genios.FincID doc)))
    as [Hid|Hid].
  { cbn [fst snd Finc.ID]. split.
    - split; [discriminate |]. intros (_ & _ & H).
      unfold Span.KeyLengthLimit in Hid. lia.
    - intros e' [= <-]. split; reflexivity. }
  cbn [fst snd]. split.
  - split; [intros _ | reflexivity].
    split; [eauto |]. split; [exact Htitle | exact Hid].
  - discriminate.
Qed.

(** ** More on ISSN: the printed form *)

Lemma take_drop (n : nat) (s : string) :
  GoStrings.take n s +:+ GoStrings.drop n s = s.
Proof.
  revert s. induction n as [|n IH]; intros s; [reflexivity |].
  destruct s as [|c r]; [reflexivity |]. simpl. rewrite append_cons, IH. reflexivity.
Qed.

Lemma length_take (n : nat) (s : string) :
  (n <= String.length s)%nat → String.length (GoStrings.take n s) = n.
Proof.
  revert s. induction n as [|n IH]; intros s H; [reflexivity |].
  destruct s as [|c r]; simpl in *; [lia |]. rewrite IH; [reflexivity | lia].
Qed.

Lemma ReplacerReplace_app (pairs : list (ascii * string)) (a b : string) :
  GoStrings.ReplacerReplace pairs (a +:+ b)
  = GoStrings.ReplacerReplace pairs a +:+ GoStrings.ReplacerReplace pairs b.
Proof.
  induction a as [|c a IH]; [reflexivity |].
  rewrite append_cons. simpl. rewrite IH, append_assoc. reflexivity.
Qed.

Lemma issnByte_cases (c : ascii) :
  issnByte c = true →
  In c ["0"; "1"; "2"; "3"; "4"; "5"; "6"; "7"; "8"; "9"; "X"]%char.
Proof.
  destruct c as [[] [] [] [] [] [] [] []]; intros H;
    try (vm_compute in H; discriminate H); simpl; auto 12.
Qed.

(** The hyphen and the space are replaced, a lower-case letter is
    raised, white space is trimmed: a digit or an [X] is none of these. *)
Lemma issnByte_kept (c : ascii) (r : string) :
  issnByte c = true →
  GoStrings.replaceByte Span.replacer c = String c EmptyString
  ∧ Byte.toUpper c = c
  ∧ GoStrings.stripOne GoStrings.whiteSpace (String c r) = None
  ∧ GoStrings.stripOne (List.map GoStrings.rev GoStrings.whiteSpace) (String c r) = None.
Proof.
  intros H. apply issnByte_cases in H. simpl in H.
  repeat (destruct H as [<- | H]; [repeat split; reflexivity |]). destruct H.
Qed.

Lemma trimLeft_issn (ws : list string) (fuel : nat) (s : string) :
  (∀ c r, issnByte c = true → GoStrings.stripOne ws (String c r) = None) →
  GoStrings.all issnByte s = true →
  GoStrings.trimLeftFuel fuel ws s = s.
Proof.
  intros Hws Hs. destruct s as [|c r].
  - induction fuel as [|fuel IH]; [reflexivity |]. simpl.
    destruct (GoStrings.stripOne ws EmptyString) as [r|] eqn:E; [|reflexivity].
    apply stripOne_spec in E as (w & _ & Hw).
    destruct w; [|discriminate]. rewrite append_nil_l in Hw. subst r. exact IH.
  - destruct fuel as [|fuel]; [reflexivity |]. simpl.
    simpl in Hs. apply andb_true_iff in Hs as [Hc _]. rewrite (Hws c r Hc). reflexivity.
Qed.

Lemma normalize_issn (t : string) :
  GoStrings.all issnByte t = true →
  GoStrings.ReplacerReplace Span.replacer t = t
  ∧ GoStrings.ToUpper t = t
  ∧ GoStrings.TrimSpace t = t.
Proof.
  intros Ht. split; [|split].
  - induction t as [|c r IH]; [reflexivity |].
    simpl in Ht. apply andb_true_iff in Ht as [Hc Hr]. cbn [GoStrings.ReplacerReplace].
    destruct (issnByte_kept c r Hc) as (-> & _). rewrite (IH Hr). reflexivity.
  - unfold GoStrings.ToUpper. induction t as [|c r IH]; [reflexivity |].
    simpl in Ht. apply andb_true_iff in Ht as [Hc Hr]. cbn [GoStrings.map].
    destruct (issnByte_kept c r Hc) as (_ & -> & _). rewrite (IH Hr). reflexivity.
  - unfold GoStrings.TrimSpace, GoStrings.TrimLeftSpace.
    rewrite (trimLeft_issn GoStrings.whiteSpace _ t); [|intros c r Hc | exact Ht].
    2:{ apply (issnByte_kept c r Hc). }
    unfold GoStrings.TrimRightSpace.
    rewrite (trimLeft_issn _ _ (GoStrings.rev t)).
    + apply rev_involutive.
    + intros c r Hc. apply (issnByte_kept c r Hc).
    + rewrite all_rev. exact Ht.
Qed.

Lemma wellFormed_issnBytes (t : string) :
  wellFormedISSN t → GoStrings.all issnByte t = true.
Proof.
  intros (d & c & -> & _ & Hd & Hc). rewrite all_append. apply andb_true_iff. split.
  - revert Hd. apply all_impl. intros x Hx. unfold issnByte. rewrite Hx. reflexivity.
  - simpl. rewrite andb_true_r. unfold issnByte.
    destruct Hc as [Hc | ->]; [rewrite Hc |]; reflexivity.
Qed.

Lemma issnByte_ascii (t : string) :
  GoStrings.all issnByte t = true → Span.isASCII t = true.
Proof.
  apply all_impl. intros c Hc. apply issnByte_cases in Hc. simpl in Hc.
  repeat (destruct Hc as [<- | Hc]; [reflexivity |]). destruct Hc.
Qed.

Lemma replaced_ascii (s : string) :
  Span.isASCII s = true →
  Span.isASCII (GoStrings.ReplacerReplace Span.replacer s) = true.
Proof.
  unfold Span.isASCII. induction s as [|c r IH]; [reflexivity |].
  cbn [GoStrings.all GoStrings.ReplacerReplace]. intros H.
  apply andb_true_iff in H as [Hc Hr]. rewrite all_append, (IH Hr), andb_true_r.
  unfold Span.replacer. cbn [GoStrings.replaceByte].
  destruct (Byte.eqb "-" c); [reflexivity |].
  destruct (Byte.eqb " " c); [reflexivity |].
  cbn [GoStrings.all]. rewrite Hc. reflexivity.
Qed.

(** On a string of ASCII bytes the normal form of [String] is that of
    [Validate]. *)
Lemma normalForm_ascii (up : string -> string) (s : string) :
  Span.isASCII s = true → Span.normalForm up s = Span.normalize s.
Proof.
  intros H. unfold Span.normalForm, Span.ToUpper, Span.normalize.
  rewrite (replaced_ascii s H). reflexivity.
Qed.

(** Whatever the Unicode case tables do to a string that is not ASCII:
    when the normal form of the input is a well-formed ISSN, seven digits
    and a digit or [X], [ISSN.String] prints it with a hyphen after the
    fourth byte: nine bytes that validate, have the same normal form and
    are printed as they are.  When the normal form is not eight bytes
    long, [ISSN.String] gives the input back unchanged.  On an input of
    ASCII bytes the normal form is the one [Validate] judges, so there
    the first case is that of an ISSN that validates. *)
Theorem ISSN_String_canonical (up : string -> string) :
  (∀ s, wellFormedISSN (Span.normalForm up s) →
     let t := Span.normalForm up s in
     let h := Span.ISSN_String up s in
     h = GoStrings.take 4 t +:+ "-" +:+ GoStrings.drop 4 t
     ∧ String.length h = 9%nat
     ∧ Span.normalForm up h = t
     ∧ Span.Validate h = None
     ∧ Span.ISSN_String up h = h)
  ∧ (∀ s, String.length (Span.normalForm up s) ≠ 8%nat → Span.ISSN_String up s = s)
  ∧ (∀ s, Span.isASCII s = true →
          Span.normalForm up s = Span.normalize s
          ∧ (Span.Validate s = None ↔ wellFormedISSN (Span.normalForm up s))).
Proof.
  split; [|split].
  - intros s Hwf t h. fold t in Hwf.
    pose proof (wellFormedISSN_length t Hwf) as Hlen.
    assert (Hh : h = GoStrings.take 4 t +:+ "-" +:+ GoStrings.drop 4 t).
    { unfold h, Span.ISSN_String. fold t. rewrite Hlen. reflexivity. }
    assert (Hbytes : GoStrings.all issnByte t = true)
      by (apply wellFormed_issnBytes, Hwf).
    assert (Hascii : Span.isASCII h = true).
    { rewrite Hh. unfold Span.isASCII. rewrite !all_append.
      pose proof (issnByte_ascii t Hbytes) as Ht. unfold Span.isASCII in Ht.
      rewrite <- (take_drop 4 t), all_append in Ht.
      apply andb_true_iff in Ht as [-> ->]. reflexivity. }
    assert (Hnorm : Span.normalize h = t).
    { unfold Span.normalize. rewrite Hh, ReplacerReplace_app.
      change (GoStrings.ReplacerReplace Span.replacer ("-" +:+ GoStrings.drop 4 t))
        with (GoStrings.ReplacerReplace Span.replacer (GoStrings.drop 4 t)).
      rewrite <- ReplacerReplace_app, take_drop.
      destruct (normalize_issn t Hbytes) as (-> & -> & ->). reflexivity. }
    assert (Hform : Span.normalForm up h = t)
      by (rewrite (normalForm_ascii up h Hascii); exact Hnorm).
    split; [exact Hh |]. split; [|split; [exact Hform |split]].
    + pose proof (f_equal String.length (take_drop 4 t)) as Hsum.
      rewrite length_append, length_take in Hsum by lia.
      rewrite Hh, !length_append, length_take by lia.
      change (String.length "-") with 1%nat. lia.
    + unfold Span.Validate. rewrite Hnorm, Hlen.
      rewrite (proj2 (pattern_Match_spec t) Hwf). reflexivity.
    + unfold Span.ISSN_String. rewrite Hform, Hlen. simpl. symmetry. exact Hh.
  - intros s Hlen. unfold Span.ISSN_String.
    destruct (Nat.eqb_spec (String.length (Span.normalForm up s)) 8); [contradiction |].
    reflexivity.
  - intros s Hs. rewrite (normalForm_ascii up s Hs). split; [reflexivity |].
    unfold Span.Validate. split.
    + destruct (String.length (Span.normalize s) =? 8)%nat; [|discriminate].
      destruct (Span.pattern_Match (Span.normalize s)) eqn:E; [|discriminate].
      intros _. apply pattern_Match_spec. exact E.
    + intros Hw. rewrite (wellFormedISSN_length _ Hw).
      rewrite (proj2 (pattern_Match_spec _) Hw). reflexivity.
Qed.

Lemma ISSN_String_canonical_witness :
  Span.ISSN_String (fun s => s) " 1050 124x" = "1050-124X"
  ∧ Span.Validate (Span.ISSN_String (fun s => s) " 1050 124x") = None
  ∧ Span.ISSN_String (fun s => s) (Span.ISSN_String (fun s => s) " 1050 124x")
    = Span.ISSN_String (fun s => s) " 1050 124x".
Proof.
  assert (Hwf : wellFormedISSN (Span.normalForm (fun s => s) " 1050 124x"))
    by (apply pattern_Match_spec; reflexivity).
  destruct (proj1 (ISSN_String_canonical (fun s => s)) " 1050 124x" Hwf)
    as (H & _ & _ & Hv & Hfix).
  split; [exact H |]. split; [exact Hv | exact Hfix].
Defined.

(** ** More on identifiers: base64 is injective *)

Lemma in_range (k : nat) (n : N) :
  (n < N.of_nat k)%N → In n (List.map N.of_nat (seq 0 k)).
Proof.
  intros H. apply in_map_iff. exists (N.to_nat n). split; [apply N2Nat.id |].
  apply in_seq. lia.
Qed.

Lemma sextets_checked :
  forallb (fun a => forallb (sextetCheck a) byteRange) byteRange = true.
Proof. vm_compute. reflexivity. Qed.

Lemma sextets_facts (x y : ascii) :
  let a := Byte.code x in
  let b := Byte.code y in
  N.lor (N.shiftl (N.shiftr a 4) 4) (N.land a 15) = a
  ∧ N.lor (N.shiftl (N.shiftr a 6) 6) (sextet4 a) = a
  ∧ N.lor (N.shiftl (sextet1 a) 2) (N.shiftr (sextet2 a b) 4) = a
  ∧ N.lor (N.shiftl (sextet1 a) 2) (N.shiftr (sextet2' a) 4) = a
  ∧ N.land (sextet2 a b) 15 = N.shiftr b 4
  ∧ N.shiftr (sextet3 a b) 2 = N.land a 15
  ∧ N.shiftr (sextet3' a) 2 = N.land a 15
  ∧ N.land (sextet3 a b) 3 = N.shiftr b 6
  ∧ (sextet1 a < 64 ∧ sextet4 a < 64 ∧ sextet2' a < 64 ∧ sextet3' a < 64
     ∧ sextet2 a b < 64 ∧ sextet3 a b < 64)%N.
Proof.
  intros a b.
  assert (Ha : In a byteRange) by (apply (in_range 256), N_ascii_bounded).
  assert (Hb : In b byteRange) by (apply (in_range 256), N_ascii_bounded).
  pose proof sextets_checked as H. rewrite forallb_forall in H.
  specialize (H a Ha). rewrite forallb_forall in H. specialize (H b Hb).
  unfold sextetCheck in H.
  repeat (apply andb_true_iff in H as [H ?]).
  repeat match goal with
         | H : (_ =? _)%N = true |- _ => apply N.eqb_eq in H
         | H : (_ <? _)%N = true |- _ => apply N.ltb_lt in H
         end.
  repeat split; assumption.
Qed.

Lemma code_inj (a b : ascii) : Byte.code a = Byte.code b → a = b.
Proof.
  unfold Byte.code. intros H.
  rewrite <- (ascii_N_embedding a), <- (ascii_N_embedding b), H. reflexivity.
Qed.

Lemma sextets_one (a a' : ascii) :
  sextet1 (Byte.code a) = sextet1 (Byte.code a') →
  sextet2' (Byte.code a) = sextet2' (Byte.code a') → a = a'.
Proof.
  intros H1 H2. apply code_inj.
  destruct (sextets_facts a a) as (_ & _ & _ & E & _).
  destruct (sextets_facts a' a') as (_ & _ & _ & E' & _).
  rewrite <- E, <- E', H1, H2. reflexivity.
Qed.

Lemma sextets_two (a b a' b' : ascii) :
  sextet1 (Byte.code a) = sextet1 (Byte.code a') →
  sextet2 (Byte.code a) (Byte.code b) = sextet2 (Byte.code a') (Byte.code b') →
  sextet3' (Byte.code b) = sextet3' (Byte.code b') → a = a' ∧ b = b'.
Proof.
  intros H1 H2 H3.
  destruct (sextets_facts a b) as (_ & _ & Ea & _ & Eb1 & _).
  destruct (sextets_facts a' b') as (_ & _ & Ea' & _ & Eb1' & _).
  destruct (sextets_facts b b) as (Eb & _ & _ & _ & _ & _ & Eb2 & _).
  destruct (sextets_facts b' b') as (Eb' & _ & _ & _ & _ & _ & Eb2' & _).
  split; apply code_inj.
  - rewrite <- Ea, <- Ea', H1, H2. reflexivity.
  - rewrite <- Eb, <- Eb', <- Eb1, <- Eb1', <- Eb2, <- Eb2', H2, H3. reflexivity.
Qed.

Lemma sextets_three (a b c a' b' c' : ascii) :
  sextet1 (Byte.code a) = sextet1 (Byte.code a') →
  sextet2 (Byte.code a) (Byte.code b) = sextet2 (Byte.code a') (Byte.code b') →
  sextet3 (Byte.code b) (Byte.code c) = sextet3 (Byte.code b') (Byte.code c') →
  sextet4 (Byte.code c) = sextet4 (Byte.code c') →
  a = a' ∧ b = b' ∧ c = c'.
Proof.
  intros H1 H2 H3 H4.
  destruct (sextets_facts a b) as (_ & _ & Ea & _ & Eb1 & _).
  destruct (sextets_facts a' b') as (_ & _ & Ea' & _ & Eb1' & _).
  destruct (sextets_facts b c) as (Eb & _ & _ & _ & _ & Eb2 & _ & Ec1 & _).
  destruct (sextets_facts b' c') as (Eb' & _ & _ & _ & _ & Eb2' & _ & Ec1' & _).
  destruct (sextets_facts c c) as (_ & Ec & _).
  destruct (sextets_facts c' c') as (_ & Ec' & _).
  split; [|split]; apply code_inj.
  - rewrite <- Ea, <- Ea', H1, H2. reflexivity.
  - rewrite <- Eb, <- Eb', <- Eb1, <- Eb1', <- Eb2, <- Eb2', H2, H3. reflexivity.
  - rewrite <- Ec, <- Ec', <- Ec1, <- Ec1', H3, H4. reflexivity.
Qed.

Lemma sextet1_bound (a : ascii) : (N.shiftr (Byte.code a) 2 < 64)%N.
Proof. apply (sextets_facts a a). Qed.

Lemma sextet2_bound (a b : ascii) :
  (N.lor (N.shiftl (N.land (Byte.code a) 3) 4) (N.shiftr (Byte.code b) 4) < 64)%N.
Proof. apply (sextets_facts a b). Qed.

Lemma sextet2'_bound (a : ascii) : (N.shiftl (N.land (Byte.code a) 3) 4 < 64)%N.
Proof. apply (sextets_facts a a). Qed.

Lemma sextet3_bound (a b : ascii) :
  (N.lor (N.shiftl (N.land (Byte.code a) 15) 2) (N.shiftr (Byte.code b) 6) < 64)%N.
Proof. apply (sextets_facts a b). Qed.

Lemma sextet3'_bound (a : ascii) : (N.shiftl (N.land (Byte.code a) 15) 2 < 64)%N.
Proof. apply (sextets_facts a a). Qed.

Lemma sextet4_bound (a : ascii) : (N.land (Byte.code a) 63 < 64)%N.
Proof. apply (sextets_facts a a). Qed.

Create HintDb sextets.
#[local] Hint Resolve sextet1_bound sextet2_bound sextet2'_bound sextet3_bound
  sextet3'_bound sextet4_bound : sextets.

Lemma alpha_inj (alpha : N -> ascii) (padding : option ascii) (i j : N) :
  alphabetChecked alpha padding →
  (i < 64)%N → (j < 64)%N → alpha i = alpha j → i = j.
Proof.
  intros H Hi Hj He. unfold alphabetChecked in H.
  rewrite forallb_forall in H. specialize (H i (in_range 64 i Hi)).
  rewrite forallb_forall in H. specialize (H j (in_range 64 j Hj)).
  apply andb_true_iff in H as [_ H].
  rewrite He in H. unfold Byte.eqb in H. rewrite Ascii.eqb_refl in H.
  apply N.eqb_eq. exact H.
Qed.

Lemma alpha_not_padding (alpha : N -> ascii) (p : ascii) (i : N) :
  alphabetChecked alpha (Some p) → (i < 64)%N → alpha i ≠ p.
Proof.
  intros H Hi He. unfold alphabetChecked in H.
  rewrite forallb_forall in H. specialize (H i (in_range 64 i Hi)).
  rewrite forallb_forall in H. specialize (H i (in_range 64 i Hi)).
  apply andb_true_iff in H as [H _]. rewrite He in H.
  unfold Byte.eqb in H. rewrite Ascii.eqb_refl in H. discriminate.
Qed.

Lemma encode_inj_bounded (alpha : N -> ascii) (padding : option ascii) (n : nat)
    (s1 s2 : string) :
  alphabetChecked alpha padding →
  (String.length s1 <= n)%nat →
  Base64.encode alpha padding s1 = Base64.encode alpha padding s2 → s1 = s2.
Proof.
  intros Hchecked.
  revert s1 s2. induction n as [|n IH]; intros s1 s2 Hlen H.
  - destruct s1; [|simpl in Hlen; lia].
    destruct s2 as [|a [|b [|c r]]]; [reflexivity | | |];
      cbn [Base64.encode] in H; discriminate.
  - assert (Hinj : ∀ i j, (i < 64)%N → (j < 64)%N → alpha i = alpha j → i = j)
      by (intros i j; apply (alpha_inj alpha padding i j Hchecked)).
    destruct padding as [p|];
      destruct s1 as [|a1 [|b1 [|c1 r1]]], s2 as [|a2 [|b2 [|c2 r2]]];
      cbn [Base64.encode append] in H; try discriminate H; try reflexivity;
      injection H; clear H; intros;
      try (exfalso;
           match goal with
           | H : p = alpha ?x |- _ =>
               apply (alpha_not_padding alpha p x Hchecked); [|symmetry; exact H]
           | H : alpha ?x = p |- _ =>
               apply (alpha_not_padding alpha p x Hchecked); [|exact H]
           end; solve [auto with sextets]);
      repeat match goal with
             | H : alpha _ = alpha _ |- _ =>
                 apply Hinj in H; [|solve [auto with sextets] ..]
             end.
    + rewrite (sextets_one a1 a2) by assumption. reflexivity.
    + destruct (sextets_two a1 b1 a2 b2) as [-> ->]; [assumption .. | reflexivity].
    + destruct (sextets_three a1 b1 c1 a2 b2 c2) as (-> & -> & ->); [assumption .. |].
      rewrite (IH r1 r2); [reflexivity | simpl in Hlen; lia | assumption].
    + rewrite (sextets_one a1 a2) by assumption. reflexivity.
    + destruct (sextets_two a1 b1 a2 b2) as [-> ->]; [assumption .. | reflexivity].
    + destruct (sextets_three a1 b1 c1 a2 b2 c2) as (-> & -> & ->); [assumption .. |].
      rewrite (IH r1 r2); [reflexivity | simpl in Hlen; lia | assumption].
Qed.

Lemma alphabets_checked :
  alphabetChecked (Base64.alphabet "+" "/") (Some "="%char)
  ∧ alphabetChecked (Base64.alphabet "-" "_") None.
Proof. split; vm_compute; reflexivity. Qed.

Lemma StdEncoding_inj (s1 s2 : string) :
  Base64.StdEncoding s1 = Base64.StdEncoding s2 → s1 = s2.
Proof.
  apply (encode_inj_bounded _ _ (String.length s1)); [apply alphabets_checked | lia].
Qed.

Lemma RawURLEncoding_inj (s1 s2 : string) :
  Base64.RawURLEncoding s1 = Base64.RawURLEncoding s2 → s1 = s2.
Proof.
  apply (encode_inj_bounded _ _ (String.length s1)); [apply alphabets_checked | lia].
Qed.

Lemma append_inj_l (a x y : string) : a +:+ x = a +:+ y → x = y.
Proof.
  induction a as [|c a IH]; [rewrite !append_nil_l; auto |].
  rewrite !append_cons. intros [= H]. exact (IH H).
Qed.

Lemma genderopen_ID (r : Genderopen.Record_) :
  Finc.ID (fst (Genderopen.ToIntermediateSchema r))
  = "ai-162-" +:+ Base64.RawURLEncoding (Genderopen.Header_Identifier r).
Proof.
  unfold Genderopen.ToIntermediateSchema.
  destruct (Genderopen.identifiers (Genderopen.Dc_Identifier r)) as [[url issn] doi].
  destruct (String.eqb (Genderopen.Dc_Date r) EmptyString); [reflexivity |].
  destruct (String.length (Genderopen.Dc_Date r) <? 4)%nat; [reflexivity |].
  destruct (Time.Parse2006 _); reflexivity.
Qed.

(** The padded encoding is the unpadded one followed by padding. *)
Lemma encode_padding (alpha : N -> ascii) (p : ascii) (n : nat) (s : string) :
  (String.length s <= n)%nat →
  ∃ pads, GoStrings.all (Byte.eqb p) pads = true
          ∧ Base64.encode alpha (Some p) s = Base64.encode alpha None s +:+ pads.
Proof.
  assert (Hp : Byte.eqb p p = true) by apply Ascii.eqb_refl.
  revert s. induction n as [|n IH]; intros s Hlen.
  - destruct s; [|simpl in Hlen; lia]. exists EmptyString. split; reflexivity.
  - destruct s as [|a [|b [|c r]]].
    + exists EmptyString. split; reflexivity.
    + exists (String p (String p EmptyString)). split; [|reflexivity].
      simpl. rewrite Hp. reflexivity.
    + exists (String p EmptyString). split; [|reflexivity].
      simpl. rewrite Hp. reflexivity.
    + destruct (IH r) as (pads & Hpads & Hr); [simpl in Hlen; lia |].
      exists pads. split; [exact Hpads |].
      cbn [Base64.encode]. rewrite Hr, !append_cons. reflexivity.
Qed.

(** The unpadded encoding holds characters of the alphabet only. *)
Lemma encode_alphabet (alpha : N -> ascii) (P : ascii -> bool) (n : nat) (s : string) :
  (∀ i, (i < 64)%N → P (alpha i) = true) →
  (String.length s <= n)%nat →
  GoStrings.all P (Base64.encode alpha None s) = true.
Proof.
  intros HP. revert s. induction n as [|n IH]; intros s Hlen.
  - destruct s; [reflexivity | simpl in Hlen; lia].
  - destruct s as [|a [|b [|c r]]]; cbn [Base64.encode append GoStrings.all];
      rewrite ?HP by auto with sextets; try reflexivity.
    rewrite IH by (simpl in Hlen; lia). reflexivity.
Qed.

Lemma TrimRightByte_pads (c : ascii) (y pads : string) :
  GoStrings.all (Byte.eqb c) pads = true →
  GoStrings.all (fun x => negb (Byte.eqb c x)) y = true →
  GoStrings.TrimRightByte c (y +:+ pads) = y.
Proof.
  intros Hpads Hy. unfold GoStrings.TrimRightByte.
  rewrite rev_app, span_append.
  - apply rev_involutive.
  - rewrite all_rev. exact Hpads.
  - rewrite <- (all_rev _ y) in Hy. destruct (GoStrings.rev y) as [|x r]; [exact I |].
    simpl in Hy. apply andb_true_iff in Hy as [Hx _].
    apply negb_true_iff in Hx. exact Hx.
Qed.

(** The record ID of the legacy genios source is the prefix and the
    standard encoding of source and ID without its padding: no [=] is
    left in it. *)
Lemma legacy_RecordID_unpadded (doc : GeniosLegacy.Document) :
  GeniosLegacy.RecordID doc
  = "ai-48-" +:+ Base64.encode (Base64.alphabet "+" "/") None (GeniosLegacy.SourceAndID doc).
Proof.
  unfold GeniosLegacy.RecordID.
  destruct (encode_padding (Base64.alphabet "+" "/") "=" _ (GeniosLegacy.SourceAndID doc)
              (Nat.le_refl _)) as (pads & Hpads & Henc).
  unfold Base64.StdEncoding. rewrite Henc.
  change ("ai-" +:+ GeniosLegacy.SourceID +:+ "-" +:+
          Base64.encode (Base64.alphabet "+" "/") None (GeniosLegacy.SourceAndID doc) +:+ pads)
    with ("ai-48-" +:+
          (Base64.encode (Base64.alphabet "+" "/") None (GeniosLegacy.SourceAndID doc) +:+ pads)).
  rewrite <- append_assoc. apply TrimRightByte_pads; [exact Hpads |].
  rewrite all_append. apply andb_true_iff. split; [reflexivity |].
  apply (encode_alphabet _ _ (String.length (GeniosLegacy.SourceAndID doc)));
    [|apply Nat.le_refl].
  intros i Hi. apply negb_true_iff. unfold Byte.eqb. apply Ascii.eqb_neq.
  intros He. exact (alpha_not_padding _ _ i (proj1 alphabets_checked) Hi (eq_sym He)).
Qed.

Lemma rawStd_inj (s1 s2 : string) :
  Base64.encode (Base64.alphabet "+" "/") None s1
  = Base64.encode (Base64.alphabet "+" "/") None s2 → s1 = s2.
Proof.
  apply (encode_inj_bounded _ _ (String.length s1)); [|lia].
  vm_compute. reflexivity.
Qed.

(** No two identifiers share an ID: the ID of a genios document, in
    both revisions, tells the trimmed source and ID joined by two
    underscores; the record ID of a crossref document tells its URL; the
    ID of a genderopen record tells its OAI identifier.  The record ID of
    the legacy genios source is the standard encoding without its
    padding. *)
Theorem ids_never_collide :
  (∀ d1 d2 : Genios.Document,
     Genios.FincID d1 = Genios.FincID d2 ↔ Genios.SourceAndID d1 = Genios.SourceAndID d2)
  ∧ (∀ d1 d2 : GeniosLegacy.Document,
       GeniosLegacy.RecordID d1 = GeniosLegacy.RecordID d2
       ↔ GeniosLegacy.SourceAndID d1 = GeniosLegacy.SourceAndID d2)
  ∧ (∀ doc : GeniosLegacy.Document,
       GeniosLegacy.RecordID doc
       = "ai-48-" +:+ Base64.encode (Base64.alphabet "+" "/") None
                        (GeniosLegacy.SourceAndID doc))
  ∧ (∀ d1 d2 : Crossref.Document,
       Crossref.RecordID d1 = Crossref.RecordID d2 ↔ Crossref.URL d1 = Crossref.URL d2)
  ∧ (∀ r1 r2 : Genderopen.Record_,
       Finc.ID (fst (Genderopen.ToIntermediateSchema r1))
       = Finc.ID (fst (Genderopen.ToIntermediateSchema r2))
       ↔ Genderopen.Header_Identifier r1 = Genderopen.Header_Identifier r2).
Proof.
  split; [|split; [|split; [|split]]].
  - intros d1 d2. unfold Genios.FincID. split; [|intros ->; reflexivity].
    intros H. apply (append_inj_l "ai-48-") in H. exact (RawURLEncoding_inj _ _ H).
  - intros d1 d2. rewrite !legacy_RecordID_unpadded. split; [|intros ->; reflexivity].
    intros H. apply append_inj_l in H. exact (rawStd_inj _ _ H).
  - exact legacy_RecordID_unpadded.
  - intros d1 d2. unfold Crossref.RecordID. split; [|intros ->; reflexivity].
    intros H. apply (append_inj_l "ai-%!d(string=49)-") in H. exact (StdEncoding_inj _ _ H).
  - intros r1 r2. rewrite !genderopen_ID. split; [|intros ->; reflexivity].
    intros H. apply append_inj_l in H. exact (RawURLEncoding_inj _ _ H).
Qed.

Lemma separator_inj (a b x y : string) :
  noUnderscore a → noUnderscore b →
  a +:+ "__" +:+ x = b +:+ "__" +:+ y → a = b ∧ x = y.
Proof.
  unfold noUnderscore. revert b. induction a as [|c a IH]; intros [|d b] Ha Hb H.
  - rewrite !append_nil_l in H. apply (append_inj_l "__") in H. auto.
  - rewrite append_nil_l, append_cons in H. injection H as <- _.
    simpl in Hb. discriminate.
  - rewrite append_nil_l, append_cons in H. injection H as -> _.
    simpl in Ha. discriminate.
  - rewrite !append_cons in H. injection H as -> H.
    simpl in Ha, Hb. apply andb_true_iff in Ha as [_ Ha]. apply andb_true_iff in Hb as [_ Hb].
    destruct (IH b Ha Hb H) as [-> ->]. auto.
Qed.

(** When the trimmed sources hold no underscore, two genios documents
    with the same ID have the same trimmed source and the same trimmed
    ID. *)
Theorem FincID_tells_source_and_id (d1 d2 : Genios.Document) :
  noUnderscore (GoStrings.TrimSpace (Genios.Source d1)) →
  noUnderscore (GoStrings.TrimSpace (Genios.Source d2)) →
  Genios.FincID d1 = Genios.FincID d2 →
  GoStrings.TrimSpace (Genios.Source d1) = GoStrings.TrimSpace (Genios.Source d2)
  ∧ GoStrings.TrimSpace (Genios.ID d1) = GoStrings.TrimSpace (Genios.ID d2).
Proof.
  intros H1 H2 H. unfold Genios.FincID in H.
  apply (append_inj_l "ai-48-") in H. apply RawURLEncoding_inj in H.
  exact (separator_inj _ _ _ _ H1 H2 H).
Qed.

Lemma FincID_tells_source_and_id_witness :
  GoStrings.TrimSpace (Genios.Source (geniosDocument " b0604160052" "2015" EmptyString))
  = GoStrings.TrimSpace (Genios.Source (geniosDocument "b0604160052 " "2016" EmptyString))
  ∧ GoStrings.TrimSpace (Genios.ID (geniosDocument " b0604160052" "2015" EmptyString))
    = GoStrings.TrimSpace (Genios.ID (geniosDocument "b0604160052 " "2016" EmptyString)).
Proof.
  apply (FincID_tells_source_and_id
           (geniosDocument " b0604160052" "2015" EmptyString)
           (geniosDocument "b0604160052 " "2016" EmptyString));
    vm_compute; reflexivity.
Defined.

(** ** More on dates: the crossref date parts *)

Lemma utoaFuel_digits (fuel : nat) (n : Z) (acc : string) :
  (0 <= n < 2 ^ Z.of_nat fuel)%Z → GoStrings.all Byte.isDigit acc = true →
  GoStrings.all Byte.isDigit (Strconv.utoaFuel fuel n acc) = true
  ∧ decimalFrom 0 (Strconv.utoaFuel fuel n acc) = decimalFrom n acc.
Proof.
  revert n acc. induction fuel as [|fuel IH]; intros n acc Hn Hacc.
  - change (2 ^ Z.of_nat 0)%Z with 1%Z in Hn. assert (n = 0)%Z as -> by lia.
    split; [exact Hacc | reflexivity].
  - cbn [Strconv.utoaFuel].
    destruct (digitChar_spec (n mod 10)) as [Hd Hv];
      [pose proof (Z.mod_pos_bound n 10); lia |].
    assert (Hacc' : GoStrings.all Byte.isDigit
                      (String (Byte.digitChar (n mod 10)) acc) = true)
      by (simpl; rewrite Hd, Hacc; reflexivity).
    destruct (Z.ltb_spec n 10) as [Hlt|Hge].
    + split; [exact Hacc' |]. cbn [decimalFrom]. rewrite Hv.
      rewrite Z.mod_small by lia. reflexivity.
    + assert (Hdiv : (0 <= n / 10 < 2 ^ Z.of_nat fuel)%Z).
      { rewrite Nat2Z.inj_succ, Z.pow_succ_r in Hn by lia.
        split; [apply Z.div_pos; lia |].
        apply Z.div_lt_upper_bound; lia. }
      destruct (IH (n / 10)%Z _ Hdiv Hacc') as [Hall Hdec].
      split; [exact Hall |]. rewrite Hdec. cbn [decimalFrom]. rewrite Hv.
      f_equal. pose proof (Z.div_mod n 10). lia.
Qed.

(** The digits that [utoa] prints read back as the number. *)
Lemma utoa_digits (n : Z) :
  (0 <= n)%Z →
  GoStrings.all Byte.isDigit (Strconv.utoa n) = true ∧ decimal (Strconv.utoa n) = n.
Proof.
  intros Hn. unfold Strconv.utoa, decimal.
  destruct (utoaFuel_digits (S (Z.to_nat (Z.log2 n))) n EmptyString) as [Hall Hdec];
    [split; [lia | apply utoa_fuel; lia] | reflexivity |].
  split; [exact Hall | exact Hdec].
Qed.

Lemma zeros_digits (k : nat) (s : string) :
  GoStrings.all Byte.isDigit (GoStrings.bytes (repeat 48%N k)) = true
  ∧ decimalFrom 0 (GoStrings.bytes (repeat 48%N k) +:+ s) = decimalFrom 0 s.
Proof.
  induction k as [|k [IHa IHd]]; [split; reflexivity |].
  split; [exact IHa | exact IHd].
Qed.

Lemma FormatIntPad_nonneg (width : nat) (n : Z) :
  (0 <= n)%Z →
  GoStrings.all Byte.isDigit (Strconv.FormatIntPad width n) = true
  ∧ decimal (Strconv.FormatIntPad width n) = n.
Proof.
  intros Hn. unfold Strconv.FormatIntPad. rewrite (proj2 (Z.ltb_ge n 0)) by lia.
  destruct (utoa_digits n Hn) as [Hall Hdec].
  destruct (zeros_digits (width - String.length (Strconv.utoa n)) (Strconv.utoa n))
    as [Hz Hzd].
  split; [rewrite all_append, Hz, Hall; reflexivity |].
  unfold decimal. rewrite Hzd. exact Hdec.
Qed.

Lemma FormatIntPad_neg (width : nat) (n : Z) :
  (n < 0)%Z → ∃ r, Strconv.FormatIntPad width n = String "-" r.
Proof.
  intros Hn. unfold Strconv.FormatIntPad. rewrite (proj2 (Z.ltb_lt n 0)) by lia. eauto.
Qed.

Lemma in_below (k n : Z) : (0 <= n < k)%Z → In n (below k).
Proof.
  intros H. apply in_map_iff. exists (Z.to_nat n). split; [lia |]. apply in_seq. lia.
Qed.

Lemma pad4_checked :
  forallb (fun y => (String.length (Strconv.FormatIntPad 4 y) =? 4)%nat) (below 10000) = true.
Proof. vm_compute. reflexivity. Qed.

Lemma pad2_checked :
  forallb (fun m => (String.length (Strconv.FormatIntPad 2 m) =? 2)%nat) (below 100) = true.
Proof. vm_compute. reflexivity. Qed.

Lemma pad4_length (y : Z) :
  (0 <= y <= 9999)%Z → String.length (Strconv.FormatIntPad 4 y) = 4%nat.
Proof.
  intros H. pose proof pad4_checked as Hc. rewrite forallb_forall in Hc.
  apply Nat.eqb_eq, Hc, in_below. lia.
Qed.

Lemma pad2_length (m : Z) :
  (0 <= m <= 99)%Z → String.length (Strconv.FormatIntPad 2 m) = 2%nat.
Proof.
  intros H. pose proof pad2_checked as Hc. rewrite forallb_forall in Hc.
  apply Nat.eqb_eq, Hc, in_below. lia.
Qed.

(** Digits in front of a dash: the dash tells where they end. *)
Lemma digits_dash_inj (x y r r' : string) :
  GoStrings.all Byte.isDigit x = true → GoStrings.all Byte.isDigit y = true →
  x +:+ String "-" r = y +:+ String "-" r' → x = y ∧ r = r'.
Proof.
  intros Hx Hy H.
  pose proof (span_append Byte.isDigit x (String "-" r) Hx eq_refl) as Sx.
  pose proof (span_append Byte.isDigit y (String "-" r') Hy eq_refl) as Sy.
  rewrite H, Sy in Sx. injection Sx as -> ->. auto.
Qed.

Lemma parseLongYear_spec (layout avalue value rest : string) (y : Z) :
  Time.parseLongYear layout avalue value = inr (y, rest)
  ↔ ∃ Y, value = Y +:+ rest ∧ String.length Y = 4%nat
         ∧ GoStrings.all Byte.isDigit Y = true ∧ y = decimal Y.
Proof.
  unfold Time.parseLongYear. split.
  - destruct value as [|a [|b [|c [|d v]]]]; try discriminate.
    destruct (Byte.isDigit a) eqn:Ha; [|discriminate]. cbn [negb].
    destruct (Byte.isDigit b && Byte.isDigit c && Byte.isDigit d) eqn:Hbcd; [|discriminate].
    remember (Strconv.parseUintLoop 0 (String a (String b (String c (String d EmptyString)))))
      as pl eqn:Hpl.
    intros [= <- <-]. exists (String a (String b (String c (String d EmptyString)))).
    split; [reflexivity |]. split; [reflexivity |].
    apply andb_true_iff in Hbcd as [Hbc Hd]. apply andb_true_iff in Hbc as [Hb Hc].
    split; [simpl; rewrite Ha, Hb, Hc, Hd; reflexivity |].
    unfold decimal. rewrite Hpl.
    rewrite parseUintLoop_digits;
      [|simpl; rewrite Ha, Hb, Hc, Hd; reflexivity | vm_compute; split; discriminate].
    assert (Hmax : (Strconv.maxUint64 = 18446744073709551615)%Z) by reflexivity.
    pose proof (digitVal_range a Ha). pose proof (digitVal_range b Hb).
    pose proof (digitVal_range c Hc). pose proof (digitVal_range d Hd).
    cbn [decimalFrom]. rewrite (proj2 (Z.leb_le _ _)) by lia. reflexivity.
  - intros (Y & -> & Hlen & Hall & ->).
    destruct Y as [|a [|b [|c [|d [|? ?]]]]]; try discriminate Hlen.
    simpl in Hall.
    apply andb_true_iff in Hall as [Ha Hall]. apply andb_true_iff in Hall as [Hb Hall].
    apply andb_true_iff in Hall as [Hc Hall]. apply andb_true_iff in Hall as [Hd _].
    rewrite !append_cons, append_nil_l. rewrite Ha, Hb, Hc, Hd. cbn [negb andb].
    unfold decimal.
    rewrite parseUintLoop_digits;
      [|simpl; rewrite Ha, Hb, Hc, Hd; reflexivity | vm_compute; split; discriminate].
    assert (Hmax : (Strconv.maxUint64 = 18446744073709551615)%Z) by reflexivity.
    pose proof (digitVal_range a Ha). pose proof (digitVal_range b Hb).
    pose proof (digitVal_range c Hc). pose proof (digitVal_range d Hd).
    cbn [decimalFrom]. rewrite (proj2 (Z.leb_le _ _)) by lia. reflexivity.
Qed.

Lemma getnum2_spec (value rest : string) (n : Z) :
  Time.getnum2 value = Some (n, rest)
  ↔ ∃ M, value = M +:+ rest ∧ String.length M = 2%nat
         ∧ GoStrings.all Byte.isDigit M = true ∧ n = decimal M.
Proof.
  unfold Time.getnum2. split.
  - destruct value as [|a [|b v]]; try discriminate.
    destruct (Byte.isDigit a && Byte.isDigit b) eqn:Hab; [|discriminate].
    intros [= <- <-]. exists (String a (String b EmptyString)).
    apply andb_true_iff in Hab as [Ha Hb].
    split; [reflexivity |]. split; [reflexivity |].
    split; [simpl; rewrite Ha, Hb; reflexivity |].
    unfold decimal. cbn [decimalFrom]. lia.
  - intros (M & -> & Hlen & Hall & ->).
    destruct M as [|a [|b [|? ?]]]; try discriminate Hlen.
    simpl in Hall. apply andb_true_iff in Hall as [Ha Hall].
    apply andb_true_iff in Hall as [Hb _].
    rewrite !append_cons, append_nil_l, Ha, Hb. cbn [andb].
    unfold decimal. cbn [decimalFrom]. repeat f_equal.
Qed.


Lemma finish_spec (layout avalue value : string) (y m d : Z) (t : Time.Time) :
  Time.finish layout avalue value y m d = inr t
  ↔ value = EmptyString ∧ (1 <= d <= Time.daysIn m y)%Z
    ∧ t = {| Time.year := y; Time.month := m; Time.day := d |}.
Proof.
  unfold Time.finish.
  destruct (String.eqb_spec value EmptyString) as [->|Hne]; cbn [negb].
  - destruct (Z.ltb_spec d 1); cbn [orb].
    + split; [discriminate | intros (_ & H' & _); lia].
    + destruct (Z.gtb_spec d (Time.daysIn m y)).
      * split; [discriminate | intros (_ & H' & _); lia].
      * split; [intros [= <-]; repeat split; lia | intros (_ & _ & ->); reflexivity].
  - split; [discriminate | intros (H' & _); contradiction].
Qed.

(** [time.Parse] with the layout [2006-01-02] accepts four digits, a
    dash, two digits, a dash and two digits that name a day of the
    calendar, and nothing else. *)
Lemma Parse2006_01_02_spec (s : string) (t : Time.Time) :
  Time.Parse2006_01_02 s = inr t
  ↔ ∃ Y M D,
      s = Y +:+ String "-" (M +:+ String "-" D)
      ∧ (String.length Y = 4 ∧ String.length M = 2 ∧ String.length D = 2)%nat
      ∧ GoStrings.all Byte.isDigit Y = true ∧ GoStrings.all Byte.isDigit M = true
      ∧ GoStrings.all Byte.isDigit D = true
      ∧ (1 <= decimal M <= 12)%Z
      ∧ (1 <= decimal D <= Time.daysIn (decimal M) (decimal Y))%Z
      ∧ t = {| Time.year := decimal Y; Time.month := decimal M; Time.day := decimal D |}.
Proof.
  unfold Time.Parse2006_01_02. split.
  - destruct (Time.parseLongYear "2006-01-02" s s) as [e|[y v1]] eqn:EY; [discriminate |].
    apply parseLongYear_spec in EY as (Y & -> & HlY & HY & ->).
    destruct v1 as [|c v2]; [discriminate |]. cbn [Time.skipDash].
    unfold Byte.eqb.
    destruct (Ascii.eqb_spec c "-") as [->|Hc]; [|discriminate].
    destruct (Time.getnum2 v2) as [[m v3]|] eqn:EM; [|discriminate].
    apply getnum2_spec in EM as (M & -> & HlM & HM & ->).
    destruct (Z.leb_spec (decimal M) 0); [discriminate |].
    destruct (Z.ltb_spec 12 (decimal M)); [discriminate |]. cbn [orb].
    destruct v3 as [|c v4]; [discriminate |]. cbn [Time.skipDash]. unfold Byte.eqb.
    destruct (Ascii.eqb_spec c "-") as [->|Hc]; [|discriminate].
    destruct (Time.getnum2 v4) as [[d v5]|] eqn:ED; [|discriminate].
    apply getnum2_spec in ED as (D & -> & HlD & HD & ->).
    intros Hf. apply finish_spec in Hf as (-> & Hd & ->).
    exists Y, M, D. rewrite append_nil_r. repeat split; try assumption; lia.
  - intros (Y & M & D & -> & (HlY & HlM & HlD) & HY & HM & HD & Hm & Hd & ->).
    rewrite (proj2 (parseLongYear_spec _ _ _ (String "-" (M +:+ String "-" D)) (decimal Y)))
      by (exists Y; auto).
    cbn [Time.skipDash]. unfold Byte.eqb. rewrite Ascii.eqb_refl.
    rewrite (proj2 (getnum2_spec _ (String "-" D) (decimal M))) by (exists M; auto).
    rewrite (proj2 (Z.leb_gt _ _)) by lia. rewrite (proj2 (Z.ltb_ge _ _)) by lia.
    cbn [orb Time.skipDash]. rewrite Ascii.eqb_refl.
    rewrite (proj2 (getnum2_spec D EmptyString (decimal D)))
      by (exists D; rewrite append_nil_r; auto).
    apply finish_spec. auto.
Qed.

(** The value that [DateField.Date] hands to [time.Parse]. *)
Lemma Date_parts (d : Crossref.DateField) (parts : list Z) (rest : list (list Z))
    (y m day : Z) :
  Crossref.DateParts d = parts :: rest → dateOfParts parts = Some (y, m, day) →
  Crossref.Date d
  = match Time.Parse2006_01_02
            (Strconv.FormatIntPad 4 y +:+
             String "-" (Strconv.FormatIntPad 2 m +:+ String "-" (Strconv.FormatIntPad 2 day)))
    with
    | inl e => (Time.zero, Some (Errors.TimeParseError e))
    | inr t => (t, None)
    end.
Proof.
  intros Hd Hp. unfold Crossref.Date. rewrite Hd.
  destruct parts as [|y' [|m' [|d' [|? ?]]]]; try discriminate Hp;
    injection Hp as <- <- <-; reflexivity.
Qed.

(** A padded number that is all digits and as long as the width allows
    reads back as a number of that many digits. *)
Lemma pad_reads_back (width : nat) (n : Z) (X : string) :
  GoStrings.all Byte.isDigit X = true →
  Strconv.FormatIntPad width n = X → n = decimal X.
Proof.
  intros HX Hn. destruct (Z.ltb_spec n 0) as [Hneg|Hpos].
  - destruct (FormatIntPad_neg width n Hneg) as (r & Hr). rewrite Hr in Hn. subst X.
    simpl in HX. discriminate.
  - destruct (FormatIntPad_nonneg width n Hpos) as [_ Hdec]. rewrite Hn in Hdec. auto.
Qed.

Lemma pad_digits_or_dash (width : nat) (n : Z) :
  GoStrings.all Byte.isDigit (Strconv.FormatIntPad width n) = true
  ∨ ∃ r, Strconv.FormatIntPad width n = String "-" r.
Proof.
  destruct (Z.ltb_spec n 0) as [Hneg|Hpos].
  - right. apply FormatIntPad_neg. exact Hneg.
  - left. apply FormatIntPad_nonneg. exact Hpos.
Qed.

Lemma decimal_bound4 (X : string) :
  String.length X = 4%nat → GoStrings.all Byte.isDigit X = true →
  (0 <= decimal X <= 9999)%Z.
Proof.
  intros Hlen Hall. destruct X as [|a [|b [|c [|d [|? ?]]]]]; try discriminate Hlen.
  simpl in Hall.
  apply andb_true_iff in Hall as [Ha Hall]. apply andb_true_iff in Hall as [Hb Hall].
  apply andb_true_iff in Hall as [Hc Hall]. apply andb_true_iff in Hall as [Hd _].
  pose proof (digitVal_range a Ha). pose proof (digitVal_range b Hb).
  pose proof (digitVal_range c Hc). pose proof (digitVal_range d Hd).
  unfold decimal. cbn [decimalFrom]. lia.
Qed.

Lemma Date_cases (d : Crossref.DateField) :
  match Crossref.DateParts d with
  | [] => Crossref.Date d = (Time.zero, Some Crossref.errNoDate)
  | parts :: _ =>
      match dateOfParts parts with
      | None => Crossref.Date d = (Time.zero, None)
      | Some (y, m, day) =>
          if validDate y m day
          then Crossref.Date d
               = ({| Time.year := y; Time.month := m; Time.day := day |}, None)
          else ∃ e, Crossref.Date d = (Time.zero, Some (Errors.TimeParseError e))
      end
  end.
Proof.
  destruct (Crossref.DateParts d) as [|parts rest] eqn:Hd.
  { unfold Crossref.Date. rewrite Hd. reflexivity. }
  destruct (dateOfParts parts) as [[[y m] day]|] eqn:Hp.
  2:{ unfold Crossref.Date. rewrite Hd.
      destruct parts as [|? [|? [|? [|? ?]]]]; try discriminate Hp; reflexivity. }
  rewrite (Date_parts d parts rest y m day Hd Hp).
  destruct (validDate y m day) eqn:Hv.
  - unfold validDate in Hv.
    repeat (apply andb_true_iff in Hv as [Hv ?]).
    repeat match goal with H : (_ <=? _)%Z = true |- _ => apply Z.leb_le in H end.
    assert (Hday : (day <= 31)%Z).
    { unfold Time.daysIn in *.
      destruct (m =? 2)%Z; [destruct (Time.isLeap y); lia |].
      destruct ((m =? 4) || (m =? 6) || (m =? 9) || (m =? 11))%Z; lia. }
    destruct (FormatIntPad_nonneg 4 y ltac:(lia)) as [HY HdY].
    destruct (FormatIntPad_nonneg 2 m ltac:(lia)) as [HM HdM].
    destruct (FormatIntPad_nonneg 2 day ltac:(lia)) as [HD HdD].
    rewrite (proj2 (Parse2006_01_02_spec _
               {| Time.year := y; Time.month := m; Time.day := day |})); [reflexivity |].
    exists (Strconv.FormatIntPad 4 y), (Strconv.FormatIntPad 2 m),
      (Strconv.FormatIntPad 2 day).
    rewrite HdY, HdM, HdD, pad4_length, !pad2_length by lia.
    repeat split; try assumption; lia.
  - destruct (Time.Parse2006_01_02 _) as [e|t] eqn:HP; [eauto |]. exfalso.
    apply Parse2006_01_02_spec in HP
      as (Y & M & D & Hs & (HlY & HlM & HlD) & HY & HM & HD & Hm & Hdd & _).
    destruct (pad_digits_or_dash 4 y) as [Hy | (r & Hr)].
    2:{ rewrite Hr in Hs. destruct Y as [|c Y]; [discriminate HlY |].
        rewrite !append_cons in Hs. injection Hs as <- _. simpl in HY. discriminate. }
    apply digits_dash_inj in Hs as [Hy4 Hs]; [|assumption ..].
    destruct (pad_digits_or_dash 2 m) as [Hm2 | (r & Hr)].
    2:{ rewrite Hr in Hs. destruct M as [|c M]; [discriminate HlM |].
        rewrite !append_cons in Hs. injection Hs as <- _. simpl in HM. discriminate. }
    apply digits_dash_inj in Hs as [Hm2' Hs]; [|assumption ..].
    apply (pad_reads_back 4 y Y HY) in Hy4.
    apply (pad_reads_back 2 m M HM) in Hm2'.
    apply (pad_reads_back 2 day D HD) in Hs.
    pose proof (decimal_bound4 Y HlY HY).
    subst y m day. unfold validDate in Hv.
    rewrite !(proj2 (Z.leb_le _ _)) in Hv by lia. discriminate.
Qed.

(** [DateField.Date], case by case.  Without date parts the error is
    [errNoDate].  A first element of one, two or three numbers gives that
    day of the calendar, a missing month or day taken as the first, when
    the year has at most four digits and the day exists; any other
    numbers give the error of [time.Parse].  A first element with no
    number, or with more than three, gives the zero time and a nil
    error. *)
Theorem Date_spec (d : Crossref.DateField) :
  match Crossref.DateParts d with
  | [] => Crossref.Date d = (Time.zero, Some Crossref.errNoDate)
  | parts :: _ =>
      match dateOfParts parts with
      | None => Crossref.Date d = (Time.zero, None)
      | Some (y, m, day) =>
          if validDate y m day
          then Crossref.Date d
               = ({| Time.year := y; Time.month := m; Time.day := day |}, None)
          else ∃ e, Crossref.Date d = (Time.zero, Some (Errors.TimeParseError e))
      end
  end.
Proof. exact (Date_cases d). Qed.



(** The crossref conversion stops at the date, then at the URL.  Without
    date parts it returns [errNoDate]; date parts that name no day of the
    calendar give the error of [time.Parse]; in both cases the raw date
    of the record is that of the zero time.  A first element of date
    parts with no number, or with more than three, is no error: the
    record is converted with the raw date [0001-01-01].  Past the date,
    the only error is [errNoURL] for an empty URL. *)
Theorem crossref_conversion_outcome
    (new : Crossref.Schema) (version : string)
    (lookup : Z -> string * option Errors.error) (doc : Crossref.Document) :
  let result := Crossref.ToIntermediateSchema new version lookup doc in
  let urlError :=
    if String.eqb (Crossref.URL doc) EmptyString then Some Crossref.errNoURL else None in
  match Crossref.DateParts (Crossref.Issued doc) with
  | [] =>
      snd result = Some Crossref.errNoDate
      ∧ Crossref.S_RawDate (fst result) = "0001-01-01"
  | parts :: _ =>
      match dateOfParts parts with
      | None =>
          snd result = urlError ∧ Crossref.S_RawDate (fst result) = "0001-01-01"
      | Some (y, m, day) =>
          if validDate y m day
          then snd result = urlError
               ∧ Crossref.S_RawDate (fst result)
                 = Time.Format {| Time.year := y; Time.month := m; Time.day := day |}
          else (∃ e, snd result = Some (Errors.TimeParseError e))
               ∧ Crossref.S_RawDate (fst result) = "0001-01-01"
      end
  end.
Proof.
  intros result urlError. pose proof (Date_cases (Crossref.Issued doc)) as Hd.
  assert (Hres : ∀ t e,
            Crossref.Date (Crossref.Issued doc) = (t, e) →
            snd result = match e with Some e' => Some e' | None => urlError end
            ∧ Crossref.S_RawDate (fst result) = Time.Format t).
  { intros t e Hte. unfold result, urlError, Crossref.ToIntermediateSchema. rewrite Hte.
    destruct e as [e'|]; [split; reflexivity |].
    destruct (String.eqb (Crossref.URL doc) EmptyString); split; reflexivity. }
  destruct (Crossref.DateParts (Crossref.Issued doc)) as [|parts rest].
  - exact (Hres _ _ Hd).
  - destruct (dateOfParts parts) as [[[y m] day]|].
    + destruct (validDate y m day).
      * exact (Hres _ _ Hd).
      * destruct Hd as (e & He). destruct (Hres _ _ He) as [H1 H2]. eauto.
    + exact (Hres _ _ Hd).
Qed.


(** ** More on dates: printing what was parsed *)

Lemma digitVal_inj (a b : ascii) : Byte.digitVal a = Byte.digitVal b → a = b.
Proof. unfold Byte.digitVal. intros H. apply code_inj. lia. Qed.

(** Two strings of digits of one length with one value are one string. *)
Lemma decimalFrom_inj (s s' : string) (n n' : Z) :
  String.length s = String.length s' →
  GoStrings.all Byte.isDigit s = true → GoStrings.all Byte.isDigit s' = true →
  decimalFrom n s = decimalFrom n' s' → n = n' ∧ s = s'.
Proof.
  revert s' n n'. induction s as [|c r IH]; intros [|c' r'] n n' Hlen Hs Hs' H;
    try discriminate Hlen.
  - auto.
  - simpl in Hs, Hs'.
    apply andb_true_iff in Hs as [Hc Hr]. apply andb_true_iff in Hs' as [Hc' Hr'].
    injection Hlen as Hlen. cbn [decimalFrom] in H.
    destruct (IH r' _ _ Hlen Hr Hr' H) as [Hn ->].
    pose proof (digitVal_range c Hc). pose proof (digitVal_range c' Hc').
    assert (n = n' ∧ Byte.digitVal c = Byte.digitVal c') as [-> Hv] by lia.
    rewrite (digitVal_inj c c' Hv). auto.
Qed.

Lemma pad_FormatIntPad (width : nat) (n : Z) :
  (0 <= n)%Z → Time.pad width n = Strconv.FormatIntPad width n.
Proof.
  intros Hn. unfold Time.pad, Strconv.FormatIntPad.
  rewrite (proj2 (Z.ltb_ge n 0)) by lia. reflexivity.
Qed.

Lemma decimal_bound2 (X : string) :
  String.length X = 2%nat → GoStrings.all Byte.isDigit X = true →
  (0 <= decimal X <= 99)%Z.
Proof.
  intros Hlen Hall. destruct X as [|a [|b [|? ?]]]; try discriminate Hlen.
  simpl in Hall.
  apply andb_true_iff in Hall as [Ha Hall]. apply andb_true_iff in Hall as [Hb _].
  pose proof (digitVal_range a Ha). pose proof (digitVal_range b Hb).
  unfold decimal. cbn [decimalFrom]. lia.
Qed.

(** Four digits, and two, are printed as they were read. *)
Lemma pad4_reads (Y : string) :
  String.length Y = 4%nat → GoStrings.all Byte.isDigit Y = true →
  Time.pad 4 (decimal Y) = Y.
Proof.
  intros Hlen Hall. pose proof (decimal_bound4 Y Hlen Hall) as Hb.
  rewrite pad_FormatIntPad by lia.
  destruct (FormatIntPad_nonneg 4 (decimal Y) ltac:(lia)) as [Hd Hv].
  apply (decimalFrom_inj _ Y 0 0); [rewrite pad4_length by lia; auto | assumption ..].
Qed.

Lemma pad2_reads (M : string) :
  String.length M = 2%nat → GoStrings.all Byte.isDigit M = true →
  Time.pad 2 (decimal M) = M.
Proof.
  intros Hlen Hall. pose proof (decimal_bound2 M Hlen Hall) as Hb.
  rewrite pad_FormatIntPad by lia.
  destruct (FormatIntPad_nonneg 2 (decimal M) ltac:(lia)) as [Hd Hv].
  apply (decimalFrom_inj _ M 0 0); [rewrite pad2_length by lia; auto | assumption ..].
Qed.

Lemma Parse20060102_spec (s : string) (t : Time.Time) :
  Time.Parse20060102 s = inr t
  ↔ ∃ Y M D,
      s = Y +:+ M +:+ D
      ∧ (String.length Y = 4 ∧ String.length M = 2 ∧ String.length D = 2)%nat
      ∧ GoStrings.all Byte.isDigit Y = true ∧ GoStrings.all Byte.isDigit M = true
      ∧ GoStrings.all Byte.isDigit D = true
      ∧ (1 <= decimal M <= 12)%Z
      ∧ (1 <= decimal D <= Time.daysIn (decimal M) (decimal Y))%Z
      ∧ t = {| Time.year := decimal Y; Time.month := decimal M; Time.day := decimal D |}.
Proof.
  unfold Time.Parse20060102. split.
  - destruct (Time.parseLongYear "20060102" s s) as [e|[y v1]] eqn:EY; [discriminate |].
    apply parseLongYear_spec in EY as (Y & -> & HlY & HY & ->).
    destruct (Time.getnum2 v1) as [[m v2]|] eqn:EM; [|discriminate].
    apply getnum2_spec in EM as (M & -> & HlM & HM & ->).
    destruct (Z.leb_spec (decimal M) 0); [discriminate |].
    destruct (Z.ltb_spec 12 (decimal M)); [discriminate |]. cbn [orb].
    destruct (Time.getnum2 v2) as [[d v3]|] eqn:ED; [|discriminate].
    apply getnum2_spec in ED as (D & -> & HlD & HD & ->).
    intros Hf. apply finish_spec in Hf as (-> & Hd & ->).
    exists Y, M, D. rewrite append_nil_r. repeat split; try assumption; lia.
  - intros (Y & M & D & -> & (HlY & HlM & HlD) & HY & HM & HD & Hm & Hd & ->).
    rewrite (proj2 (parseLongYear_spec _ _ _ (M +:+ D) (decimal Y))) by (exists Y; auto).
    rewrite (proj2 (getnum2_spec _ D (decimal M))) by (exists M; auto).
    rewrite (proj2 (Z.leb_gt (decimal M) 0)) by lia.
    rewrite (proj2 (Z.ltb_ge 12 (decimal M))) by lia.
    cbn [orb].
    rewrite (proj2 (getnum2_spec D EmptyString (decimal D)))
      by (exists D; rewrite append_nil_r; auto).
    apply finish_spec. auto.
Qed.

(** What [Format] prints for a time that one of the three layouts
    parsed. *)
Lemma Format_parsed :
  (∀ s t, Time.Parse2006 s = inr t → Time.Format t = s +:+ "-01-01")
  ∧ (∀ s t, Time.Parse20060102 s = inr t →
       Time.Format t
       = GoStrings.take 4 s +:+ "-" +:+ GoStrings.take 2 (GoStrings.drop 4 s)
         +:+ "-" +:+ GoStrings.drop 6 s)
  ∧ (∀ s t, Time.Parse2006_01_02 s = inr t → Time.Format t = s).
Proof.
  split; [|split].
  - intros s t H. apply Parse2006_spec in H as (Hlen & Hall & ->).
    unfold Time.Format. cbn [Time.year Time.month Time.day].
    rewrite (pad4_reads s Hlen Hall). reflexivity.
  - intros s t H.
    apply Parse20060102_spec in H
      as (Y & M & D & -> & (HlY & HlM & HlD) & HY & HM & HD & _ & _ & ->).
    unfold Time.Format. cbn [Time.year Time.month Time.day].
    rewrite (pad4_reads Y HlY HY), (pad2_reads M HlM HM), (pad2_reads D HlD HD).
    destruct Y as [|y1 [|y2 [|y3 [|y4 [|? ?]]]]]; try discriminate HlY.
    destruct M as [|m1 [|m2 [|? ?]]]; try discriminate HlM.
    reflexivity.
  - intros s t H.
    apply Parse2006_01_02_spec in H
      as (Y & M & D & -> & (HlY & HlM & HlD) & HY & HM & HD & _ & _ & ->).
    unfold Time.Format. cbn [Time.year Time.month Time.day].
    rewrite (pad4_reads Y HlY HY), (pad2_reads M HlM HM), (pad2_reads D HlD HD).
    destruct Y as [|y1 [|y2 [|y3 [|y4 [|? ?]]]]]; try discriminate HlY.
    destruct M as [|m1 [|m2 [|? ?]]]; try discriminate HlM.
    reflexivity.
Qed.


Lemma genios_Date_truncated (doc : Genios.Document) (t : Time.Time) :
  Genios.yearPattern_MatchString (Genios.cleanDate (Genios.Year doc)) = false →
  Genios.Date doc = inr t →
  let raw := Genios.cleanDate (Genios.RawDate doc) in
  Time.Format t
  = GoStrings.take 4 raw +:+ "-" +:+ GoStrings.take 2 (GoStrings.drop 4 raw)
    +:+ "-" +:+ GoStrings.take 2 (GoStrings.drop 6 raw).
Proof.
  intros Hy Hd raw. unfold Genios.Date in Hd. rewrite Hy in Hd. fold raw in Hd.
  destruct Format_parsed as (_ & Hfmt & _).
  destruct raw as [|c1 [|c2 [|c3 [|c4 [|c5 [|c6 [|c7 [|c8 [|c9 rest]]]]]]]]];
    cbn [String.length Nat.ltb Nat.leb GoStrings.take] in Hd;
    try (apply Parse20060102_spec in Hd
           as (Y & M & D & Hs & (HlY & HlM & HlD) & _);
         apply (f_equal String.length) in Hs;
         rewrite !length_append, HlY, HlM, HlD in Hs; discriminate Hs);
    rewrite (Hfmt _ _ Hd); reflexivity.
Qed.

(** The raw date of a converted record is the date of its source in the
    form [YYYY-MM-DD].  Genderopen: the first four bytes of [dc:date],
    then [-01-01].  Genios: the cleaned [Year] when it holds a year, then
    [-01-01]; otherwise the first eight bytes of the cleaned [Date], cut
    after the fourth and the sixth.  Crossref: the date parts, filled up
    with zeros to four, two and two digits, a missing month or day taken
    as the first. *)
Theorem raw_date_is_source_date :
  (∀ record out,
     Genderopen.ToIntermediateSchema record = (out, None) →
     Finc.RawDate out = GoStrings.take 4 (Genderopen.Dc_Date record) +:+ "-01-01")
  ∧ (∀ findISSN detect lookup values doc out,
       Genios.ToIntermediateSchema findISSN detect lookup values doc = (out, None) →
       let year := Genios.cleanDate (Genios.Year doc) in
       let raw := Genios.cleanDate (Genios.RawDate doc) in
       Finc.RawDate out
       = if Genios.yearPattern_MatchString year then year +:+ "-01-01"
         else GoStrings.take 4 raw +:+ "-" +:+ GoStrings.take 2 (GoStrings.drop 4 raw)
              +:+ "-" +:+ GoStrings.take 2 (GoStrings.drop 6 raw))
  ∧ (∀ new version lookup doc out parts rest y m day,
       Crossref.ToIntermediateSchema new version lookup doc = (out, None) →
       Crossref.DateParts (Crossref.Issued doc) = parts :: rest →
       dateOfParts parts = Some (y, m, day) →
       Crossref.S_RawDate out
       = Strconv.FormatIntPad 4 y +:+ "-" +:+ Strconv.FormatIntPad 2 m
         +:+ "-" +:+ Strconv.FormatIntPad 2 day).
Proof.
  destruct Format_parsed as (Hfmt1 & Hfmt2 & Hfmt3).
  split; [|split].
  - intros record out H. unfold Genderopen.ToIntermediateSchema in H.
    destruct (Genderopen.identifiers (Genderopen.Dc_Identifier record)) as [[url issn] doi].
    destruct (String.eqb (Genderopen.Dc_Date record) EmptyString); [discriminate |].
    destruct (String.length (Genderopen.Dc_Date record) <? 4)%nat; [discriminate |].
    destruct (Time.Parse2006 (GoStrings.take 4 (Genderopen.Dc_Date record)))
      as [e|date] eqn:Hp; [discriminate |].
    injection H as <-. cbn [Finc.RawDate]. exact (Hfmt1 _ _ Hp).
  - intros findISSN detect lookup values doc out H year raw.
    destruct (genios_conversion_cases findISSN detect lookup values doc)
      as [(e & _ & He) | [(date & out' & reason & _ & He & _)
                         | (date & out' & Hd & _ & He & _ & _ & Hdate & Hraw)]];
      try (rewrite He in H; discriminate H).
    rewrite He in H. injection H as <-. rewrite Hraw.
    destruct (Genios.yearPattern_MatchString year) eqn:Hy.
    + apply Hfmt1. unfold Genios.Date in Hd. fold year in Hd. rewrite Hy in Hd. exact Hd.
    + exact (genios_Date_truncated doc date Hy Hd).
  - intros new version lookup doc out parts rest y m day H Hparts Hp.
    unfold Crossref.ToIntermediateSchema in H.
    rewrite (Date_parts _ parts rest y m day Hparts Hp) in H.
    destruct (Time.Parse2006_01_02 _) as [e|t] eqn:HP; [discriminate |].
    destruct (String.eqb (Crossref.URL doc) EmptyString); [discriminate |].
    injection H as <-. cbn [Crossref.S_RawDate].
    rewrite (Hfmt3 _ _ HP). reflexivity.
Qed.

Lemma raw_date_is_source_date_witness :
  Finc.RawDate (fst (geniosExample (geniosDocument "b0604160052" EmptyString
                                      (" 20180315" +:+ GoStrings.bytes [9; 10]%N))))
  = "2018-03-15".
Proof.
  exact (proj1 (proj2 raw_date_is_source_date) (fun _ => []) (fun _ => None)
           (fun _ d => d) (fun l => l)
           (geniosDocument "b0604160052" EmptyString
              (" 20180315" +:+ GoStrings.bytes [9; 10]%N))
           _ eq_refl).
Defined.


(** ** More on genderopen: identifiers and book titles *)

Lemma Replace_prefix_once (v p r : string) :
  GoStrings.stripPrefix p v = Some r →
  GoStrings.Replace v p EmptyString (Some 1%nat) = r.
Proof.
  intros H. unfold GoStrings.Replace. cbn [GoStrings.replaceFuel]. rewrite H.
  rewrite append_nil_l. destruct (String.length v); reflexivity.
Qed.

Lemma identifiers_from (ids url issn : list string) (doi : string) :
  fold_left
    (fun '(url, issn, doi) v =>
       let url := if GoStrings.HasPrefix v "http" then url ++ [v] else url in
       let issn :=
         if GoStrings.HasPrefix v "urn:ISSN:"
         then issn ++ [GoStrings.Replace v "urn:ISSN:" EmptyString (Some 1%nat)]
         else issn in
       let doi :=
         if GoStrings.HasPrefix v "http://dx.doi.org/"
         then GoStrings.Replace v "http://dx.doi.org/" EmptyString None
         else doi in
       (url, issn, doi))
    ids (url, issn, doi)
  = (url ++ List.filter (fun v => GoStrings.HasPrefix v "http") ids,
     issn ++ flat_map (behind "urn:ISSN:") ids,
     match last (List.filter (fun v => GoStrings.HasPrefix v "http://dx.doi.org/") ids) with
     | Some v => GoStrings.Replace v "http://dx.doi.org/" EmptyString None
     | None => doi
     end).
Proof.
  revert url issn doi. induction ids as [|v ids IH]; intros url issn doi.
  - simpl. rewrite !app_nil_r. reflexivity.
  - cbn [fold_left]. rewrite IH. cbn [List.filter flat_map].
    f_equal; [f_equal |].
    + destruct (GoStrings.HasPrefix v "http"); [rewrite <- app_assoc |]; reflexivity.
    + unfold behind at 2, GoStrings.HasPrefix.
      destruct (GoStrings.stripPrefix "urn:ISSN:" v) as [r|] eqn:E;
        [|rewrite app_nil_l; reflexivity].
      rewrite (Replace_prefix_once v "urn:ISSN:" r E), <- app_assoc. reflexivity.
    + destruct (GoStrings.HasPrefix v "http://dx.doi.org/"); [|reflexivity].
      rewrite last_cons.
      destruct (last (List.filter _ ids)); reflexivity.
Qed.

Lemma HasPrefix_http (v : string) :
  GoStrings.HasPrefix v "http://dx.doi.org/" = true → GoStrings.HasPrefix v "http" = true.
Proof.
  unfold GoStrings.HasPrefix.
  destruct (GoStrings.stripPrefix "http://dx.doi.org/" v) as [r|] eqn:E; [|discriminate].
  apply stripPrefix_spec in E. subst v. intros _. reflexivity.
Qed.

(** The loop of the genderopen conversion over [dc:identifier]: the URLs
    are the identifiers that begin with [http], in their order; the ISSNs
    are what stands behind [urn:ISSN:] in the identifiers that begin
    with it; the DOI comes from the last identifier that begins with
    [http://dx.doi.org/], which is among the URLs as well, and is empty
    without one. *)
Theorem identifiers_sorted_out (ids : list string) :
  let '(url, issn, doi) := Genderopen.identifiers ids in
  url = List.filter (fun v => GoStrings.HasPrefix v "http") ids
  ∧ issn = flat_map (behind "urn:ISSN:") ids
  ∧ (∀ i, In i issn → In ("urn:ISSN:" +:+ i) ids)
  ∧ match last (List.filter (fun v => GoStrings.HasPrefix v "http://dx.doi.org/") ids) with
    | Some v => doi = GoStrings.Replace v "http://dx.doi.org/" EmptyString None
                ∧ In v url
    | None => doi = EmptyString
    end.
Proof.
  unfold Genderopen.identifiers. rewrite identifiers_from, !app_nil_l.
  split; [reflexivity |]. split; [reflexivity |]. split.
  - intros i Hi. apply in_flat_map in Hi as (v & Hv & Hi). unfold behind in Hi.
    destruct (GoStrings.stripPrefix "urn:ISSN:" v) as [r|] eqn:E; [|destruct Hi].
    destruct Hi as [<- | []]. apply stripPrefix_spec in E. rewrite <- E. exact Hv.
  - destruct (last (List.filter _ ids)) as [v|] eqn:El; [|reflexivity].
    split; [reflexivity |].
    apply last_Some_elem_of, list_elem_of_In, filter_In in El as [Hin Hp].
    apply filter_In. split; [exact Hin | apply HasPrefix_http, Hp].
Qed.

Lemma replaceFuel_byte (c d : ascii) (fuel : nat) (s : string) :
  (String.length s < fuel)%nat →
  GoStrings.replaceFuel fuel s (String c EmptyString) (String d EmptyString) None
  = GoStrings.map (fun x => if Byte.eqb c x then d else x) s.
Proof.
  revert s. induction fuel as [|fuel IH]; intros s Hlen; [lia |].
  destruct s as [|x r]; [reflexivity |].
  cbn [GoStrings.replaceFuel GoStrings.stripPrefix GoStrings.map].
  simpl in Hlen. destruct (Byte.eqb c x).
  - rewrite IH by lia. reflexivity.
  - rewrite IH by lia. reflexivity.
Qed.

(** [strings.Replace] of one byte by another, everywhere. *)
Lemma Replace_byte (c d : ascii) (s : string) :
  GoStrings.Replace s (String c EmptyString) (String d EmptyString) None
  = GoStrings.map (fun x => if Byte.eqb c x then d else x) s.
Proof. apply replaceFuel_byte. lia. Qed.

Lemma map_all (f : ascii -> ascii) (p : ascii -> bool) (s : string) :
  (∀ x, p (f x) = true) → GoStrings.all p (GoStrings.map f s) = true.
Proof.
  intros H. induction s as [|x r IH]; [reflexivity |]. simpl. rewrite H, IH. reflexivity.
Qed.

Lemma infix_all (p : ascii -> bool) (x s : string) :
  infix x s → GoStrings.all p s = true → GoStrings.all p x = true.
Proof.
  intros (pre & post & ->). rewrite !all_append. intros H.
  apply andb_true_iff in H as [_ H]. apply andb_true_iff in H as [H _]. exact H.
Qed.

(** [Record.BookTitle] is a piece of the source with its newlines turned
    into spaces, so it holds no newline.  When the source has a colon,
    the title is taken from behind the first colon and holds no opening
    parenthesis; without a colon it is the whole. *)
Theorem BookTitle_shape (r : Genderopen.Record_) :
  let s := GoStrings.map (fun x => if Byte.eqb (ascii_of_N 10) x then " "%char else x)
             (Genderopen.Dc_Source r) in
  let title := Genderopen.BookTitle r in
  infix title s
  ∧ GoStrings.all (fun x => negb (Byte.eqb (ascii_of_N 10) x)) title = true
  ∧ (GoStrings.all (fun x => negb (Byte.eqb x ":")) s = true → title = s)
  ∧ (GoStrings.all (fun x => negb (Byte.eqb x ":")) s = false →
     GoStrings.all (fun x => negb (Byte.eqb x "(")) title = true).
Proof.
  intros s title.
  assert (Hs : GoStrings.Replace (Genderopen.Dc_Source r) Genderopen.newline " " None = s)
    by apply Replace_byte.
  assert (Hnl : GoStrings.all (fun x => negb (Byte.eqb (ascii_of_N 10) x)) s = true).
  { apply map_all. intros x. unfold Byte.eqb.
    destruct (Ascii.eqb_spec (ascii_of_N 10) x) as [<-|Hx]; [reflexivity |].
    apply negb_true_iff, Ascii.eqb_neq, Hx. }
  assert (Hcases :
    (GoStrings.all (fun x => negb (Byte.eqb x ":")) s = true ∧ title = s)
    ∨ (GoStrings.all (fun x => negb (Byte.eqb x ":")) s = false
       ∧ infix title s
       ∧ GoStrings.all (fun x => negb (Byte.eqb x "(")) title = true)).
  { unfold title, Genderopen.BookTitle. rewrite Hs.
    unfold Genderopen.bookTitlePattern_FindStringSubmatch.
    pose proof (span_spec (fun c => negb (Byte.eqb c ":")) s) as Hsp.
    destruct (GoStrings.span (fun c => negb (Byte.eqb c ":")) s) as [g1 rest].
    destruct Hsp as (Hsplit & Hg1 & Hrest).
    destruct rest as [|c rest].
    - left. rewrite append_nil_r in Hsplit. subst g1. auto.
    - right.
      pose proof (span_spec (fun c => negb (Byte.eqb c "(")) rest) as Hsp2.
      destruct (GoStrings.span (fun c => negb (Byte.eqb c "(")) rest) as [g2 rest2].
      destruct Hsp2 as (Hsplit2 & Hg2 & _).
      split; [|split].
      + rewrite Hsplit, all_append. simpl. rewrite Hrest, andb_false_r. reflexivity.
      + apply (infix_trans _ g2); [apply TrimSpace_infix |].
        exists (g1 +:+ String c EmptyString), rest2.
        rewrite Hsplit, Hsplit2, !append_assoc. reflexivity.
      + apply TrimSpace_all. exact Hg2. }
  destruct Hcases as [[Hno ->] | (Hcolon & Hin & Hpar)].
  - split; [apply infix_refl |]. split; [exact Hnl |].
    split; [reflexivity | congruence].
  - split; [exact Hin |]. split; [exact (infix_all _ _ _ Hin Hnl) |].
    split; [congruence | intros _; exact Hpar].
Qed.


(** ** More on readers and counters *)

Lemma readLoop_lines (ls : list string) (acc : list string) :
  SpanIO.readLoop (List.map SpanIO.Line ls) acc = (acc ++ keptLines ls, None).
Proof.
  revert acc. induction ls as [|l ls IH]; intros acc.
  - simpl. rewrite app_nil_r. reflexivity.
  - cbn [List.map SpanIO.readLoop]. unfold keptLines. cbn [List.map List.filter].
    destruct (String.eqb (GoStrings.TrimSpace l) EmptyString); cbn [negb].
    + apply IH.
    + rewrite IH. unfold keptLines. rewrite <- app_assoc. reflexivity.
Qed.

Lemma readLoop_failure (ls : list string) (err : Errors.error) (rest : list SpanIO.Read)
    (acc : list string) :
  SpanIO.readLoop (List.map SpanIO.Line ls ++ SpanIO.Failure err :: rest) acc
  = ([], Some err).
Proof.
  revert acc. induction ls as [|l ls IH]; intros acc; [reflexivity |].
  cbn [List.map app SpanIO.readLoop].
  destruct (String.eqb (GoStrings.TrimSpace l) EmptyString); apply IH.
Qed.

Lemma readsFrom_tail (content tail cur : string) :
  GoStrings.all (fun c => negb (Byte.eqb c (ascii_of_N 10))) tail = true →
  SpanIO.readsFrom (content +:+ String (ascii_of_N 10) tail) cur
  = SpanIO.readsFrom (content +:+ String (ascii_of_N 10) EmptyString) cur.
Proof.
  intros Htail. revert cur. induction content as [|c r IH]; intros cur.
  - rewrite !append_nil_l. cbn [SpanIO.readsFrom].
    unfold Byte.eqb. rewrite Ascii.eqb_refl. f_equal.
    clear cur. generalize EmptyString as cur.
    induction tail as [|t tail IHt]; intros cur; [reflexivity |].
    cbn [GoStrings.all] in Htail. apply andb_true_iff in Htail as [Ht Htail].
    apply negb_true_iff in Ht. cbn [SpanIO.readsFrom]. rewrite Ht. apply IHt, Htail.
  - rewrite !append_cons. cbn [SpanIO.readsFrom].
    destruct (Byte.eqb c (ascii_of_N 10)); [f_equal |]; apply IH.
Qed.

(** [ReadLines] returns the lines read, trimmed, without those that are
    empty then, in their order.  A read that fails discards every line
    read before it: the result is nil and the error.  What stands in a
    file behind its last newline is never returned. *)
Theorem ReadLines_result :
  (∀ ls, SpanIO.ReadLines (inr (List.map SpanIO.Line ls)) = (keptLines ls, None))
  ∧ (∀ ls err rest,
       SpanIO.ReadLines (inr (List.map SpanIO.Line ls ++ SpanIO.Failure err :: rest))
       = ([], Some err))
  ∧ (∀ ls l, In l (keptLines ls) →
       l ≠ EmptyString ∧ ∃ line, In line ls ∧ l = GoStrings.TrimSpace line)
  ∧ (∀ content tail,
       GoStrings.all (fun c => negb (Byte.eqb c (ascii_of_N 10))) tail = true →
       SpanIO.ReadLines (inr (SpanIO.readsOf (content +:+ String (ascii_of_N 10) tail)))
       = SpanIO.ReadLines (inr (SpanIO.readsOf (content +:+ String (ascii_of_N 10) EmptyString))))
  ∧ (∀ tail,
       GoStrings.all (fun c => negb (Byte.eqb c (ascii_of_N 10))) tail = true →
       SpanIO.ReadLines (inr (SpanIO.readsOf tail)) = ([], None)).
Proof.
  split; [|split; [|split; [|split]]].
  - intros ls. unfold SpanIO.ReadLines. rewrite readLoop_lines. reflexivity.
  - intros ls err rest. apply readLoop_failure.
  - intros ls l Hl. unfold keptLines in Hl. apply filter_In in Hl as [Hin Hne].
    apply in_map_iff in Hin as (line & <- & Hline). split.
    + intros He. rewrite He in Hne. discriminate.
    + eauto.
  - intros content tail Htail. unfold SpanIO.readsOf.
    rewrite (readsFrom_tail content tail EmptyString Htail). reflexivity.
  - intros tail Htail. unfold SpanIO.readsOf.
    assert (H : ∀ cur, SpanIO.readsFrom tail cur = []).
    { induction tail as [|t tail IHt]; intros cur; [reflexivity |].
      cbn [GoStrings.all] in Htail. apply andb_true_iff in Htail as [Ht Htail].
      apply negb_true_iff in Ht. cbn [SpanIO.readsFrom]. rewrite Ht. apply IHt, Htail. }
    rewrite H. reflexivity.
Qed.

Lemma writeAll_count (ps : list string) (w : SpanIO.WriteCounter) :
  (SpanIO.Count (SpanIO.writeAll w ps) mod 2 ^ 64 = (w + totalLength ps) mod 2 ^ 64)%Z.
Proof.
  unfold SpanIO.Count, SpanIO.writeAll. revert w.
  induction ps as [|p ps IH]; intros w.
  - simpl. rewrite Z.add_0_r. reflexivity.
  - cbn [fold_left totalLength fold_right]. rewrite IH. cbn [SpanIO.Write fst].
    fold (totalLength ps). rewrite Zplus_mod_idemp_l. f_equal. lia.
Qed.

(** A [WriteCounter] holds the number of bytes written through it, modulo
    2^64: after any writes its count is the count before plus the lengths
    written, and every write reports its whole length and no error. *)
Theorem WriteCounter_counts (w : SpanIO.WriteCounter) (ps : list string) :
  (0 <= w < 2 ^ 64)%Z →
  SpanIO.Count (SpanIO.writeAll w ps) = ((w + totalLength ps) mod 2 ^ 64)%Z
  ∧ (totalLength ps < 2 ^ 64 - w →
     SpanIO.Count (SpanIO.writeAll w ps) = w + totalLength ps)%Z
  ∧ ∀ p, snd (SpanIO.Write w p) = (Z.of_nat (String.length p), None).
Proof.
  intros Hw.
  assert (Hrange : ∀ ps w, (0 <= w < 2 ^ 64)%Z →
                           (0 <= SpanIO.writeAll w ps < 2 ^ 64)%Z).
  { clear. intros ps. unfold SpanIO.writeAll.
    induction ps as [|p ps IH]; intros w Hw; [exact Hw |].
    cbn [fold_left]. apply IH. cbn [SpanIO.Write fst]. apply Z.mod_pos_bound.
    reflexivity. }
  assert (Hcount : SpanIO.Count (SpanIO.writeAll w ps)
                   = ((w + totalLength ps) mod 2 ^ 64)%Z).
  { rewrite <- writeAll_count. unfold SpanIO.Count.
    rewrite Z.mod_small; [reflexivity | apply Hrange, Hw]. }
  assert (Hpos : (0 <= totalLength ps)%Z).
  { clear. induction ps as [|p ps IH]; simpl; [lia |]. fold (totalLength ps). lia. }
  split; [exact Hcount |]. split; [|reflexivity].
  intros Hfit. rewrite Hcount. apply Z.mod_small. lia.
Qed.

Lemma WriteCounter_counts_witness :
  SpanIO.Count (SpanIO.writeAll 0%Z ["span"; "import"])
  = ((0 + totalLength ["span"; "import"]) mod 2 ^ 64)%Z.
Proof.
  assert (Hw : (0 <= 0 < 2 ^ 64)%Z) by (split; [lia | reflexivity]).
  exact (proj1 (WriteCounter_counts 0%Z ["span"; "import"] Hw)).
Defined.

(** * Examples

    The tables of [holdings/ovid_test.go] and a few standard vectors,
    evaluated on the model. *)

(** [TestParseDelay]: the durations of all ten rows and the error of the
    six rows that expect one. *)
Example TestParseDelay_durations :
  List.map (fun s => fst (Holdings.ParseDelay s))
    ["-0M"; "-1M"; "-2M"; "-1Y"; "-1D"; "-1"; "129"; "AB"; "-111m"; "0.1M"]
  = [0; -1 * (720 * Time.Hour); -2 * (720 * Time.Hour); -1 * (8760 * Time.Hour);
     0; 0; 0; 0; 0; 0]%Z.
Proof. vm_compute. reflexivity. Qed.

Example TestParseDelay_errors :
  List.map (fun s => bool_decide (snd (Holdings.ParseDelay s) = None))
    ["-0M"; "-1M"; "-2M"; "-1Y"; "-1D"; "-1"; "129"; "AB"; "-111m"; "0.1M"]
  = [true; true; true; true; false; false; false; false; false; false].
Proof. vm_compute. reflexivity. Qed.

(** [TestDelay]: the first three rows hold on the code, the last two
    (the mismatches) expect a zero duration and [errDelayMismatch]. *)
Example TestDelay_rows :
  let e (from to : string) : Holdings.Entitlement := {|
    Holdings.Status := EmptyString; Holdings.URL := EmptyString;
    Holdings.Anchor := EmptyString;
    Holdings.FromYear := 0; Holdings.FromVolume := 0; Holdings.FromIssue := 0;
    Holdings.FromDelay := from;
    Holdings.ToYear := 0; Holdings.ToVolume := 0; Holdings.ToIssue := 0;
    Holdings.ToDelay := to |} in
  List.map Holdings.Delay
    [e "-1M" EmptyString; e EmptyString "-1M"; e "-1M" "-1M"; e "-1M" "-2M"; e "-2M" "-1M"]
  = [(-2592000000000000, None); (-2592000000000000, None); (-2592000000000000, None);
     (-2592000000000000, None); (-5184000000000000, None)]%Z.
Proof. vm_compute. reflexivity. Qed.

(** [TestBoundary]: [-0M] parses, [0M] is a format error. *)
Example TestBoundary_delays :
  Holdings.ParseDelay "-0M" = (0%Z, None)
  ∧ Holdings.ParseDelay "0M" = (0%Z, Some (Errors.ErrorString "unknown format: 0M")).
Proof. split; vm_compute; reflexivity. Qed.

(** The largest number of hours: [maxInt64] nanoseconds are 2562047 whole
    hours. *)
Example maxHours_is_the_limit : (Strconv.maxInt64 / Time.Hour)%Z = maxHours.
Proof. reflexivity. Qed.

(** The test vectors of RFC 4648. *)
Example base64_rfc4648 :
  List.map Base64.StdEncoding ["f"; "fo"; "foo"; "foob"; "fooba"; "foobar"]
  = ["Zg=="; "Zm8="; "Zm9v"; "Zm9vYg=="; "Zm9vYmE="; "Zm9vYmFy"]
  ∧ List.map Base64.RawURLEncoding ["f"; "fo"; "foo"; "???>>>"]
    = ["Zg"; "Zm8"; "Zm9v"; "Pz8_Pj4-"].
Proof. split; vm_compute; reflexivity. Qed.

(** The identifier named in the comment of the genios conversion. *)
Example genios_FincID :
  Genios.FincID (geniosDocument " b0604160052 " "2015" EmptyString)
  = "ai-48-Qk9ORF9fYjA2MDQxNjAwNTI".
Proof. vm_compute. reflexivity. Qed.

(** The citation of the comment of [Record.BookTitle]. *)
Example genderopen_BookTitle :
  Genderopen.BookTitle
    (genderopenRecord "oai:www.genderopen.de:25595/123" "2003"
       ("Knapp, Gudrun-Axeli; Wetterer, Angelika" +:+ Genderopen.newline
        +:+ " (Hrsg.): Achsen der Differenz. Gesellschaftstheorie und feministische"
        +:+ " Kritik II (Muenster: Westfaelisches Dampfboot, 2003), 73-100"))
  = "Achsen der Differenz. Gesellschaftstheorie und feministische Kritik II".
Proof. vm_compute. reflexivity. Qed.

Example TrimSpace_unicode :
  GoStrings.TrimSpace (GoStrings.bytes [32; 9; 49; 32; 50; 194; 160; 10]%N) = "1 2".
Proof. vm_compute. reflexivity. Qed.

Example ISSN_Validate_examples :
  List.map (fun s => bool_decide (Span.Validate s = None))
    ["1610-2940"; "0948-5023"; "1234-567x"; " 1234 5678 "; "1234-56789"; "X234-5678"; ""]
  = [true; true; true; true; false; false; false].
Proof. vm_compute. reflexivity. Qed.
